(** * picoHardwareMonitor: the hardware actuation control plane

    A shallow embedding of the fan controller (package [fan]), the
    overclocking controller (package [overclock]) and the GPU reader's
    overclock entry points (package [gpu]), with the properties the
    specification states about them, followed by further properties of
    the code: its behaviour at the edges, what its methods keep, and how
    they compose.

    Conventions.
    - A Go [int] is a 64-bit two's complement integer, modelled as a [Z]
      with the wrap-around of every arithmetic operation written out
      ([GoInt.wrap]).
    - A Go function that can panic (index out of range, division by zero)
      returns an [outcome]: [Ret v] or [Panic].  A Go [(T, error)] pair is
      an [outcome (T + error)] or, where no panic is possible, a sum.
    - Files, sysfs nodes and vendor tools are the environment: every
      access is answered by an oracle and logged in an event trace, so
      that "no hardware access" is the statement that the trace did not
      grow. *)

From Stdlib Require Import ZArith Lia QArith.
From Stdlib Require Import Ascii String.
From stdpp Require Import base list gmap strings sorting pretty.

Local Open Scope Z_scope.

(** ** Go integers *)

Module GoInt.

Definition min_int : Z := -9223372036854775808.
Definition max_int : Z := 9223372036854775807.

(** Two's complement wrap-around to 64 bits. *)
Definition wrap (z : Z) : Z :=
  (z + 9223372036854775808) mod 18446744073709551616 - 9223372036854775808.

Definition in_range (z : Z) : Prop := min_int ≤ z ≤ max_int.

Definition add (a b : Z) : Z := wrap (a + b).
Definition sub (a b : Z) : Z := wrap (a - b).
Definition mul (a b : Z) : Z := wrap (a * b).

(** Go's [/] on integers truncates toward zero and panics on a zero
    divisor. *)
Definition quo (a b : Z) : option Z :=
  if b =? 0 then None else Some (wrap (a ÷ b)).

End GoInt.

(** ** Outcomes of Go calls *)

Inductive outcome (A : Type) : Type :=
  | Ret (a : A)
  | Panic.
Arguments Ret {A} a.
Arguments Panic {A}.

Definition obind {A B} (m : outcome A) (k : A → outcome B) : outcome B :=
  match m with
  | Ret a => k a
  | Panic => Panic
  end.

(** Slice indexing [s[i]]: panics outside [0, len(s)). *)
Definition go_index {A} (s : list A) (i : Z) : outcome A :=
  if i <? 0 then Panic
  else match s !! Z.to_nat i with
       | Some x => Ret x
       | None => Panic
       end.

(** ** Package fan *)

Module fan.

(** [FanMode] is a string type in the source; any string other than the
    three constants reaches the [default] branch of the mode switch. *)
Inductive FanMode : Type :=
  | ModeAuto
  | ModeFixed
  | ModeCurve
  | ModeOther (name : string).

Record CurvePoint : Type := mkPoint {
  Temperature : Z;
  FanSpeed : Z
}.

Record Settings : Type := mkSettings {
  Mode : FanMode;
  FixedSpeed : Z;
  Curve : list CurvePoint
}.

(** *** interpolateFanSpeed *)

(** The search loop [for i := 0; i < len(curve)-1; i++]: [n] iterations
    remain, the loop variable is [i].  When the loop runs out, the
    function falls through to its last [return]. *)
Fixpoint interpolate_loop (curve : list CurvePoint) (temp : Z)
    (n : nat) (i : nat) : outcome Z :=
  match n with
  | O =>
      match curve !! (length curve - 1)%nat with
      | Some last => Ret (FanSpeed last)
      | None => Panic
      end
  | S n' =>
      match curve !! i, curve !! S i with
      | Some p, Some q =>
          if (Temperature p <=? temp) && (temp <=? Temperature q) then
            let tempRange := GoInt.sub (Temperature q) (Temperature p) in
            let speedRange := GoInt.sub (FanSpeed q) (FanSpeed p) in
            let tempDiff := GoInt.sub temp (Temperature p) in
            match GoInt.quo (GoInt.mul speedRange tempDiff) tempRange with
            | Some d => Ret (GoInt.add (FanSpeed p) d)
            | None => Panic
            end
          else interpolate_loop curve temp n' (S i)
      | _, _ => Panic
      end
  end.

Definition interpolateFanSpeed (curve : list CurvePoint) (temp : Z)
    : outcome Z :=
  match curve !! 0%nat with
  | None => Panic
  | Some first =>
      if temp <=? Temperature first then Ret (FanSpeed first)
      else
        match curve !! (length curve - 1)%nat with
        | None => Panic
        | Some last =>
            if Temperature last <=? temp then Ret (FanSpeed last)
            else interpolate_loop curve temp (length curve - 1) 0
        end
  end.

(** *** Curves as the specification describes them *)

Definition point_in_bounds (p : CurvePoint) : Prop :=
  0 ≤ Temperature p ≤ 100 ∧ 0 ≤ FanSpeed p ≤ 100.

Definition valid_curve (curve : list CurvePoint) : Prop :=
  (2 ≤ length curve)%nat ∧ Forall point_in_bounds curve.

Definition sorted_curve (curve : list CurvePoint) : Prop :=
  ∀ (i j : nat) p q, (i < j)%nat →
    curve !! i = Some p → curve !! j = Some q →
    Temperature p ≤ Temperature q.

Definition distinct_temperatures (curve : list CurvePoint) : Prop :=
  NoDup (Temperature <$> curve).

(** The first point, in list order, whose temperature is [temp]. *)
Definition first_match (curve : list CurvePoint) (temp : Z)
    : option CurvePoint :=
  List.find (λ p, Temperature p =? temp) curve.

(** The interpolation formula of the specification, over unbounded
    integers, with the quotient truncated toward zero. *)
Definition segment_value (p q : CurvePoint) (temp : Z) : Z :=
  FanSpeed p
  + ((FanSpeed q - FanSpeed p) * (temp - Temperature p))
    ÷ (Temperature q - Temperature p).

Definition example_curve : list CurvePoint :=
  [mkPoint 0 20; mkPoint 100 100].


(** *** Errors

    The source builds every error with [fmt.Errorf]; one constructor
    stands for each message. *)
Inductive error : Type :=
  | ErrFanNotFound (fanID : Z)            (* fan ID %d not found *)
  | ErrPathNotAccessible (path : string)  (* path %s not accessible *)
  | ErrNoWritePermission (path : string)  (* no write permission for %s *)
  | ErrInsufficientPermissions (cause : error)
                               (* insufficient permissions for fan control *)
  | ErrSetManualMode                      (* failed to set manual mode *)
  | ErrSetPWMValue                        (* failed to set PWM value *)
  | ErrSetAutomaticMode                   (* failed to set automatic mode *)
  | ErrCurveTooShort          (* fan curve must have at least 2 points *)
  | ErrCurveTemperature       (* temperature must be between 0 and 100 *)
  | ErrCurveFanSpeed          (* fan speed must be between 0 and 100 *)
  | ErrSetManualModeForCurve  (* failed to set manual mode for curve *)
  | ErrUnsupportedMode (name : string)    (* unsupported fan mode: %s *)
  | ErrReadPWMValue                       (* failed to read PWM value *)
  | ErrInvalidPWMValue                    (* invalid PWM value *)
  | ErrFanOutOfRange (fanID : Z)          (* fan ID %d out of range *)
  | ErrNotControllable (fanID : Z)        (* fan is not controllable *)
  | ErrFixedSpeedRange        (* fan speed must be between 0 and 100 percent *)
  | ErrDirectControlUnsupported           (* direct fan control not supported *)
  | ErrAutoModeUnsupported    (* automatic fan mode switching not supported *)
  | ErrCurveModeUnsupported   (* fan curve mode not supported on Windows *).

(** The error taxonomy of the specification (section 7), read off the
    messages above. *)
Inductive error_kind : Type :=
  | ValidationError
  | NotFoundError
  | UnsupportedError
  | HardwareError.

Definition kind_of (e : error) : error_kind :=
  match e with
  | ErrFanNotFound _ | ErrFanOutOfRange _ => NotFoundError
  | ErrCurveTooShort | ErrCurveTemperature | ErrCurveFanSpeed
  | ErrFixedSpeedRange => ValidationError
  | ErrUnsupportedMode _ | ErrNotControllable _
  | ErrDirectControlUnsupported | ErrAutoModeUnsupported
  | ErrCurveModeUnsupported => UnsupportedError
  | _ => HardwareError
  end.

(** *** The environment of the Linux controller *)

(** Accesses to the sysfs control files.  The payload of a write is the
    integer whose decimal rendering is written ("1", "2" or
    [fmt.Sprintf("%d", pwmVal)]). *)
Inductive io_event : Type :=
  | EvStat (path : string)
  | EvOpenWrite (path : string)
  | EvRead (path : string)
  | EvWrite (path : string) (value : Z).

Definition is_write (ev : io_event) : bool :=
  match ev with
  | EvWrite _ _ => true
  | _ => false
  end.

(** What lies outside the repository: the answers of the operating
    system, which may depend on everything done so far, and the library
    functions [sort.Slice] (as the function from the curve to its sorted
    copy), [strings.TrimSpace] and [strconv.Atoi]. *)
Record Platform : Type := mkPlatform {
  stat_ok : list io_event → string → bool;
  open_ok : list io_event → string → bool;
  write_ok : list io_event → string → Z → bool;
  read_file : list io_event → string → option string;
  sort_slice : list CurvePoint → list CurvePoint;
  TrimSpace : string → string;
  Atoi : string → option Z
}.

Definition temperature_le (p q : CurvePoint) : Prop :=
  Temperature p ≤ Temperature q.

(** What [sort.Slice] guarantees for the comparison
    [sortedCurve[i].Temperature < sortedCurve[j].Temperature]: a
    permutation of the input in ascending temperature order.  The sort
    is not stable, so nothing is assumed about points of equal
    temperature. *)
Definition sort_slice_ok (pf : Platform) : Prop :=
  ∀ curve, sort_slice pf curve ≡ₚ curve
           ∧ StronglySorted temperature_le (sort_slice pf curve).

(** *** The Linux controller *)

(** [stopChannel] is never sent on, only closed. *)
Inductive chan : Type := ChanOpen | ChanClosed.

Record curveState : Type := mkCurveState {
  curve : list CurvePoint;
  lastTemp : Z;
  isActive : bool;
  stopChannel : chan
}.

(** A [*curveState] is an index into the heap of allocated states. *)
Abbreviation loc := nat (only parsing).

(** The goroutine started by [startFanCurve]: it closes over [fanID],
    [curve] and the pointer [state]. *)
Record goroutine : Type := mkGoroutine {
  g_fanID : Z;
  g_curve : list CurvePoint;
  g_state : loc;
  g_returned : bool
}.

(** The controller together with what it shares with its goroutines and
    the log of its file accesses.  [fanPaths] and [tempPaths] only feed
    [GetFans] and [getCurrentTemperature] and are left out. *)
Record LinuxController : Type := mkLinuxController {
  pwmPaths : list string;
  curveStates : gmap Z loc;
  heap : list curveState;
  goroutines : list goroutine;
  trace : list io_event
}.

Definition newPlatformController (paths : list string) : LinuxController :=
  mkLinuxController paths ∅ [] [] [].

(** State and panic monad of the controller's methods. *)
Definition M (A : Type) : Type :=
  LinuxController → outcome A * LinuxController.

Definition ret {A} (a : A) : M A := λ c, (Ret a, c).

Definition bind {A B} (m : M A) (k : A → M B) : M B := λ c,
  match m c with
  | (Ret a, c') => k a c'
  | (Panic, c') => (Panic, c')
  end.

Definition get : M LinuxController := λ c, (Ret c, c).

Notation "x <- y ; z" := (bind y (λ x, z))
  (at level 20, y at level 100, z at level 200, only parsing).

Definition emit (ev : io_event) : M unit := λ c,
  (Ret tt, mkLinuxController (pwmPaths c) (curveStates c) (heap c)
             (goroutines c) (trace c ++ [ev])).

Definition lift {A} (o : outcome A) : M A := λ c, (o, c).

Section linux.
Context (pf : Platform).

(** [os.Stat]: [true] when it succeeds. *)
Definition os_Stat (path : string) : M bool :=
  c <- get; _ <- emit (EvStat path); ret (stat_ok pf (trace c) path).

(** [os.OpenFile(path, os.O_WRONLY, 0)] followed by [Close]. *)
Definition os_OpenFile (path : string) : M bool :=
  c <- get; _ <- emit (EvOpenWrite path); ret (open_ok pf (trace c) path).

Definition ioutil_WriteFile (path : string) (value : Z) : M bool :=
  c <- get; _ <- emit (EvWrite path value);
  ret (write_ok pf (trace c) path value).

Definition ioutil_ReadFile (path : string) : M (option string) :=
  c <- get; _ <- emit (EvRead path); ret (read_file pf (trace c) path).

Fixpoint checkWritePermissions (paths : list string) : M (option error) :=
  match paths with
  | [] => ret None
  | path :: rest =>
      ok <- os_Stat path;
      if negb ok then ret (Some (ErrPathNotAccessible path))
      else
        ok <- os_OpenFile path;
        if negb ok then ret (Some (ErrNoWritePermission path))
        else checkWritePermissions rest
  end.

Definition startFanCurve (fanID : Z) (sorted : list CurvePoint) : M unit :=
  λ c,
    let l := length (heap c) in
    let state := mkCurveState sorted 0 true ChanOpen in
    (Ret tt,
     mkLinuxController (pwmPaths c) (<[fanID := l]> (curveStates c))
       (heap c ++ [state])
       (goroutines c ++ [mkGoroutine fanID sorted l false])
       (trace c)).

(** [close] of a closed channel panics; a map entry always points to
    an allocated state. *)
Definition stopFanCurve (fanID : Z) : M unit := λ c,
  match curveStates c !! fanID with
  | None => (Ret tt, c)
  | Some l =>
      match heap c !! l with
      | None => (Panic, c)
      | Some state =>
          if isActive state then
            match stopChannel state with
            | ChanClosed => (Panic, c)
            | ChanOpen =>
                (Ret tt,
                 mkLinuxController (pwmPaths c)
                   (delete fanID (curveStates c))
                   (<[l := mkCurveState (curve state) (lastTemp state)
                             false ChanClosed]> (heap c))
                   (goroutines c) (trace c))
            end
          else (Ret tt, c)
      end
  end.

(** The validation loop over the sorted copy. *)
Fixpoint validate_points (points : list CurvePoint) : option error :=
  match points with
  | [] => None
  | point :: rest =>
      if (Temperature point <? 0) || (100 <? Temperature point)
      then Some ErrCurveTemperature
      else if (FanSpeed point <? 0) || (100 <? FanSpeed point)
      then Some ErrCurveFanSpeed
      else validate_points rest
  end.

(** [(settings.FixedSpeed * 255) / 100] clamped to [0, 255]. *)
Definition fixed_pwm (speed : Z) : Z :=
  let pwmVal := GoInt.mul speed 255 ÷ 100 in
  let pwmVal := if 255 <? pwmVal then 255 else pwmVal in
  if pwmVal <? 0 then 0 else pwmVal.

(** The [case ModeCurve:] block of [SetSettings]. *)
Definition set_curve_mode (fanID : Z) (settings : Settings)
    (enablePath : string) : M (option error) :=
  _ <- stopFanCurve fanID;
  if (length (Curve settings) <? 2)%nat
  then ret (Some ErrCurveTooShort)
  else
    let sortedCurve := sort_slice pf (Curve settings) in
    match validate_points sortedCurve with
    | Some err => ret (Some err)
    | None =>
        ok <- ioutil_WriteFile enablePath 1;
        if negb ok then ret (Some ErrSetManualModeForCurve)
        else _ <- startFanCurve fanID sortedCurve; ret None
    end.

(** The [switch settings.Mode] of [SetSettings]. *)
Definition switch_mode (fanID : Z) (settings : Settings)
    (pwmPath enablePath : string) : M (option error) :=
  match Mode settings with
  | ModeFixed =>
      ok <- ioutil_WriteFile enablePath 1;
      if negb ok then ret (Some ErrSetManualMode)
      else
        ok <- ioutil_WriteFile pwmPath (fixed_pwm (FixedSpeed settings));
        if negb ok then ret (Some ErrSetPWMValue) else ret None
  | ModeAuto =>
      ok <- ioutil_WriteFile enablePath 2;
      if negb ok then ret (Some ErrSetAutomaticMode) else ret None
  | ModeCurve => set_curve_mode fanID settings enablePath
  | ModeOther name => ret (Some (ErrUnsupportedMode name))
  end.

Definition SetSettings (fanID : Z) (settings : Settings)
    : M (option error) :=
  c <- get;
  if Z.of_nat (length (pwmPaths c)) <=? fanID
  then ret (Some (ErrFanNotFound fanID))
  else
    pwmPath <- lift (go_index (pwmPaths c) fanID);
    let enablePath := pwmPath +:+ "_enable" in
    perr <- checkWritePermissions [pwmPath; enablePath];
    match perr with
    | Some err => ret (Some (ErrInsufficientPermissions err))
    | None => switch_mode fanID settings pwmPath enablePath
    end.

Definition GetSettings (fanID : Z) : M (Settings + error) :=
  c <- get;
  if Z.of_nat (length (pwmPaths c)) <=? fanID
  then ret (inr (ErrFanNotFound fanID))
  else
    let curve_mode :=
      match curveStates c !! fanID with
      | Some l =>
          match heap c !! l with
          | Some state =>
              if isActive state then Some (curve state) else None
          | None => None
          end
      | None => None
      end in
    match curve_mode with
    | Some cv => ret (inl (mkSettings ModeCurve 0 cv))
    | None =>
        pwmPath <- lift (go_index (pwmPaths c) fanID);
        let enablePath := pwmPath +:+ "_enable" in
        enableData <- ioutil_ReadFile enablePath;
        match enableData with
        | None => ret (inl (mkSettings ModeAuto 0 []))
        | Some enableData =>
            let enableVal := TrimSpace pf enableData in
            pwmData <- ioutil_ReadFile pwmPath;
            match pwmData with
            | None => ret (inr ErrReadPWMValue)
            | Some pwmData =>
                match Atoi pf (TrimSpace pf pwmData) with
                | None => ret (inr ErrInvalidPWMValue)
                | Some pwmVal =>
                    if String.eqb enableVal "1"
                    then ret (inl (mkSettings ModeFixed
                                (GoInt.mul pwmVal 100 ÷ 255)
                                []))
                    else ret (inl (mkSettings ModeAuto 0 []))
                end
            end
        end
    end.

(** [setPWMSpeed]; the curve loop ignores its error. *)
Definition setPWMSpeed (fanID : Z) (speedPercent : Z) : M (option error) :=
  c <- get;
  if Z.of_nat (length (pwmPaths c)) <=? fanID
  then ret (Some (ErrFanNotFound fanID))
  else
    let speedPercent := if speedPercent <? 0 then 0 else speedPercent in
    let speedPercent := if 100 <? speedPercent then 100 else speedPercent in
    let pwmVal := GoInt.mul speedPercent 255 ÷ 100 in
    pwmPath <- lift (go_index (pwmPaths c) fanID);
    ok <- ioutil_WriteFile pwmPath pwmVal;
    if negb ok then ret (Some ErrSetPWMValue) else ret None.

(** [state.lastTemp = temp] through the goroutine's pointer. *)
Definition set_lastTemp (l : loc) (temp : Z) : M unit := λ c,
  match heap c !! l with
  | None => (Panic, c)
  | Some state =>
      (Ret tt,
       mkLinuxController (pwmPaths c) (curveStates c)
         (<[l := mkCurveState (curve state) temp (isActive state)
                   (stopChannel state)]> (heap c))
         (goroutines c) (trace c))
  end.

(** The body of the ticker case; [temp] is what
    [getCurrentTemperature] returned (0 when no sensor could be
    read). *)
Definition tick_body (g : goroutine) (temp : Z) : M unit :=
  if 0 <? temp then
    fanSpeed <- lift (interpolateFanSpeed (g_curve g) temp);
    _ <- setPWMSpeed (g_fanID g) fanSpeed;
    set_lastTemp (g_state g) temp
  else ret tt.

Definition mark_returned (i : nat) (g : goroutine) : M unit := λ c,
  (Ret tt,
   mkLinuxController (pwmPaths c) (curveStates c) (heap c)
     (<[i := mkGoroutine (g_fanID g) (g_curve g) (g_state g) true]>
        (goroutines c))
     (trace c)).

(** One pass of goroutine [i] through its [select].  Go chooses among
    the cases that can proceed, uniformly at random: the stop case can
    proceed once the channel is closed, the ticker case whenever the
    ticker has delivered a tick, and when both can either may be
    taken.  [choice] is the case taken; the step is not enabled
    ([None]) for a goroutine that has returned, or for the stop case
    while the channel is open.  Taking the ticker case presupposes a
    delivered tick, which is the environment's doing. *)
Inductive select_case : Type := CaseStop | CaseTick.

Definition loop_iteration (i : nat) (choice : select_case) (temp : Z)
    (c : LinuxController) : option (outcome unit * LinuxController) :=
  match goroutines c !! i with
  | None => None
  | Some g =>
      if g_returned g then None
      else
        match choice with
        | CaseStop =>
            match heap c !! g_state g with
            | Some state =>
                match stopChannel state with
                | ChanClosed => Some (mark_returned i g c)
                | ChanOpen => None
                end
            | None => None
            end
        | CaseTick => Some (tick_body g temp c)
        end
  end.

End linux.

(** Goroutine [i] has not been told to stop: it has not returned and its
    stop channel is open. *)
Definition uncancelled (c : LinuxController) (i : nat) : Prop :=
  ∃ g state, goroutines c !! i = Some g ∧ g_returned g = false
             ∧ heap c !! g_state g = Some state
             ∧ stopChannel state = ChanOpen.

(** The active sampling loops of a fan. *)
Definition active_loop (c : LinuxController) (fanID : Z) (i : nat) : Prop :=
  uncancelled c i ∧ ∃ g, goroutines c !! i = Some g ∧ g_fanID g = fanID.

(** Events of the running system: calls of the two methods and passes
    of the goroutines through their [select]. *)
Inductive event : Type :=
  | CallSetSettings (fanID : Z) (settings : Settings)
  | CallGetSettings (fanID : Z)
  | LoopSelect (i : nat) (choice : select_case) (temp : Z).

(** A step that ends in a panic ends the process and is no step. *)
Inductive step (pf : Platform) : LinuxController → event → LinuxController → Prop :=
  | step_set c fanID settings r c' :
      SetSettings pf fanID settings c = (Ret r, c') →
      step pf c (CallSetSettings fanID settings) c'
  | step_get c fanID r c' :
      GetSettings pf fanID c = (Ret r, c') →
      step pf c (CallGetSettings fanID) c'
  | step_loop c i choice temp c' :
      loop_iteration pf i choice temp c = Some (Ret tt, c') →
      step pf c (LoopSelect i choice temp) c'.

Inductive run (pf : Platform) : LinuxController → list event → LinuxController → Prop :=
  | run_nil c : run pf c [] c
  | run_cons c ev c' evs c'' :
      step pf c ev c' → run pf c' evs c'' → run pf c (ev :: evs) c''.

(** The value [setPWMSpeed] writes for a speed: the speed clamped to
    [0, 100] and scaled to [0, 255]. *)
Definition pwm_of_percent (speedPercent : Z) : Z :=
  let speedPercent := if speedPercent <? 0 then 0 else speedPercent in
  let speedPercent := if 100 <? speedPercent then 100 else speedPercent in
  GoInt.mul speedPercent 255 ÷ 100.

(** Two controllers that differ in their access log only. *)
Definition same_control (c c' : LinuxController) : Prop :=
  pwmPaths c' = pwmPaths c ∧ curveStates c' = curveStates c
  ∧ heap c' = heap c ∧ goroutines c' = goroutines c.

(** [c'] has logged [evs] on top of [c]. *)
Definition logged (c c' : LinuxController) (evs : list io_event) : Prop :=
  trace c' = trace c ++ evs.

(** The shape every controller built by [newPlatformController] and
    driven through its methods keeps: goroutine [i] owns state [i]; a
    state is active exactly while its channel is open; a state whose
    channel is open is the one registered for its fan, and its goroutine
    has not returned; a registered state is active and belongs to the
    fan it is registered for. *)
Record well_formed (c : LinuxController) : Prop := mkWellFormed {
  wf_length : length (goroutines c) = length (heap c);
  wf_owner : ∀ (i : nat) g, goroutines c !! i = Some g →
    g_state g = i
    ∧ ∃ state, heap c !! i = Some state ∧ curve state = g_curve g;
  wf_flags : ∀ (l : nat) state, heap c !! l = Some state →
    isActive state = true ↔ stopChannel state = ChanOpen;
  wf_open : ∀ (i : nat) g state,
    goroutines c !! i = Some g → heap c !! i = Some state →
    stopChannel state = ChanOpen →
    curveStates c !! g_fanID g = Some i ∧ g_returned g = false;
  wf_registered : ∀ fanID (l : nat), curveStates c !! fanID = Some l →
    ∃ g state, goroutines c !! l = Some g ∧ g_fanID g = fanID
               ∧ heap c !! l = Some state ∧ isActive state = true
}.

(** Every write to [path] among [evs] carries a value the curve [cv]
    yields at some temperature. *)
Definition only_curve_values (cv : list CurvePoint) (path : string)
    (evs : list io_event) : Prop :=
  ∀ v, EvWrite path v ∈ evs →
    ∃ temp speed, interpolateFanSpeed cv temp = Ret speed
                  ∧ v = pwm_of_percent speed.

(** A curve the validation of [SetSettings] rejects. *)
Definition invalid_curve (cv : list CurvePoint) : Prop :=
  (length cv < 2)%nat ∨ ¬ Forall point_in_bounds cv.

(** *** Controllers and curves used as examples *)

(** Events that are no writes. *)
Definition no_writes (evs : list io_event) : Prop :=
  Forall (λ ev, is_write ev = false) evs.

(** [c'] descends from [c]: the fans are the same and no allocated
    state has changed its curve. *)
Definition descends (c c' : LinuxController) : Prop :=
  pwmPaths c' = pwmPaths c
  ∧ ∀ (l : nat) state, heap c !! l = Some state →
      ∃ state', heap c' !! l = Some state' ∧ curve state' = curve state.

Global Instance temperature_le_dec : RelDecision temperature_le.
Proof. intros p q. unfold temperature_le. apply _. Defined.

(** A platform on which every access succeeds; its [sort.Slice] is a
    merge sort. *)
Definition permissive_platform : Platform :=
  mkPlatform (λ _ _, true) (λ _ _, true) (λ _ _ _, true) (λ _ _, None)
    (merge_sort temperature_le) id (λ _, None).

Definition one_fan : LinuxController :=
  newPlatformController ["/sys/class/hwmon/hwmon0/pwm1"].

Definition curve_request (cv : list CurvePoint) : Settings :=
  mkSettings ModeCurve 0 cv.

(** The controller after fan 0 was put in curve mode with
    [example_curve]. *)
Definition one_fan_in_curve_mode : LinuxController :=
  (SetSettings permissive_platform 0 (curve_request example_curve)
     one_fan).2.

Definition flat_curve : list CurvePoint := [mkPoint 0 100; mkPoint 100 100].

Definition duplicate_curve : list CurvePoint :=
  [mkPoint 0 10; mkPoint 50 20; mkPoint 50 80].

(** *** The Windows controller *)

Record WindowsFanInfo : Type := mkWindowsFanInfo {
  Name : string;
  Speed : Z;
  Controllable : bool
}.

Record WindowsController : Type := mkWindowsController {
  fans : list WindowsFanInfo
}.

Module Windows.

Definition in_range (c : WindowsController) (fanID : Z) : bool :=
  negb ((fanID <? 0) || (Z.of_nat (length (fans c)) <=? fanID)).

Definition GetSettings (c : WindowsController) (fanID : Z)
    : outcome (Settings + error) :=
  if negb (in_range c fanID) then Ret (inr (ErrFanOutOfRange fanID))
  else obind (go_index (fans c) fanID) (λ fan,
         Ret (inl (mkSettings ModeAuto (Speed fan) []))).

Definition setFixedSpeed (c : WindowsController) (fanID : Z)
    (speedPercent : Z) : outcome (option error) :=
  if (speedPercent <? 0) || (100 <? speedPercent)
  then Ret (Some ErrFixedSpeedRange)
  else obind (go_index (fans c) fanID) (λ _,
         Ret (Some ErrDirectControlUnsupported)).

Definition setAutoMode (c : WindowsController) (fanID : Z)
    : outcome (option error) :=
  obind (go_index (fans c) fanID) (λ _, Ret (Some ErrAutoModeUnsupported)).

Definition SetSettings (c : WindowsController) (fanID : Z)
    (settings : Settings) : outcome (option error) :=
  if negb (in_range c fanID) then Ret (Some (ErrFanOutOfRange fanID))
  else obind (go_index (fans c) fanID) (λ fan,
         if negb (Controllable fan)
         then Ret (Some (ErrNotControllable fanID))
         else match Mode settings with
              | ModeFixed => setFixedSpeed c fanID (FixedSpeed settings)
              | ModeAuto => setAutoMode c fanID
              | ModeCurve => Ret (Some ErrCurveModeUnsupported)
              | ModeOther name => Ret (Some (ErrUnsupportedMode name))
              end).

End Windows.

(** *** Reading the hardware back *)

(** [getPWMSpeedPercent]: -1 when the file cannot be read or parsed. *)
Definition getPWMSpeedPercent (pf : Platform) (pwmPath : string) : M Z :=
  data <- ioutil_ReadFile pf pwmPath;
  match data with
  | None => ret (-1)
  | Some data =>
      match Atoi pf (TrimSpace pf data) with
      | None => ret (-1)
      | Some pwmVal => ret (GoInt.mul pwmVal 100 ÷ 255)
      end
  end.

(** The paths [getCurrentTemperature] tries before the discovered ones. *)
Definition common_temperature_paths : list string :=
  ["/sys/class/thermal/thermal_zone0/temp";
   "/sys/class/hwmon/hwmon0/temp1_input";
   "/sys/class/hwmon/hwmon1/temp1_input"].

(** The loop of [getCurrentTemperature] over the sensor files: the first
    file that can be read and parsed to a reading which, taken as
    millidegrees when above 1000, lies strictly between 0 and 120. *)
Fixpoint scan_temperature_files (pf : Platform) (paths : list string)
    : M (option Z) :=
  match paths with
  | [] => ret None
  | path :: rest =>
      data <- ioutil_ReadFile pf path;
      match data with
      | None => scan_temperature_files pf rest
      | Some data =>
          match Atoi pf (TrimSpace pf data) with
          | None => scan_temperature_files pf rest
          | Some temp =>
              let temp := if 1000 <? temp then temp ÷ 1000 else temp in
              if (0 <? temp) && (temp <? 120) then ret (Some temp)
              else scan_temperature_files pf rest
          end
      end
  end.

(** [getCurrentTemperature].  [tempPaths] are the discovered sensor files
    of the controller; [sensors] is what the fallback finds in the output
    of the [sensors] command ([None]: the command fails or shows no
    temperature it can parse). *)
Definition getCurrentTemperature (pf : Platform) (tempPaths : list string)
    (sensors : option Z) : M Z :=
  found <- scan_temperature_files pf (common_temperature_paths ++ tempPaths);
  match found with
  | Some temp => ret temp
  | None => ret (default 0 sensors)
  end.

(** *** What the sampling loops rely on *)

(** The speeds of a curve never fall from one point to the next. *)
Definition rising_speeds (cv : list CurvePoint) : Prop :=
  ∀ (i j : nat) p q, (i < j)%nat → cv !! i = Some p → cv !! j = Some q →
    FanSpeed p ≤ FanSpeed q.

(** Every goroutine drives a discovered fan along a curve that has at
    least two points within bounds, in ascending order of temperature. *)
Definition loops_safe (c : LinuxController) : Prop :=
  ∀ (i : nat) g, goroutines c !! i = Some g →
    (∃ pwmPath, go_index (pwmPaths c) (g_fanID g) = Ret pwmPath)
    ∧ valid_curve (g_curve g) ∧ sorted_curve (g_curve g).

(** A platform whose control files read back as manual mode at PWM 127. *)
Definition readback_platform : Platform :=
  mkPlatform (λ _ _, true) (λ _ _, true) (λ _ _ _, true)
    (λ _ path, if String.eqb path "/sys/class/hwmon/hwmon0/pwm1_enable"
               then Some "1" else Some "127")
    (merge_sort temperature_le) id
    (λ s, if String.eqb s "127" then Some 127
          else if String.eqb s "45000" then Some 45000 else None).

(** A platform whose first sensor file holds 45000 millidegrees. *)
Definition warm_platform : Platform :=
  mkPlatform (λ _ _, true) (λ _ _, true) (λ _ _ _, true)
    (λ _ _, Some "45000")
    (merge_sort temperature_le) id
    (λ s, if String.eqb s "45000" then Some 45000 else None).

Definition rising_curve : list CurvePoint :=
  [mkPoint 30 20; mkPoint 60 50; mkPoint 80 100].

(** A platform on which the control files exist but cannot be opened for
    writing. *)
Definition read_only_platform : Platform :=
  mkPlatform (λ _ _, true) (λ _ _, false) (λ _ _ _, true) (λ _ _, None)
    (merge_sort temperature_le) id (λ _, None).

(** A platform on which the control files can be opened for writing
    until something has been written to the hardware: the permission is
    withdrawn after the first write. *)
Definition revoking_platform : Platform :=
  mkPlatform (λ _ _, true) (λ trace _, negb (existsb is_write trace))
    (λ _ _ _, true) (λ _ _, None)
    (merge_sort temperature_le) id (λ _, None).

(** The controller after fan 0 was put in curve mode with
    [example_curve] on that platform. *)
Definition one_fan_revoked : LinuxController :=
  (SetSettings revoking_platform 0 (curve_request example_curve)
     one_fan).2.

(** *** Discovery on Windows *)

Module WindowsDiscovery.

(** The rows of the two WMI queries, with the columns the controller
    uses. *)
Record Win32_Fan : Type := mkWin32_Fan {
  wmi_DeviceID : string;
  wmi_Name : string;
  wmi_VariableSpeed : bool
}.

Record Win32_TemperatureProbe : Type := mkWin32_TemperatureProbe {
  probe_Name : string
}.

Section discovery.
(** The rendering of [%d]. *)
Context (Itoa : Z → string).

(** [discoverWMIFans]; [query] is the result of the WMI query ([None]:
    it fails). *)
Definition discoverWMIFans (query : option (list Win32_Fan))
    (fans : list WindowsFanInfo) : list WindowsFanInfo :=
  match query with
  | None => fans
  | Some found =>
      fold_left
        (λ fans wmiFan,
           let name := wmi_Name wmiFan in
           let name := if String.eqb name ""
                       then "Fan " +:+ wmi_DeviceID wmiFan else name in
           fans ++ [mkWindowsFanInfo name 0 (wmi_VariableSpeed wmiFan)])
        found fans
  end.

(** The loop of [discoverTemperatureProbes] from index [i] on. *)
Fixpoint probe_fans (probes : list Win32_TemperatureProbe) (i : Z)
    (fans : list WindowsFanInfo) : list WindowsFanInfo :=
  match probes with
  | [] => fans
  | probe :: rest =>
      let name := "Fan for " +:+ probe_Name probe in
      let name := if String.eqb (probe_Name probe) ""
                  then "System Fan " +:+ Itoa (GoInt.add i 1) +:+ " (Probe)"
                  else name in
      probe_fans rest (GoInt.add i 1)
        (fans ++ [mkWindowsFanInfo name 0 false])
  end.

Definition discoverTemperatureProbes
    (query : option (list Win32_TemperatureProbe))
    (fans : list WindowsFanInfo) : list WindowsFanInfo :=
  match query with
  | None => fans
  | Some probes => probe_fans probes 0 fans
  end.

Definition addDummyFans (fans : list WindowsFanInfo) : list WindowsFanInfo :=
  fans ++ [mkWindowsFanInfo "CPU Fan (ID:0)" 0 false;
           mkWindowsFanInfo "System Fan 1 (ID:1)" 0 false;
           mkWindowsFanInfo "System Fan 2 (ID:2)" 0 false].

Definition discoverFans (wmiFans : option (list Win32_Fan))
    (probes : option (list Win32_TemperatureProbe)) : list WindowsFanInfo :=
  let fans := discoverWMIFans wmiFans [] in
  let fans := discoverTemperatureProbes probes fans in
  if (length fans =? 0)%nat then addDummyFans fans else fans.

Definition newPlatformController (wmiFans : option (list Win32_Fan))
    (probes : option (list Win32_TemperatureProbe)) : WindowsController :=
  mkWindowsController (discoverFans wmiFans probes).

End discovery.

End WindowsDiscovery.

End fan.

(** ** Strings *)

(** [strings.Contains]. *)
Fixpoint Contains (s substr : string) : bool :=
  String.prefix substr s
  || match s with
     | EmptyString => false
     | String _ rest => Contains rest substr
     end.

(** [filepath.Ext]: the suffix beginning at the final dot of the final
    path element, empty if there is none.  [ext_scan] is [None] while
    neither a dot nor a separator has been met from the right.  (On
    Windows the backslash separates too; the name of a directory entry
    holds no separator.) *)
Fixpoint ext_scan (path : string) : option string :=
  match path with
  | EmptyString => None
  | String ch rest =>
      match ext_scan rest with
      | Some e => Some e
      | None =>
          if Ascii.eqb ch "/"%char then Some EmptyString
          else if Ascii.eqb ch "."%char then Some path
          else None
      end
  end.

Definition Ext (path : string) : string := default EmptyString (ext_scan path).

(** ** Listing the fans (package fan, continued) *)

Module Monitoring.
Import fan.

Record Info : Type := mkInfo {
  Name : string;
  RPM : Z;
  Speed : Z;
  MaxRPM : Z
}.

Section get_fans.
(** The platform, and of the library [strings.Split], [strings.Fields],
    [filepath.Base] and the rendering of [%d]. *)
Context (pf : Platform).
Context (Split : string → string → list string).
Context (Fields : string → list string).
Context (Base : string → string).
Context (Itoa : Z → string).

(** Go's [a / b] on [int], which panics when [b] is zero. *)
Definition div (a b : Z) : outcome Z :=
  match GoInt.quo a b with
  | Some q => Ret q
  | None => Panic
  end.

(** [getFanRPMDirect]: the loop over [fanPaths]. *)
Fixpoint getFanRPMDirect (fanPaths : list string) (fanIndex : Z) : M Z :=
  match fanPaths with
  | [] => ret 0
  | fanPath :: rest =>
      let baseName := Base fanPath in
      if String.prefix ("fan" +:+ Itoa (GoInt.add fanIndex 1) +:+ "_")
           baseName
      then
        data <- ioutil_ReadFile pf fanPath;
        match data with
        | None => getFanRPMDirect rest fanIndex
        | Some data =>
            match Atoi pf (TrimSpace pf data) with
            | None => getFanRPMDirect rest fanIndex
            | Some rpm => ret rpm
            end
        end
      else getFanRPMDirect rest fanIndex
  end.

(** The estimate of the maximal RPM, made when both values are above
    zero. *)
Definition estimate (fan : Info) : M Info :=
  if (0 <? RPM fan) && (0 <? Speed fan) then
    estimatedMaxRPM <- lift (div (GoInt.mul (RPM fan) 100) (Speed fan));
    ret (mkInfo (Name fan) (RPM fan) (Speed fan) estimatedMaxRPM)
  else ret fan.

(** The body of the loop over the lines of the [sensors] output. *)
Definition sensors_line (pwmPaths : list string) (line : string)
    (fans : list Info) (fanIndex : Z) : M (list Info * Z) :=
  let line := TrimSpace pf line in
  if Contains line "fan" && Contains line "RPM" then
    let parts := Fields line in
    if (2 <=? length parts)%nat then
      rpmStr <- lift (go_index parts 1);
      match Atoi pf rpmStr with
      | None => ret (fans, fanIndex)
      | Some rpm =>
          name <- lift (go_index parts 0);
          let fan := mkInfo name rpm 0 0 in
          fan <- (if fanIndex <? Z.of_nat (length pwmPaths) then
                    pwmPath <- lift (go_index pwmPaths fanIndex);
                    speed <- getPWMSpeedPercent pf pwmPath;
                    let fan := if 0 <=? speed
                               then mkInfo name rpm speed 0 else fan in
                    estimate fan
                  else ret fan);
          ret (fans ++ [fan], GoInt.add fanIndex 1)
      end
    else ret (fans, fanIndex)
  else ret (fans, fanIndex).

Fixpoint sensors_loop (pwmPaths : list string) (lines : list string)
    (fans : list Info) (fanIndex : Z) : M (list Info) :=
  match lines with
  | [] => ret fans
  | line :: rest =>
      st <- sensors_line pwmPaths line fans fanIndex;
      sensors_loop pwmPaths rest st.1 st.2
  end.

(** The loop over the PWM paths, taken when [sensors] gave no fan. *)
Fixpoint pwm_loop (fanPaths : list string) (pwmPaths : list string)
    (i : Z) (fans : list Info) : M (list Info) :=
  match pwmPaths with
  | [] => ret fans
  | pwmPath :: rest =>
      let pwmName := Base pwmPath in
      speed <- getPWMSpeedPercent pf pwmPath;
      rpm <- getFanRPMDirect fanPaths i;
      let fan := mkInfo (pwmName +:+ " (ID:" +:+ Itoa i +:+ ")") rpm speed 0
      in
      fan <- estimate fan;
      pwm_loop fanPaths rest (GoInt.add i 1) (fans ++ [fan])
  end.

(** [GetFans]; [sensors] is the output of the [sensors] command
    ([None]: the command fails), [fanPaths] the discovered fan input
    files.  It returns no error. *)
Definition GetFans (fanPaths : list string) (sensors : option string)
    : M (list Info) :=
  c <- get;
  fans <- match sensors with
          | Some output =>
              sensors_loop (pwmPaths c)
                (Split output (String (ascii_of_nat 10) EmptyString)) [] 0
          | None => ret []
          end;
  if (length fans =? 0)%nat
  then pwm_loop fanPaths (pwmPaths c) 0 fans
  else ret fans.

End get_fans.

(** What [GetFans] reports of a fan: either no estimate, or the
    quotient of RPM and speed, both above zero. *)
Definition sound_estimate (fan : Info) : Prop :=
  MaxRPM fan = 0
  ∨ (0 < RPM fan ∧ 0 < Speed fan
     ∧ div (GoInt.mul (RPM fan) 100) (Speed fan) = Ret (MaxRPM fan)).

(** A computation that returns in every state, having only read. *)
Definition reads_only {A} (m : M A) (P : A → Prop) : Prop :=
  ∀ c, ∃ a c' evs,
    m c = (Ret a, c') ∧ same_control c c' ∧ logged c c' evs
    ∧ no_writes evs ∧ P a.

End Monitoring.

(** ** Package overclock *)

Module overclock.

(** [VoltageOffset] is a [float64]; it is modelled as the rational it
    denotes (a decoded JSON number is never NaN or infinite), on which
    the comparisons with the constants are exact. *)
Record Settings : Type := mkSettings {
  DeviceID : Z;
  CoreClockOffset : Z;
  MemoryClockOffset : Z;
  PowerLimit : Z;
  TempLimit : Z;
  FanSpeed : Z;
  VoltageOffset : Q
}.

(** The field [Settings *Settings] of the source; [None] is [nil]. *)
Record Profile : Type := mkProfile {
  Name : string;
  ProfileSettings : option Settings
}.

Inductive apply_failure : Type :=
  | NvidiaPowerLimitFailed    (* failed to set NVIDIA power limit *)
  | ClockOffsetNeedsTools     (* clock offset adjustment requires ... *)
  | VoltageOffsetNeedsTools   (* voltage offset adjustment requires ... *)
  | FanSpeedNeedsTools        (* fan speed control requires ... *).

Inductive error : Type :=
  | ErrSettingsNil            (* settings cannot be nil *)
  | ErrCoreClockOffset        (* core clock offset must be between ... *)
  | ErrMemoryClockOffset      (* memory clock offset must be between ... *)
  | ErrPowerLimit             (* power limit must be between 50% and 150% *)
  | ErrTempLimit              (* temperature limit must be between ... *)
  | ErrFanSpeed               (* fan speed must be between 0% and 100% *)
  | ErrVoltageOffset          (* voltage offset must be between ... *)
  | ErrInvalidSettings (cause : error)         (* invalid settings: %w *)
  | ErrInvalidProfileSettings (cause : error)  (* invalid profile settings *)
  | ErrProfileNameEmpty       (* profile name cannot be empty *)
  | ErrProfileNameReserved    (* profile name '_current' is reserved *)
  | ErrMarshalSettings        (* failed to marshal settings *)
  | ErrSaveCurrentSettings    (* failed to save current settings *)
  | ErrMarshalProfile         (* failed to marshal profile *)
  | ErrSaveProfile            (* failed to save profile *)
  | ErrDetectVendor           (* failed to detect GPU vendor *)
  | ErrUnsupportedVendor      (* unsupported GPU vendor *)
  | ErrApply (failures : list apply_failure)   (* the joined messages *)
  | ErrCreateConfig           (* failed to create OverdriveNTool config *)
  | ErrApplyAMD               (* failed to apply AMD settings *).

(** The error taxonomy of the specification (section 7). *)
Inductive error_kind : Type :=
  | ValidationError
  | UnsupportedError
  | OtherError.

Fixpoint kind_of (e : error) : error_kind :=
  match e with
  | ErrSettingsNil | ErrCoreClockOffset | ErrMemoryClockOffset
  | ErrPowerLimit | ErrTempLimit | ErrFanSpeed | ErrVoltageOffset
  | ErrProfileNameEmpty | ErrProfileNameReserved => ValidationError
  | ErrInvalidSettings cause | ErrInvalidProfileSettings cause =>
      kind_of cause
  | ErrUnsupportedVendor => UnsupportedError
  | _ => OtherError
  end.

(** [a < b] on [float64] values. *)
Definition flt (a b : Q) : bool := negb (Qle_bool b a).

Definition of_int (z : Z) : Q := inject_Z z.

(** *** validateSettings, as the Linux controller has it *)
Module Linux.

Definition validateSettings (settings : option Settings) : option error :=
  match settings with
  | None => Some ErrSettingsNil
  | Some s =>
      if (CoreClockOffset s <? -500) || (500 <? CoreClockOffset s)
      then Some ErrCoreClockOffset
      else if (MemoryClockOffset s <? -1000)
              || (1000 <? MemoryClockOffset s)
      then Some ErrMemoryClockOffset
      else if (PowerLimit s <? 50) || (150 <? PowerLimit s)
      then Some ErrPowerLimit
      else if (TempLimit s <? 60) || (95 <? TempLimit s)
      then Some ErrTempLimit
      else if (FanSpeed s <? 0) || (100 <? FanSpeed s)
      then Some ErrFanSpeed
      else if flt (VoltageOffset s) (of_int (-100))
              || flt (of_int 100) (VoltageOffset s)
      then Some ErrVoltageOffset
      else None
  end.

End Linux.

(** *** validateSettings, as the Windows controller has it *)
Module Windows.

Definition validateSettings (settings : option Settings) : option error :=
  match settings with
  | None => Some ErrSettingsNil
  | Some s =>
      if negb (CoreClockOffset s =? 0)
         && ((CoreClockOffset s <? -500) || (500 <? CoreClockOffset s))
      then Some ErrCoreClockOffset
      else if negb (MemoryClockOffset s =? 0)
              && ((MemoryClockOffset s <? -1000)
                  || (1000 <? MemoryClockOffset s))
      then Some ErrMemoryClockOffset
      else if negb (PowerLimit s =? 0)
              && ((PowerLimit s <? 50) || (150 <? PowerLimit s))
      then Some ErrPowerLimit
      else if negb (TempLimit s =? 0)
              && ((TempLimit s <? 60) || (95 <? TempLimit s))
      then Some ErrTempLimit
      else if (FanSpeed s <? 0) || (100 <? FanSpeed s)
      then Some ErrFanSpeed
      else if negb (Qeq_bool (VoltageOffset s) (of_int 0))
              && (flt (VoltageOffset s) (of_int (-100))
                  || flt (of_int 100) (VoltageOffset s))
      then Some ErrVoltageOffset
      else None
  end.

End Windows.

(** *** The profile directory and the vendor tools *)

(** An entry of a directory; a file that cannot be read has no data. *)
Inductive entry : Type :=
  | Directory
  | File (data : option string).

Inductive config_line : Type :=
  | GPU_P7 (v : Z)
  | Mem_P3 (v : Z)
  | Power_Limit (v : Z)
  | Temp_Limit (v : Z)
  | Fan_Min (v : Z)
  | Fan_Max (v : Z)
  | Voltage_GPU (v : Q).

(** What the controller does to the machine, in order.  The temporary
    OverdriveNTool configuration is a file of [profilesDir]:
    [SysWriteConfig] is its writing and [SysRemoveConfig] its removal. *)
Inductive sys_event : Type :=
  | SysWriteFile (name : string) (data : string)
  | SysDetectVendor (deviceID : Z)
  | SysNvidiaSmiPowerLimit (deviceID : Z) (limit : Z)
  | SysWriteConfig (deviceID : Z) (lines : list config_line)
  | SysOverdriveNTool (deviceID : Z)
  | SysRemoveConfig (deviceID : Z).

Inductive vendor_detection : Type :=
  | DetectedNvidia            (* "nvidia", nil *)
  | DetectedAMD               (* "amd", nil *)
  | DetectionFailed           (* "", error *)
  | DetectedUnknown           (* "unknown", error *).

(** **** Paths

    Every file the controller touches is named
    [filepath.Join(c.profilesDir, name)], and [Join] cleans the path it
    builds: empty and [.] elements are dropped, and [..] removes the
    element before it.  So a [name] with separators need not denote an
    entry of [profilesDir]: it may lead into a subdirectory, out of the
    directory, or back to an entry of another name. *)

(** [os.IsPathSeparator]: the slash, and on Windows the backslash. *)
Definition is_separator (windows : bool) (ch : ascii) : bool :=
  Ascii.eqb ch "/" || (windows && Ascii.eqb ch "\").

Fixpoint separator_free (windows : bool) (s : string) : bool :=
  match s with
  | EmptyString => true
  | String ch rest =>
      negb (is_separator windows ch) && separator_free windows rest
  end.

(** The elements of a path: what lies between its separators. *)
Fixpoint elements (windows : bool) (path : string) : list string :=
  match path with
  | EmptyString => [EmptyString]
  | String ch rest =>
      if is_separator windows ch
      then EmptyString :: elements windows rest
      else match elements windows rest with
           | element :: others => String ch element :: others
           | [] => [String ch EmptyString]
           end
  end.

(** One step of [filepath.Clean]; [stack] holds the elements kept so
    far, the last one first.  A [..] that has nothing to remove is
    dropped at the root of a rooted path and kept in a relative one. *)
Definition clean_step (rooted : bool) (stack : list string)
    (element : string) : list string :=
  if String.eqb element "" || String.eqb element "." then stack
  else if String.eqb element ".." then
    match stack with
    | top :: below =>
        if String.eqb top ".." then element :: stack else below
    | [] => if rooted then [] else [element]
    end
  else element :: stack.

(** Where a path leads: to the entry [name] of [profilesDir], or to the
    file with the given cleaned elements somewhere else. *)
Inductive place : Type :=
  | InDirectory (name : string)
  | Elsewhere (path : list string).

(** What lies outside the repository: [encoding/json], the answers of
    the file system and of the vendor tools, which may depend on what
    was done before, the platform's path separators, the controller's
    [profilesDir] as [filepath.Join] has left it in
    [newPlatformController] (whether it is rooted, and its elements),
    and the text [fmt.Sprintf] and [strings.Join] make of the lines of
    an OverdriveNTool configuration. *)
Record Host : Type := mkHost {
  MarshalIndent : Profile → option string;
  Unmarshal : string → option Profile;
  write_ok : list sys_event → string → string → bool;
  detect_vendor : list sys_event → Z → vendor_detection;
  tool_ok : list sys_event → sys_event → bool;
  windows : bool;
  rooted : bool;
  profilesDir : list string;
  config_text : list config_line → string
}.

(** [filepath.Join(c.profilesDir, path)], as the place it denotes.
    Paths are compared as [Clean] leaves them: two cleaned paths that
    differ are taken to denote different files (no links, and names
    differing in case are different names). *)
Definition locate (h : Host) (path : string) : place :=
  let directory := rev (profilesDir h) in
  match fold_left (clean_step (rooted h)) (elements (windows h) path)
          directory with
  | name :: below =>
      if bool_decide (below = directory) && negb (String.eqb name "..")
      then InDirectory name
      else Elsewhere (rev (name :: below))
  | [] => Elsewhere []
  end.

(** The entries of [profilesDir] ([None]: it does not exist), the files
    the controller has put elsewhere, by their cleaned paths, and the
    log of what was done. *)
Record Machine : Type := mkMachine {
  dir : option (gmap string entry);
  outside : gmap (list string) entry;
  log : list sys_event
}.

Section controller.
Context (h : Host).

(** The writing of [data] to the file [filepath.Join(profilesDir, path)],
    logged as [ev]; [ok] is the file system's answer.  Nothing can be
    written where a directory is.  Whether the directories on the way to
    a file elsewhere exist is part of the answer. *)
Definition put (path data : string) (ev : sys_event) (ok : bool)
    (m : Machine) : bool * Machine :=
  let log' := log m ++ [ev] in
  match locate h path with
  | InDirectory name =>
      match dir m with
      | None => (false, mkMachine None (outside m) log')
      | Some d =>
          match d !! name with
          | Some Directory => (false, mkMachine (Some d) (outside m) log')
          | _ =>
              if ok
              then (true,
                    mkMachine (Some (<[name := File (Some data)]> d))
                      (outside m) log')
              else (false, mkMachine (Some d) (outside m) log')
          end
      end
  | Elsewhere file =>
      match outside m !! file with
      | Some Directory => (false, mkMachine (dir m) (outside m) log')
      | _ =>
          if ok
          then (true,
                mkMachine (dir m) (<[file := File (Some data)]> (outside m))
                  log')
          else (false, mkMachine (dir m) (outside m) log')
      end
  end.

(** [ioutil.WriteFile(filepath.Join(c.profilesDir, name), data, 0644)]. *)
Definition WriteFile (name data : string) (m : Machine) : bool * Machine :=
  put name data (SysWriteFile name data) (write_ok h (log m) name data) m.

(** [os.Remove(filepath.Join(c.profilesDir, path))], logged as [ev];
    [ok] is the file system's answer. *)
Definition remove (path : string) (ev : sys_event) (ok : bool)
    (m : Machine) : Machine :=
  let log' := log m ++ [ev] in
  if ok then
    match locate h path with
    | InDirectory name => mkMachine (delete name <$> dir m) (outside m) log'
    | Elsewhere file => mkMachine (dir m) (delete file (outside m)) log'
    end
  else mkMachine (dir m) (outside m) log'.

(** The contents of the entry [name] of [profilesDir]. *)
Definition ReadFile (name : string) (m : Machine) : option string :=
  match dir m with
  | None => None
  | Some d =>
      match d !! name with
      | Some (File data) => data
      | _ => None
      end
  end.

(** [ioutil.ReadFile(filepath.Join(c.profilesDir, path))]. *)
Definition read_path (path : string) (m : Machine) : option string :=
  match locate h path with
  | InDirectory name => ReadFile name m
  | Elsewhere file =>
      match outside m !! file with
      | Some (File data) => data
      | _ => None
      end
  end.

(** The loop body of [GetProfiles] for one directory entry. *)
Definition read_profile (name : string) (ent : entry) : option Profile :=
  match ent with
  | Directory => None
  | File data =>
      if String.eqb (Ext name) ".json"
         && negb (String.eqb name "_current.json")
      then
        match data with
        | None => None
        | Some data => Unmarshal h data
        end
      else None
  end.

(** [GetProfiles]; it never fails.  The entries are visited in the
    enumeration order of the map, [ioutil.ReadDir] sorts them by file
    name. *)
Definition GetProfiles (m : Machine) : list Profile :=
  match dir m with
  | None => []
  | Some d => omap (λ ne, read_profile ne.1 ne.2) (map_to_list d)
  end.

(** [SaveProfile], over either platform's [validateSettings]. *)
Definition SaveProfile (validateSettings : option Settings → option error)
    (profile : Profile) (m : Machine) : option error * Machine :=
  if String.eqb (Name profile) "" then (Some ErrProfileNameEmpty, m)
  else if String.eqb (Name profile) "_current"
  then (Some ErrProfileNameReserved, m)
  else
    match validateSettings (ProfileSettings profile) with
    | Some err => (Some (ErrInvalidProfileSettings err), m)
    | None =>
        match MarshalIndent h profile with
        | None => (Some ErrMarshalProfile, m)
        | Some data =>
            let '(ok, m') := WriteFile (Name profile +:+ ".json") data m in
            if ok then (None, m') else (Some ErrSaveProfile, m')
        end
    end.

(** The tail shared by both [SetSettings]: the snapshot of the
    settings under the reserved name. *)
Definition save_current (settings : option Settings) (m : Machine)
    : option error * Machine :=
  match MarshalIndent h (mkProfile "_current" settings) with
  | None => (Some ErrMarshalSettings, m)
  | Some data =>
      let '(ok, m') := WriteFile "_current.json" data m in
      if ok then (None, m') else (Some ErrSaveCurrentSettings, m')
  end.

Definition Linux_SetSettings (settings : option Settings) (m : Machine)
    : option error * Machine :=
  match Linux.validateSettings settings with
  | Some err => (Some (ErrInvalidSettings err), m)
  | None => save_current settings m
  end.

Definition record (ev : sys_event) (m : Machine) : Machine :=
  mkMachine (dir m) (outside m) (log m ++ [ev]).

Definition detectGPUVendor (deviceID : Z) (m : Machine)
    : vendor_detection * Machine :=
  (detect_vendor h (log m) deviceID, record (SysDetectVendor deviceID) m).

Definition run_tool (ev : sys_event) (m : Machine) : bool * Machine :=
  (tool_ok h (log m) ev, record ev m).

Definition setNvidiaSettings (s : Settings) (m : Machine)
    : option error * Machine :=
  let '(errors, m1) :=
    if 0 <? PowerLimit s then
      let '(ok, m1) :=
        run_tool (SysNvidiaSmiPowerLimit (DeviceID s) (PowerLimit s)) m in
      (if ok then [] else [NvidiaPowerLimitFailed], m1)
    else ([], m) in
  let errors :=
    if negb (CoreClockOffset s =? 0) || negb (MemoryClockOffset s =? 0)
    then errors ++ [ClockOffsetNeedsTools] else errors in
  let errors :=
    if negb (Qeq_bool (VoltageOffset s) (of_int 0))
    then errors ++ [VoltageOffsetNeedsTools] else errors in
  let errors :=
    if 0 <? FanSpeed s then errors ++ [FanSpeedNeedsTools] else errors in
  match errors with
  | [] => (None, m1)
  | _ => (Some (ErrApply errors), m1)
  end.

Definition amd_config (s : Settings) : list config_line :=
  (if negb (CoreClockOffset s =? 0) then [GPU_P7 (CoreClockOffset s)]
   else [])
  ++ (if negb (MemoryClockOffset s =? 0)
      then [Mem_P3 (MemoryClockOffset s)] else [])
  ++ (if 0 <? PowerLimit s then [Power_Limit (PowerLimit s)] else [])
  ++ (if 0 <? TempLimit s then [Temp_Limit (TempLimit s)] else [])
  ++ (if 0 <? FanSpeed s
      then [Fan_Min (FanSpeed s); Fan_Max (FanSpeed s)] else [])
  ++ (if negb (Qeq_bool (VoltageOffset s) (of_int 0))
      then [Voltage_GPU (VoltageOffset s)] else []).

(** [fmt.Sprintf("temp_config_%d.txt", settings.DeviceID)]. *)
Definition config_name (s : Settings) : string :=
  "temp_config_" +:+ pretty (DeviceID s) +:+ ".txt".

(** The configuration is written into [profilesDir] with
    [ioutil.WriteFile] and removed with [os.Remove], whose result is
    ignored; [tool_ok] answers for both. *)
Definition setAMDSettings (s : Settings) (m : Machine)
    : option error * Machine :=
  let config := SysWriteConfig (DeviceID s) (amd_config s) in
  let '(ok, m1) :=
    put (config_name s) (config_text h (amd_config s)) config
      (tool_ok h (log m) config) m in
  if negb ok then (Some ErrCreateConfig, m1)
  else
    let '(ok, m2) := run_tool (SysOverdriveNTool (DeviceID s)) m1 in
    let removal := SysRemoveConfig (DeviceID s) in
    let m3 := remove (config_name s) removal (tool_ok h (log m2) removal) m2
    in
    if negb ok then (Some ErrApplyAMD, m3) else (None, m3).

(** [SetSettings] of the Windows controller.  [validateSettings] has
    rejected [nil] before [settings.DeviceID] is read. *)
Definition Windows_SetSettings (settings : option Settings) (m : Machine)
    : option error * Machine :=
  match Windows.validateSettings settings, settings with
  | Some err, _ => (Some (ErrInvalidSettings err), m)
  | None, None => (Some (ErrInvalidSettings ErrSettingsNil), m)
  | None, Some s =>
      let '(vendor, m1) := detectGPUVendor (DeviceID s) m in
      match vendor with
      | DetectionFailed | DetectedUnknown => (Some ErrDetectVendor, m1)
      | DetectedNvidia =>
          match setNvidiaSettings s m1 with
          | (Some err, m2) => (Some err, m2)
          | (None, m2) => save_current settings m2
          end
      | DetectedAMD =>
          match setAMDSettings s m1 with
          | (Some err, m2) => (Some err, m2)
          | (None, m2) => save_current settings m2
          end
      end
  end.

End controller.

(** *** Stores and records used in the properties *)

(** The closed range [lo, hi]. *)
Definition within (lo hi v : Z) : Prop := lo ≤ v ≤ hi.

(** The record in which every field holds its sentinel. *)
Definition no_change : Settings := mkSettings 0 0 0 0 0 0 (of_int 0).

(** Decoding never turns another name into the reserved one: what
    decodes to a profile named [_current] was encoded from a profile of
    that name. *)
Definition json_keeps_reserved (h : Host) : Prop :=
  ∀ p data p',
    MarshalIndent h p = Some data → Unmarshal h data = Some p' →
    Name p' = "_current" → Name p = "_current".

(** No profile of the listing bears the reserved name. *)
Definition lists_no_reserved (h : Host) (m : Machine) : Prop :=
  ∀ p, p ∈ GetProfiles h m → Name p ≠ "_current".

(** The entries [GetProfiles] passes over, whatever they hold. *)
Definition unlisted (h : Host) (name : string) : Prop :=
  ∀ ent, read_profile h name ent = None.


(** The store without its reserved entry. *)
Definition without_current (m : Machine) : Machine :=
  mkMachine (delete "_current.json" <$> dir m) (outside m) (log m).

(** A Linux host whose JSON is the profile's name alone and on which
    every write and every tool succeeds; its [profilesDir] is
    [/home/user/.config/picohwmon/profiles]. *)
Definition plain_host : Host :=
  mkHost (λ p, Some (Name p)) (λ data, Some (mkProfile data None))
    (λ _ _ _, true) (λ _ _, DetectedNvidia) (λ _ _, true)
    false true ["home"; "user"; ".config"; "picohwmon"; "profiles"]
    (λ _, EmptyString).

Definition two_profiles : Machine :=
  mkMachine
    (Some (<["_current.json" := File (Some "_current")]>
             (<["quiet.json" := File (Some "quiet")]> ∅)))
    ∅ [].

(** *** Reading the defaults and loading a profile *)

(** [GetSettings] of the Linux controller: fixed defaults. *)
Definition Linux_GetSettings (deviceID : Z) : Settings :=
  mkSettings deviceID 0 0 100 83 0 (of_int 0).

Inductive load_error : Type :=
  | ErrLoadNameEmpty          (* profile name cannot be empty *)
  | ErrReadProfile            (* failed to read profile *)
  | ErrParseProfile           (* failed to parse profile *)
  | ErrLoadApply (cause : error)  (* the error of SetSettings, as it is *).

(** [LoadProfile], over either platform's [SetSettings]. *)
Definition LoadProfile (h : Host)
    (SetSettings : option Settings → Machine → option error * Machine)
    (profileName : string) (m : Machine) : option load_error * Machine :=
  if String.eqb profileName "" then (Some ErrLoadNameEmpty, m)
  else
    match read_path h (profileName +:+ ".json") m with
    | None => (Some ErrReadProfile, m)
    | Some data =>
        match Unmarshal h data with
        | None => (Some ErrParseProfile, m)
        | Some profile =>
            match SetSettings (ProfileSettings profile) m with
            | (Some err, m') => (Some (ErrLoadApply err), m')
            | (None, m') => (None, m')
            end
        end
    end.

(** A host whose JSON carries the profile's name, every profile holding
    the default settings of device 0; every write and tool succeeds. *)
Definition stock_host : Host :=
  mkHost (λ p, Some (Name p))
    (λ data, Some (mkProfile data (Some (Linux_GetSettings 0))))
    (λ _ _ _, true) (λ _ _, DetectedNvidia) (λ _ _, true)
    false true ["home"; "user"; ".config"; "picohwmon"; "profiles"]
    (λ _, EmptyString).

Definition empty_store : Machine := mkMachine (Some ∅) ∅ [].

(** *** The operations of the controller *)

(** A call of one of the methods that write, on the Linux or on the
    Windows controller. *)
Inductive operation : Type :=
  | OpSaveProfile (windows_controller : bool) (profile : Profile)
  | OpSetSettings (windows_controller : bool) (settings : option Settings)
  | OpLoadProfile (windows_controller : bool) (profileName : string).

Definition validateSettings_of (windows_controller : bool)
    : option Settings → option error :=
  if windows_controller then Windows.validateSettings
  else Linux.validateSettings.

Definition SetSettings_of (h : Host) (windows_controller : bool)
    : option Settings → Machine → option error * Machine :=
  if windows_controller then Windows_SetSettings h else Linux_SetSettings h.

(** The machine after a call. *)
Definition perform (h : Host) (m : Machine) (op : operation) : Machine :=
  match op with
  | OpSaveProfile w profile =>
      (SaveProfile h (validateSettings_of w) profile m).2
  | OpSetSettings w settings => (SetSettings_of h w settings m).2
  | OpLoadProfile w profileName =>
      (LoadProfile h (SetSettings_of h w) profileName m).2
  end.

Definition perform_all (h : Host) (ops : list operation) (m : Machine)
    : Machine :=
  fold_left (perform h) ops m.

(** A directory in which a file of another name holds a profile named
    [_current]. *)
Definition aliased_store : Machine :=
  mkMachine (Some (<["backup.json" := File (Some "_current")]> ∅)) ∅ [].

End overclock.

(** ** Package gpu *)

Module gpu.

Inductive Vendor : Type := NVIDIA | AMD | Intel | Unknown.

Record OverclockSettings : Type := mkOverclockSettings {
  CoreClockOffset : Z;
  MemoryClockOffset : Z;
  PowerLimit : Z;
  FanSpeed : Z
}.

(** The entries of the three lists of a result; one constructor stands
    for each [fmt.Sprintf] format of the source. *)
Inductive message : Type :=
  | CoreOffsetFailed (err : string)   (* failed to set core clock offset *)
  | CoreOffsetApplied (v : Z)         (* core clock offset: %+d MHz *)
  | MemoryOffsetFailed (err : string)
  | MemoryOffsetApplied (v : Z)
  | PowerLimitNeedsRoot (v : Z)  (* power limit setting requires root ... *)
  | PowerLimitFailed (err : string)   (* failed to set power limit *)
  | PowerLimitApplied (v : Z)         (* power limit: %d%% *)
  | FanSpeedFailed (err : string)     (* failed to set fan speed *)
  | FanSpeedApplied (v : Z)           (* fan speed: %d%% *)
  | ManualLevelFailed (err : string)
  | ManualLevelEnabled              (* enabled manual performance mode *)
  | GpuStateFailed (err : string)
  | GpuStateSet (state : string)
  | MemoryStateFailed (err : string)
  | MemoryStateSet (state : string)
  | AMDPowerLimitNeedsTools
  | ManualFanFailed (err : string)
  | AMDNeedsRoot
  | ControllerError (err : overclock.error)   (* err.Error() *)
  | NvidiaNeedsTools.

Record OverclockResult : Type := mkResult {
  Success : bool;
  Applied : list message;
  Warnings : list message;
  Errors : list message
}.

Inductive error : Type :=
  | ErrDeviceNotFound (deviceID : Z)     (* GPU device %d not found *)
  | ErrCardNotFound (deviceID : Z)       (* AMD GPU card%d not found *)
  | ErrVendorUnsupported (v : Vendor)    (* overclocking not supported *).

(** [result.Applied = append(result.Applied, msg)] and its like.  Every
    append to [Errors] in the source is followed by
    [result.Success = false]. *)
Definition add_applied (msg : message) (r : OverclockResult) : OverclockResult :=
  mkResult (Success r) (Applied r ++ [msg]) (Warnings r) (Errors r).

Definition add_warning (msg : message) (r : OverclockResult) : OverclockResult :=
  mkResult (Success r) (Applied r) (Warnings r ++ [msg]) (Errors r).

Definition add_error (msg : message) (r : OverclockResult) : OverclockResult :=
  mkResult false (Applied r) (Warnings r) (Errors r ++ [msg]).

Definition new_result : OverclockResult := mkResult true [] [] [].

(** *** The Linux reader *)

Inductive payload : Type :=
  | Text (s : string)
  | Decimal (z : Z).

(** Invocations of the vendor tools and writes to sysfs. *)
Inductive call : Type :=
  | NvidiaSmiQuery (deviceID : Z)                 (* nvidia-smi -i N *)
  | SetGraphicsClockOffset (deviceID : Z) (v : Z) (* nvidia-settings -a *)
  | SetMemoryTransferRateOffset (deviceID : Z) (v : Z)
  | NvidiaSmiPowerLimit (deviceID : Z) (v : Z)    (* nvidia-smi -pl *)
  | SetTargetFanSpeed (deviceID : Z) (v : Z)
  | SysfsWrite (path : string) (data : payload).

(** What lies outside [SetOverclockSettings]: [GetInfo] as the list of
    vendors it found ([None]: it failed), the outcome of each call
    ([None]: success, [Some msg]: an error with that text), the sysfs
    lookups and the string functions of the library. *)
Record LinuxHost : Type := mkLinuxHost {
  GetInfo : option (list Vendor);
  call_error : list call → call → option string;
  findAMDCardPath : Z → string;
  findAMDHwmonPath : string → string;
  fileExists : list call → string → bool;
  ReadFile : list call → string → option string;
  Join : string → string → string;
  Split : string → string → list string;
  TrimSpace : string → string;
  Fields : string → list string
}.

Section linux.
Context (h : LinuxHost).

(** A result under construction together with the calls made. *)
Definition progress : Type := OverclockResult * list call.

Definition invoke (c : call) (calls : list call) : option string * list call :=
  (call_error h calls c, calls ++ [c]).

(** A call whose failure is an error and whose success is applied. *)
Definition attempt (c : call) (failed : string → message)
    (applied : message) (p : progress) : progress :=
  match invoke c p.2 with
  | (Some err, calls) => (add_error (failed err) p.1, calls)
  | (None, calls) => (add_applied applied p.1, calls)
  end.

(** A call whose failure is only a warning. *)
Definition attempt_soft (c : call) (failed : string → message)
    (applied : message) (p : progress) : progress :=
  match invoke c p.2 with
  | (Some err, calls) => (add_warning (failed err) p.1, calls)
  | (None, calls) => (add_applied applied p.1, calls)
  end.

Definition power_limit_warning (limit : Z) (err : string) : message :=
  if Contains err "Insufficient permissions"
     || Contains err "permission denied"
     || Contains err "Operation not permitted"
  then PowerLimitNeedsRoot limit
  else PowerLimitFailed err.

Definition nvidia_core (deviceID : Z) (s : OverclockSettings)
    (p : progress) : progress :=
  if negb (CoreClockOffset s =? 0)
  then attempt (SetGraphicsClockOffset deviceID (CoreClockOffset s))
         CoreOffsetFailed (CoreOffsetApplied (CoreClockOffset s)) p
  else p.

Definition nvidia_memory (deviceID : Z) (s : OverclockSettings)
    (p : progress) : progress :=
  if negb (MemoryClockOffset s =? 0)
  then attempt (SetMemoryTransferRateOffset deviceID (MemoryClockOffset s))
         MemoryOffsetFailed (MemoryOffsetApplied (MemoryClockOffset s)) p
  else p.

Definition nvidia_power (deviceID : Z) (s : OverclockSettings)
    (p : progress) : progress :=
  if 0 <? PowerLimit s
  then attempt_soft (NvidiaSmiPowerLimit deviceID (PowerLimit s))
         (power_limit_warning (PowerLimit s))
         (PowerLimitApplied (PowerLimit s)) p
  else p.

Definition nvidia_fan (deviceID : Z) (s : OverclockSettings)
    (p : progress) : progress :=
  if 0 <? FanSpeed s
  then attempt (SetTargetFanSpeed deviceID (FanSpeed s))
         FanSpeedFailed (FanSpeedApplied (FanSpeed s)) p
  else p.

(** The closing [if len(result.Errors) == 0 && len(result.Warnings) > 0]. *)
Definition partial_success (r : OverclockResult) : OverclockResult :=
  if (length (Errors r) =? 0)%nat && (0 <? length (Warnings r))%nat
  then mkResult true (Applied r) (Warnings r) (Errors r)
  else r.

Definition setNvidiaOverclockSettings (deviceID : Z)
    (settings : OverclockSettings) (calls : list call)
    : (OverclockResult + error) * list call :=
  match invoke (NvidiaSmiQuery deviceID) calls with
  | (Some _, calls) => (inr (ErrDeviceNotFound deviceID), calls)
  | (None, calls) =>
      let p := nvidia_fan deviceID settings
                 (nvidia_power deviceID settings
                    (nvidia_memory deviceID settings
                       (nvidia_core deviceID settings
                          (new_result, calls)))) in
      (inl (partial_success p.1), p.2)
  end.

(** The scan for the last state line that is not the current one. *)
Definition max_state (data : string) : string :=
  fold_left
    (λ maxState line,
       if negb (String.eqb (TrimSpace h line) "")
          && negb (Contains line "*")
       then match Fields h line with
            | part :: _ => part
            | [] => maxState
            end
       else maxState)
    (Split h data (String (ascii_of_nat 10) EmptyString)) EmptyString.

Definition amd_manual_level (cardPath : string) (p : progress) : progress :=
  let perfLevelPath :=
    Join h cardPath "power_dpm_force_performance_level" in
  if fileExists h p.2 perfLevelPath
  then attempt_soft (SysfsWrite perfLevelPath (Text "manual"))
         ManualLevelFailed ManualLevelEnabled p
  else p.

(** The clock blocks; [file] is [pp_dpm_sclk] or [pp_dpm_mclk]. *)
Definition amd_clock (requested : Z) (file : string)
    (failed : string → message) (applied : string → message)
    (cardPath : string) (p : progress) : progress :=
  if negb (requested =? 0) then
    let path := Join h cardPath file in
    if fileExists h p.2 path then
      match ReadFile h p.2 path with
      | Some data =>
          let maxState := max_state data in
          if negb (String.eqb maxState "")
          then attempt_soft (SysfsWrite path (Text maxState))
                 failed (applied maxState) p
          else p
      | None => p
      end
    else p
  else p.

Definition amd_power (s : OverclockSettings) (p : progress) : progress :=
  if (0 <? PowerLimit s) && negb (PowerLimit s =? 100)
  then (add_warning AMDPowerLimitNeedsTools p.1, p.2)
  else p.

Definition amd_fan (s : OverclockSettings) (cardPath : string)
    (p : progress) : progress :=
  if 0 <? FanSpeed s then
    let hwmonPath := findAMDHwmonPath h cardPath in
    if negb (String.eqb hwmonPath "") then
      let pwm1Path := Join h hwmonPath "pwm1" in
      let pwm1EnablePath := Join h hwmonPath "pwm1_enable" in
      if fileExists h p.2 pwm1Path && fileExists h p.2 pwm1EnablePath then
        match invoke (SysfsWrite pwm1EnablePath (Text "1")) p.2 with
        | (Some err, calls) => (add_warning (ManualFanFailed err) p.1, calls)
        | (None, calls) =>
            let pwmVal := GoInt.mul (FanSpeed s) 255 ÷ 100 in
            attempt_soft (SysfsWrite pwm1Path (Decimal pwmVal))
              FanSpeedFailed (FanSpeedApplied (FanSpeed s)) (p.1, calls)
        end
      else p
    else p
  else p.

Definition amd_closing (r : OverclockResult) : OverclockResult :=
  if (length (Applied r) =? 0)%nat && (0 <? length (Warnings r))%nat
  then add_warning AMDNeedsRoot r
  else r.

Definition setAMDOverclockSettings (deviceID : Z)
    (settings : OverclockSettings) (calls : list call)
    : (OverclockResult + error) * list call :=
  let cardPath := findAMDCardPath h deviceID in
  if String.eqb cardPath "" then (inr (ErrCardNotFound deviceID), calls)
  else
    let p := amd_fan settings cardPath
               (amd_power settings
                  (amd_clock (MemoryClockOffset settings) "pp_dpm_mclk"
                     MemoryStateFailed MemoryStateSet cardPath
                     (amd_clock (CoreClockOffset settings) "pp_dpm_sclk"
                        GpuStateFailed GpuStateSet cardPath
                        (amd_manual_level cardPath (new_result, calls))))) in
    (inl (amd_closing p.1), p.2).

(** [SetOverclockSettings]: [gpus[deviceID]] panics on a negative
    [deviceID]. *)
Definition SetOverclockSettings (deviceID : Z)
    (settings : OverclockSettings) (calls : list call)
    : outcome (OverclockResult + error) * list call :=
  match GetInfo h with
  | None => (Ret (inr (ErrDeviceNotFound deviceID)), calls)
  | Some gpus =>
      if Z.of_nat (length gpus) <=? deviceID
      then (Ret (inr (ErrDeviceNotFound deviceID)), calls)
      else
        match go_index gpus deviceID with
        | Panic => (Panic, calls)
        | Ret NVIDIA =>
            let '(r, calls) :=
              setNvidiaOverclockSettings deviceID settings calls in
            (Ret r, calls)
        | Ret AMD =>
            let '(r, calls) :=
              setAMDOverclockSettings deviceID settings calls in
            (Ret r, calls)
        | Ret v => (Ret (inr (ErrVendorUnsupported v)), calls)
        end
  end.

End linux.

(** *** The Windows reader *)

Section windows.
Context (h : overclock.Host).
(** The reader's own [detectGPUVendor], asked for the warnings: does
    it answer "nvidia"? *)
Context (reader_detects_nvidia : list overclock.sys_event → Z → bool).

Definition to_controller_settings (deviceID : Z) (s : OverclockSettings)
    : overclock.Settings :=
  overclock.mkSettings deviceID (CoreClockOffset s) (MemoryClockOffset s)
    (PowerLimit s) 83 (FanSpeed s) (overclock.of_int 0).

Definition applied_list (s : OverclockSettings) : list message :=
  (if negb (CoreClockOffset s =? 0)
   then [CoreOffsetApplied (CoreClockOffset s)] else [])
  ++ (if negb (MemoryClockOffset s =? 0)
      then [MemoryOffsetApplied (MemoryClockOffset s)] else [])
  ++ (if 0 <? PowerLimit s then [PowerLimitApplied (PowerLimit s)] else [])
  ++ (if 0 <? FanSpeed s then [FanSpeedApplied (FanSpeed s)] else []).

Definition Windows_SetOverclockSettings (deviceID : Z)
    (settings : OverclockSettings) (m : overclock.Machine)
    : OverclockResult * overclock.Machine :=
  match overclock.Windows_SetSettings h
          (Some (to_controller_settings deviceID settings)) m with
  | (Some err, m1) => (mkResult false [] [] [ControllerError err], m1)
  | (None, m1) =>
      let nvidia := reader_detects_nvidia (overclock.log m1) deviceID in
      let m2 := overclock.record (overclock.SysDetectVendor deviceID) m1 in
      let warnings :=
        if nvidia
           && (negb (CoreClockOffset settings =? 0)
               || negb (MemoryClockOffset settings =? 0)
               || (0 <? FanSpeed settings))
        then [NvidiaNeedsTools] else [] in
      (mkResult true (applied_list settings) warnings [], m2)
  end.

End windows.

(** *** Hosts and requests used as examples *)

(** A Linux host with one NVIDIA device on which every call succeeds. *)
Definition obliging_host : LinuxHost :=
  mkLinuxHost (Some [NVIDIA]) (λ _ _, None) (λ _, EmptyString)
    (λ _, EmptyString) (λ _ _, false) (λ _ _, None)
    (λ a b, a +:+ "/" +:+ b) (λ s _, [s]) id (λ s, [s]).

(** The same host, except that [nvidia-smi -pl] is refused for lack of
    privilege. *)
Definition unprivileged_host : LinuxHost :=
  mkLinuxHost (Some [NVIDIA])
    (λ _ c, match c with
            | NvidiaSmiPowerLimit _ _ => Some "Insufficient permissions"
            | _ => None
            end)
    (λ _, EmptyString) (λ _, EmptyString) (λ _ _, false) (λ _ _, None)
    (λ a b, a +:+ "/" +:+ b) (λ s _, [s]) id (λ s, [s]).

(** A core clock offset of 10000 MHz, far outside [-500, 500]. *)
Definition excessive_request : OverclockSettings :=
  mkOverclockSettings 10000 0 0 0.

(** Core and memory offsets and a power limit, the fan left alone. *)
Definition three_field_request : OverclockSettings :=
  mkOverclockSettings 100 500 120 0.

(** The invariant of a result: it reports failure exactly when it lists
    an error. *)
Definition success_iff_no_errors (r : OverclockResult) : Prop :=
  Success r = false ↔ Errors r ≠ [].

Definition empty_machine : overclock.Machine :=
  overclock.mkMachine (Some ∅) ∅ [].

(** *** What a request asks for, and what a result reports *)

(** The calls a request asks of the NVIDIA tools, one for each field
    that is configured, in the order of the fields. *)
Definition nvidia_calls (deviceID : Z) (s : OverclockSettings) : list call :=
  (if negb (CoreClockOffset s =? 0)
   then [SetGraphicsClockOffset deviceID (CoreClockOffset s)] else [])
  ++ (if negb (MemoryClockOffset s =? 0)
      then [SetMemoryTransferRateOffset deviceID (MemoryClockOffset s)]
      else [])
  ++ (if 0 <? PowerLimit s
      then [NvidiaSmiPowerLimit deviceID (PowerLimit s)] else [])
  ++ (if 0 <? FanSpeed s
      then [SetTargetFanSpeed deviceID (FanSpeed s)] else []).

(** The number of entries of the three lists of a result. *)
Definition reports (r : OverclockResult) : nat :=
  (length (Applied r) + length (Warnings r) + length (Errors r))%nat.

(** The errors of the NVIDIA path: a clock offset or the fan speed could
    not be set. *)
Definition hard_failure (msg : message) : Prop :=
  ∃ err, msg = CoreOffsetFailed err ∨ msg = MemoryOffsetFailed err
         ∨ msg = FanSpeedFailed err.

Definition is_sysfs_write (c : call) : Prop :=
  ∃ path data, c = SysfsWrite path data.

(** What the stages of the NVIDIA path keep: the calls made so far are
    [made], each has left one entry in the result, and every error is a
    hard failure. *)
Definition nvidia_progress (calls : list call) (made : list call)
    (p : progress) : Prop :=
  p.2 = calls ++ made ∧ reports p.1 = length made
  ∧ Forall hard_failure (Errors p.1).

(** What the stages of the AMD path keep: the result reports success
    without errors and has applied no power limit, and everything done
    was a write to sysfs. *)
Definition amd_progress (calls : list call) (p : progress) : Prop :=
  Success p.1 = true ∧ Errors p.1 = []
  ∧ (∀ v, PowerLimitApplied v ∉ Applied p.1)
  ∧ ∃ writes, p.2 = calls ++ writes ∧ Forall is_sysfs_write writes.

(** The status code of the handler [setGPUOverclock], once the request
    has been parsed, over the Linux reader; a panic of the reader is a
    panic of the handler. *)
Definition setGPUOverclock_status (h : LinuxHost) (deviceID : Z)
    (settings : OverclockSettings) (calls : list call) : outcome Z :=
  match (SetOverclockSettings h deviceID settings calls).1 with
  | Panic => Panic
  | Ret (inr _) => Ret 500
  | Ret (inl result) => if Success result then Ret 200 else Ret 422
  end.

(** A Linux host with one AMD card on which every sysfs file exists and
    every write is refused. *)
Definition refusing_amd_host : LinuxHost :=
  mkLinuxHost (Some [AMD]) (λ _ _, Some "permission denied")
    (λ _, "/sys/class/drm/card0") (λ _, "/sys/class/drm/card0/hwmon0")
    (λ _ _, true) (λ _ _, Some "1: 1000Mhz")
    (λ a b, a +:+ "/" +:+ b) (λ s _, [s]) id (λ s, [s]).

(** *** Device discovery on Linux *)

(** An entry of [/sys/class/drm] with the contents of its
    [device/vendor] file ([None]: the file cannot be read). *)
Record drm_entry : Type := mkDrmEntry {
  entry_name : string;
  entry_vendor : option string
}.

(** What discovery reads: the number of GPUs in the XML of
    [nvidia-smi -q -x] ([None]: the command fails or its output does not
    parse), the output of [rocm-smi] ([None]: the command fails), and the
    entries of [/sys/class/drm] ([None]: the directory cannot be read). *)
Record Discovery : Type := mkDiscovery {
  nvidia_smi_gpus : option nat;
  rocm_smi : option string;
  drm : option (list drm_entry)
}.

(** [filepath.Join("/sys/class/drm", name, "device")]. *)
Definition card_path (name : string) : string :=
  "/sys/class/drm/" +:+ name +:+ "/device".

Section discovery.
Context (h : LinuxHost) (d : Discovery).

Definition getNvidiaGPUs : option (list Vendor) :=
  (λ n, replicate n NVIDIA) <$> nvidia_smi_gpus d.

(** The loop of [getAMDGPUsFromSysfs]: one device for every card entry
    whose vendor file holds the AMD vendor ID. *)
Definition sysfs_gpus (entries : list drm_entry) : list Vendor :=
  fold_left
    (λ gpus entry,
       if negb (String.prefix "card" (entry_name entry))
          || Contains (entry_name entry) "-"
       then gpus
       else match entry_vendor entry with
            | None => gpus
            | Some vendorData =>
                if negb (String.eqb (TrimSpace h vendorData) "0x1002")
                then gpus
                else gpus ++ [AMD]
            end)
    entries [].

Definition getAMDGPUsFromSysfs : option (list Vendor) :=
  match drm d with
  | None => None
  | Some entries =>
      let gpus := sysfs_gpus entries in
      if (length gpus =? 0)%nat then None else Some gpus
  end.

Definition getAMDGPUs : option (list Vendor) :=
  match rocm_smi d with
  | None => getAMDGPUsFromSysfs
  | Some output =>
      Some (fold_left
              (λ gpus line,
                 if Contains line "card" && negb (Contains line "=")
                 then gpus ++ [AMD] else gpus)
              (Split h output (String (ascii_of_nat 10) EmptyString)) [])
  end.

(** [GetInfo], as the list of the vendors of the devices it returns. *)
Definition discovered_gpus : option (list Vendor) :=
  let gpus := [] in
  let gpus := match getNvidiaGPUs with
              | Some nvidiaGPUs => gpus ++ nvidiaGPUs
              | None => gpus
              end in
  let gpus := match getAMDGPUs with
              | Some amdGPUs => gpus ++ amdGPUs
              | None => gpus
              end in
  if (length gpus =? 0)%nat then None else Some gpus.

(** The loop of [findAMDCardPath]; [currentID] counts the AMD cards
    passed. *)
Fixpoint card_scan (entries : list drm_entry) (currentID deviceID : Z)
    : string :=
  match entries with
  | [] => EmptyString
  | entry :: rest =>
      if negb (String.prefix "card" (entry_name entry))
         || Contains (entry_name entry) "-"
      then card_scan rest currentID deviceID
      else match entry_vendor entry with
           | None => card_scan rest currentID deviceID
           | Some vendorData =>
               if String.eqb (TrimSpace h vendorData) "0x1002" then
                 if currentID =? deviceID then card_path (entry_name entry)
                 else card_scan rest (GoInt.add currentID 1) deviceID
               else card_scan rest currentID deviceID
           end
  end.

Definition discovered_card_path (deviceID : Z) : string :=
  match drm d with
  | None => EmptyString
  | Some entries => card_scan entries 0 deviceID
  end.

(** The host [h] with [GetInfo] and [findAMDCardPath] as the reader
    computes them from [d]. *)
Definition discovered_host : LinuxHost :=
  mkLinuxHost discovered_gpus (call_error h) discovered_card_path
    (findAMDHwmonPath h) (fileExists h) (ReadFile h) (Join h) (Split h)
    (TrimSpace h) (Fields h).

End discovery.

(** The entries [getAMDGPUsFromSysfs] and [findAMDCardPath] take for AMD
    cards. *)
Definition is_amd_card (h : LinuxHost) (entry : drm_entry) : bool :=
  String.prefix "card" (entry_name entry)
  && negb (Contains (entry_name entry) "-")
  && match entry_vendor entry with
     | Some vendorData => String.eqb (TrimSpace h vendorData) "0x1002"
     | None => false
     end.

(** One NVIDIA GPU and one AMD card, seen through sysfs. *)
Definition mixed_machine : Discovery :=
  mkDiscovery (Some 1%nat) None
    (Some [mkDrmEntry "card0" (Some "0x10de");
           mkDrmEntry "card1" (Some "0x1002");
           mkDrmEntry "card1-DP-1" None]).

End gpu.

(** * Properties *)

(** ** Go integers *)

Lemma wrap_small (z : Z) : GoInt.in_range z → GoInt.wrap z = z.
Proof.
  unfold GoInt.in_range, GoInt.min_int, GoInt.max_int, GoInt.wrap.
  intros Hz. rewrite Z.mod_small; lia.
Qed.

Lemma quot_bounded (a b m : Z) : 0 < b → - m ≤ a ≤ m → - m ≤ a ÷ b ≤ m.
Proof.
  intros Hb Ha.
  destruct (Z.le_gt_cases 0 a) as [Hpos | Hneg].
  - rewrite Z.quot_div_nonneg by lia.
    pose proof (Z.div_pos a b Hpos Hb).
    pose proof (Z.div_le_upper_bound a b a Hb). nia.
  - replace a with (- (- a)) by lia. rewrite Z.quot_opp_l by lia.
    rewrite Z.quot_div_nonneg by lia.
    assert (0 ≤ (- a) / b) by (apply Z.div_pos; lia).
    pose proof (Z.div_le_upper_bound (- a) b (- a) Hb). nia.
Qed.

(** ** The interpolator *)

Section interpolator.
Import fan.

(** On bounded points with a proper bracket, the machine arithmetic of
    the loop body is the formula over unbounded integers. *)
Lemma segment_exact (p q : CurvePoint) (temp : Z) :
  point_in_bounds p → point_in_bounds q →
  Temperature p < temp ≤ Temperature q →
  GoInt.quo
    (GoInt.mul (GoInt.sub (FanSpeed q) (FanSpeed p))
               (GoInt.sub temp (Temperature p)))
    (GoInt.sub (Temperature q) (Temperature p))
  = Some (segment_value p q temp - FanSpeed p)
  ∧ GoInt.add (FanSpeed p) (segment_value p q temp - FanSpeed p)
    = segment_value p q temp.
Proof.
  intros [Hpt Hps] [Hqt Hqs] Ht.
  unfold GoInt.sub, GoInt.mul, GoInt.add, GoInt.quo, segment_value.
  rewrite !(wrap_small (_ - _))
    by (unfold GoInt.in_range, GoInt.min_int, GoInt.max_int; lia).
  assert (Hprod : -10000 ≤ (FanSpeed q - FanSpeed p) * (temp - Temperature p)
                  ≤ 10000) by nia.
  rewrite (wrap_small (_ * _))
    by (unfold GoInt.in_range, GoInt.min_int, GoInt.max_int; lia).
  destruct (Z.eqb_spec (Temperature q - Temperature p) 0) as [E | _];
    [lia |].
  pose proof (quot_bounded _ (Temperature q - Temperature p) 10000
                ltac:(lia) Hprod) as Hq.
  rewrite (wrap_small (_ ÷ _))
    by (unfold GoInt.in_range, GoInt.min_int, GoInt.max_int; lia).
  split; [f_equal; lia |].
  rewrite wrap_small
    by (unfold GoInt.in_range, GoInt.min_int, GoInt.max_int; lia).
  lia.
Qed.

(** The loop stops at the first index [j] whose successor is not below
    the sample; every point up to [j] is strictly below it, so the
    divisor is never zero. *)
Lemma interpolate_loop_first_bracket (curve : list CurvePoint) (temp : Z) :
  Forall point_in_bounds curve →
  ∀ (n i : nat) pi last,
    (i + n = length curve - 1)%nat →
    curve !! i = Some pi → Temperature pi < temp →
    curve !! (length curve - 1)%nat = Some last → temp < Temperature last →
    ∃ (j : nat) p q,
      (i ≤ j)%nat ∧ curve !! j = Some p ∧ curve !! S j = Some q
      ∧ Temperature p < temp ≤ Temperature q
      ∧ (∀ (k : nat) p', (i ≤ k ≤ j)%nat → curve !! k = Some p' →
           Temperature p' < temp)
      ∧ interpolate_loop curve temp n i = Ret (segment_value p q temp).
Proof.
  intros Hb n. induction n as [| n IH]; intros i pi last Hlen Hi Hlt Hl Hlast.
  - replace (length curve - 1)%nat with i in Hl by lia.
    rewrite Hi in Hl. injection Hl as ->. lia.
  - assert (is_Some (curve !! S i)) as [q Hq].
    { apply lookup_lt_is_Some. lia. }
    destruct (Z.le_gt_cases temp (Temperature q)) as [Hle | Hgt].
    + exists i, pi, q. repeat split; try done; try lia.
      * intros k p' Hk Hp'. replace k with i in Hp' by lia. congruence.
      * simpl. rewrite Hi, Hq.
        replace (Temperature pi <=? temp) with true
          by (symmetry; apply Z.leb_le; lia).
        replace (temp <=? Temperature q) with true
          by (symmetry; apply Z.leb_le; lia).
        simpl.
        assert (Hpb : point_in_bounds pi).
        { eapply Forall_lookup_1; eauto. }
        assert (Hqb : point_in_bounds q).
        { eapply Forall_lookup_1; eauto. }
        destruct (segment_exact pi q temp Hpb Hqb ltac:(lia)) as [-> ->].
        done.
    + destruct (IH (S i) q last ltac:(lia) Hq Hgt Hl Hlast)
        as (j & p & q' & Hij & Hp & Hq' & Hbr & Hbelow & Hloop).
      exists j, p, q'. repeat split; try done; try lia.
      * intros k p' Hk Hp'.
        destruct (decide (k = i)) as [-> | Hne]; [congruence |].
        apply (Hbelow k p'); [lia | done].
      * simpl. rewrite Hi, Hq.
        replace (temp <=? Temperature q) with false
          by (symmetry; apply Z.leb_gt; lia).
        rewrite andb_false_r. done.
Qed.

(** Between the end points the interpolator is defined, for every curve
    of bounded points, sorted or not. *)
Lemma interpolateFanSpeed_interior (curve : list CurvePoint) (temp : Z)
    first last :
  Forall point_in_bounds curve →
  curve !! 0%nat = Some first →
  curve !! (length curve - 1)%nat = Some last →
  Temperature first < temp < Temperature last →
  ∃ (j : nat) p q,
    curve !! j = Some p ∧ curve !! S j = Some q
    ∧ Temperature p < temp ≤ Temperature q
    ∧ (∀ (k : nat) p', (k ≤ j)%nat → curve !! k = Some p' →
         Temperature p' < temp)
    ∧ interpolateFanSpeed curve temp = Ret (segment_value p q temp).
Proof.
  intros Hb Hf Hl [Hlo Hhi].
  destruct (interpolate_loop_first_bracket curve temp Hb
              (length curve - 1) 0 first last ltac:(lia) Hf Hlo Hl Hhi)
    as (j & p & q & _ & Hp & Hq & Hbr & Hbelow & Hloop).
  exists j, p, q. repeat split; try done; try lia.
  - intros k p' Hk. apply Hbelow. lia.
  - unfold interpolateFanSpeed. rewrite Hf.
    replace (temp <=? Temperature first) with false
      by (symmetry; apply Z.leb_gt; lia).
    rewrite Hl.
    replace (Temperature last <=? temp) with false
      by (symmetry; apply Z.leb_gt; lia).
    done.
Qed.

Lemma interpolateFanSpeed_low (curve : list CurvePoint) (temp : Z) first :
  curve !! 0%nat = Some first → temp ≤ Temperature first →
  interpolateFanSpeed curve temp = Ret (FanSpeed first).
Proof.
  intros Hf Hle. unfold interpolateFanSpeed. rewrite Hf.
  replace (temp <=? Temperature first) with true
    by (symmetry; apply Z.leb_le; lia).
  done.
Qed.

Lemma interpolateFanSpeed_high (curve : list CurvePoint) (temp : Z)
    first last :
  curve !! 0%nat = Some first →
  curve !! (length curve - 1)%nat = Some last →
  Temperature first < temp → Temperature last ≤ temp →
  interpolateFanSpeed curve temp = Ret (FanSpeed last).
Proof.
  intros Hf Hl Hlo Hhi. unfold interpolateFanSpeed. rewrite Hf.
  replace (temp <=? Temperature first) with false
    by (symmetry; apply Z.leb_gt; lia).
  rewrite Hl.
  replace (Temperature last <=? temp) with true
    by (symmetry; apply Z.leb_le; lia).
  done.
Qed.

(** Distinct temperatures make a sorted curve strictly ascending. *)
Lemma sorted_distinct_strict (curve : list CurvePoint) :
  sorted_curve curve → distinct_temperatures curve →
  ∀ (i j : nat) p q, (i < j)%nat →
    curve !! i = Some p → curve !! j = Some q →
    Temperature p < Temperature q.
Proof.
  intros Hs Hd i j p q Hij Hp Hq.
  pose proof (Hs i j p q Hij Hp Hq) as Hle.
  destruct (decide (Temperature p = Temperature q)) as [Heq | Hne]; [| lia].
  exfalso.
  assert (i = j); [| lia].
  eapply (NoDup_lookup (Temperature <$> curve) i j (Temperature p)); eauto.
  - by rewrite list_lookup_fmap, Hp.
  - by rewrite list_lookup_fmap, Hq, Heq.
Qed.

Lemma segment_value_right (p q : CurvePoint) :
  Temperature p < Temperature q →
  segment_value p q (Temperature q) = FanSpeed q.
Proof.
  intros Hlt. unfold segment_value.
  rewrite Z.quot_mul by lia. lia.
Qed.

Lemma segment_value_left (p q : CurvePoint) :
  segment_value p q (Temperature p) = FanSpeed p.
Proof.
  unfold segment_value. rewrite Z.sub_diag, Z.mul_0_r.
  assert (0 ÷ (Temperature q - Temperature p) = 0) as ->; [| lia].
  by destruct (Temperature q - Temperature p).
Qed.

Lemma valid_curve_ends (curve : list CurvePoint) :
  valid_curve curve →
  ∃ first last, curve !! 0%nat = Some first
                ∧ curve !! (length curve - 1)%nat = Some last.
Proof.
  intros [Hlen _].
  destruct (lookup_lt_is_Some_2 curve 0 ltac:(lia)) as [first Hf].
  destruct (lookup_lt_is_Some_2 curve (length curve - 1) ltac:(lia))
    as [last Hl].
  eauto.
Qed.

(** C3.  For every valid curve, sorted ascending with pairwise distinct
    temperatures, and every sample: at or below the first point's
    temperature the interpolator returns the first point's speed, at or
    above the last point's temperature the last point's speed, and
    strictly between them a bracketing pair of consecutive points
    exists and, for every such pair, the result is
    [s_i + (s_{i+1} - s_i) * (T - t_i) / (t_{i+1} - t_i)] with the
    quotient truncated toward zero.  On the curve (0 -> 20, 100 -> 100)
    the samples 50 and 33 give 60 and 46. *)
Theorem interpolateFanSpeed_piecewise_linear :
  (∀ (curve : list CurvePoint) (temp : Z) first last,
     valid_curve curve → sorted_curve curve →
     distinct_temperatures curve →
     curve !! 0%nat = Some first →
     curve !! (length curve - 1)%nat = Some last →
     (temp ≤ Temperature first →
        interpolateFanSpeed curve temp = Ret (FanSpeed first))
     ∧ (Temperature last ≤ temp →
          interpolateFanSpeed curve temp = Ret (FanSpeed last))
     ∧ (Temperature first < temp < Temperature last →
          (∃ (i : nat) p q,
             curve !! i = Some p ∧ curve !! S i = Some q
             ∧ Temperature p ≤ temp ≤ Temperature q)
          ∧ ∀ (i : nat) p q,
              curve !! i = Some p → curve !! S i = Some q →
              Temperature p ≤ temp ≤ Temperature q →
              interpolateFanSpeed curve temp
              = Ret (segment_value p q temp)))
  ∧ interpolateFanSpeed example_curve 50 = Ret 60
  ∧ interpolateFanSpeed example_curve 33 = Ret 46.
Proof.
  split; [| by vm_compute].
  intros curve temp first last Hv Hs Hd Hf Hl.
  pose proof (sorted_distinct_strict curve Hs Hd) as Hstrict.
  destruct Hv as [Hlen Hb].
  assert (Hends : Temperature first < Temperature last).
  { apply (Hstrict 0%nat (length curve - 1)%nat); [lia | done | done]. }
  split; [by apply interpolateFanSpeed_low |].
  split.
  { intros Hhi. eapply interpolateFanSpeed_high; eauto. lia. }
  intros Hin.
  destruct (interpolateFanSpeed_interior curve temp first last Hb Hf Hl Hin)
    as (j & p & q & Hp & Hq & Hbr & Hbelow & Hres).
  split.
  { exists j, p, q. repeat split; try done; lia. }
  intros i p' q' Hp' Hq' Hbr'.
  rewrite Hres. f_equal.
  destruct (lt_eq_lt_dec i j) as [[Hlt | ->] | Hgt].
  - pose proof (Hbelow (S i) q' ltac:(lia) Hq'). lia.
  - congruence.
  - destruct (decide (i = S j)) as [-> | Hne].
    + assert (p' = q) as -> by congruence.
      assert (temp = Temperature q) as -> by lia.
      rewrite segment_value_right by lia.
      by rewrite segment_value_left.
    + pose proof (Hstrict (S j) i q p' ltac:(lia) Hq Hp'). lia.
Qed.

Lemma example_curve_sorted : sorted_curve example_curve.
Proof.
  intros [| [| i]] [| [| j]] p q Hij Hp Hq; simpl in *;
    try lia; try discriminate;
    injection Hp as <-; injection Hq as <-; simpl; lia.
Qed.

Lemma example_curve_valid : valid_curve example_curve.
Proof.
  split; [simpl; lia |].
  repeat constructor; simpl; lia.
Qed.

Lemma example_curve_distinct : distinct_temperatures example_curve.
Proof.
  unfold distinct_temperatures. simpl.
  apply NoDup_cons. split; [| apply NoDup_singleton].
  intros Hin. apply list_elem_of_In in Hin. simpl in Hin. lia.
Qed.

Lemma interpolateFanSpeed_piecewise_linear_witness :
  interpolateFanSpeed example_curve 0 = Ret 20
  ∧ interpolateFanSpeed example_curve 100 = Ret 100
  ∧ interpolateFanSpeed example_curve 42
    = Ret (segment_value (mkPoint 0 20) (mkPoint 100 100) 42).
Proof.
  destruct interpolateFanSpeed_piecewise_linear as [H _].
  pose proof (λ temp, H example_curve temp (mkPoint 0 20) (mkPoint 100 100)
                example_curve_valid example_curve_sorted
                example_curve_distinct eq_refl eq_refl) as H'.
  split; [apply (H' 0); simpl; lia |].
  split; [apply (H' 100); simpl; lia |].
  destruct (H' 42) as (_ & _ & Hmid).
  destruct (Hmid ltac:(simpl; lia)) as [_ Hall].
  apply (Hall 0%nat); [done | done | simpl; lia].
Defined.

(** The quotient is truncated toward zero, not rounded down: on the
    falling curve (0 -> 100, 100 -> 20) the sample 33 gives
    100 + (-2640 / 100) = 100 - 26. *)
Lemma interpolateFanSpeed_truncates_toward_zero :
  interpolateFanSpeed [mkPoint 0 100; mkPoint 100 20] 33 = Ret 74.
Proof. by vm_compute. Qed.

Lemma first_match_index (curve : list CurvePoint) (temp : Z) p :
  first_match curve temp = Some p →
  ∃ m : nat, curve !! m = Some p ∧ Temperature p = temp
    ∧ ∀ (k : nat) p', (k < m)%nat → curve !! k = Some p' →
        Temperature p' ≠ temp.
Proof.
  unfold first_match. induction curve as [| x rest IH]; [done |].
  simpl. destruct (Z.eqb_spec (Temperature x) temp) as [Heq | Hne].
  - intros [= ->]. exists 0%nat. repeat split; [done |].
    intros k p' Hk. lia.
  - intros Hfind. destruct (IH Hfind) as (m & Hm & Ht & Hbefore).
    exists (S m). repeat split; try done.
    intros [| k] p' Hk Hp'; simpl in Hp'; [congruence |].
    apply (Hbefore k); [lia | done].
Qed.

Lemma duplicate_curve_valid : valid_curve duplicate_curve.
Proof.
  split; [simpl; lia |].
  repeat constructor; simpl; lia.
Qed.

Lemma duplicate_curve_sorted : sorted_curve duplicate_curve.
Proof.
  intros [| [| [| i]]] [| [| [| j]]] p q Hij Hp Hq; simpl in *;
    try lia; try discriminate;
    injection Hp as <-; injection Hq as <-; simpl; lia.
Qed.

(** C4 as stated fails: on the sorted curve (0 -> 10, 50 -> 20,
    50 -> 80) the first point at 50 degrees has speed 20, and the
    interpolator returns 80. *)
Lemma interpolateFanSpeed_last_duplicate_wins :
  ¬ (∀ (curve : list CurvePoint) (temp : Z) p,
       valid_curve curve → sorted_curve curve →
       first_match curve temp = Some p →
       interpolateFanSpeed curve temp = Ret (FanSpeed p)).
Proof.
  intros H.
  specialize (H duplicate_curve 50 (mkPoint 50 20)
                duplicate_curve_valid duplicate_curve_sorted eq_refl).
  vm_compute in H. discriminate.
Qed.

(** C4, amended.  For every valid sorted curve, duplicates allowed, and
    every sample equal to some point's temperature, the interpolator
    does not fault and returns the speed of a point of that temperature:
    the first such point in sorted order, except that a sample equal to
    the last point's temperature and above the first point's yields the
    last point's speed. *)
Theorem interpolateFanSpeed_exact_match :
  ∀ (curve : list CurvePoint) (temp : Z) p,
    valid_curve curve → sorted_curve curve →
    first_match curve temp = Some p →
    ∃ first last,
      curve !! 0%nat = Some first
      ∧ curve !! (length curve - 1)%nat = Some last
      ∧ interpolateFanSpeed curve temp
        = Ret (if decide (Temperature first < temp
                          ∧ temp = Temperature last)
               then FanSpeed last else FanSpeed p).
Proof.
  intros curve temp p Hv Hs Hfind.
  destruct (valid_curve_ends curve Hv) as (first & last & Hf & Hl).
  exists first, last. split; [done |]. split; [done |].
  destruct Hv as [Hlen Hb].
  destruct (first_match_index curve temp p Hfind) as (m & Hm & Ht & Hbefore).
  pose proof (lookup_lt_Some _ _ _ Hm) as Hmlen.
  destruct (Z.le_gt_cases temp (Temperature first)) as [Hlow | Hlow].
  - rewrite decide_False by lia.
    rewrite (interpolateFanSpeed_low curve temp first Hf Hlow).
    destruct m as [| m]; [congruence |].
    pose proof (Hbefore 0%nat first ltac:(lia) Hf).
    pose proof (Hs 0%nat (S m) first p ltac:(lia) Hf Hm). lia.
  - assert (Hple : Temperature p ≤ Temperature last).
    { destruct (decide (m = length curve - 1)%nat) as [-> | Hne].
      - assert (p = last) as -> by congruence. lia.
      - apply (Hs m (length curve - 1)%nat); [lia | done | done]. }
    destruct (Z.le_gt_cases (Temperature last) temp) as [Hhigh | Hhigh].
    + rewrite decide_True by lia.
      by apply (interpolateFanSpeed_high curve temp first last).
    + rewrite decide_False by lia.
      destruct (interpolateFanSpeed_interior curve temp first last Hb Hf Hl
                  ltac:(lia))
        as (j & p' & q & Hp' & Hq & Hbr & Hbelow & Hres).
      rewrite Hres. f_equal.
      destruct (le_lt_dec m j) as [Hmj | Hmj].
      { pose proof (Hbelow m p Hmj Hm). lia. }
      destruct (decide (m = S j)) as [-> | Hne].
      * assert (q = p) as -> by congruence.
        rewrite <- Ht. apply segment_value_right. lia.
      * pose proof (Hbefore (S j) q ltac:(lia) Hq).
        pose proof (Hs (S j) m q p ltac:(lia) Hq Hm). lia.
Qed.

Lemma interpolateFanSpeed_exact_match_witness :
  ∃ first last,
    duplicate_curve !! 0%nat = Some first
    ∧ duplicate_curve !! (length duplicate_curve - 1)%nat = Some last
    ∧ interpolateFanSpeed duplicate_curve 50
      = Ret (if decide (Temperature first < 50 ∧ 50 = Temperature last)
             then FanSpeed last else FanSpeed (mkPoint 50 20)).
Proof.
  apply (interpolateFanSpeed_exact_match duplicate_curve 50 (mkPoint 50 20)
           duplicate_curve_valid duplicate_curve_sorted eq_refl).
Defined.

End interpolator.

(** ** The Linux fan controller *)

Section linux_controller.
Import fan.

Lemma same_control_refl c : same_control c c.
Proof. by repeat split. Qed.

Lemma same_control_trans c1 c2 c3 :
  same_control c1 c2 → same_control c2 c3 → same_control c1 c3.
Proof.
  intros (? & ? & ? & ?) (? & ? & ? & ?). repeat split; congruence.
Qed.

Lemma same_control_well_formed c c' :
  same_control c c' → well_formed c → well_formed c'.
Proof.
  intros (Hp & Hc & Hh & Hg) [H1 H2 H3 H4 H5].
  split; rewrite ?Hp, ?Hc, ?Hh, ?Hg; done.
Qed.

Lemma logged_refl c : logged c c [].
Proof. unfold logged. by rewrite app_nil_r. Qed.

Lemma logged_trans c1 c2 c3 evs evs' :
  logged c1 c2 evs → logged c2 c3 evs' → logged c1 c3 (evs ++ evs').
Proof. unfold logged. intros H1 H2. by rewrite H2, H1, app_assoc. Qed.

Lemma checkWritePermissions_spec pf paths c r c' :
  checkWritePermissions pf paths c = (r, c') →
  (∃ perr, r = Ret perr) ∧ same_control c c'
  ∧ ∃ evs, logged c c' evs ∧ no_writes evs.
Proof.
  revert c. induction paths as [| path rest IH]; intros c.
  - simpl. intros [= <- <-]. split; [eauto |].
    split; [apply same_control_refl |].
    exists []. split; [apply logged_refl | constructor].
  - simpl. unfold bind, os_Stat, os_OpenFile, bind, get, emit, ret. simpl.
    destruct (stat_ok pf (trace c) path); simpl.
    + destruct (open_ok pf _ path); simpl.
      * intros H. apply IH in H as (Hr & Hs & evs & Hl & Hw).
        split; [done |]. split; [apply Hs |].
        exists ([EvStat path; EvOpenWrite path] ++ evs). split.
        -- unfold logged in *. simpl in *. rewrite Hl.
           by rewrite <- !app_assoc.
        -- repeat constructor. done.
      * intros [= <- <-]. split; [eauto |]. split; [by repeat split |].
        exists [EvStat path; EvOpenWrite path].
        split; [| by repeat constructor].
        unfold logged. simpl. by rewrite <- app_assoc.
    + intros [= <- <-]. split; [eauto |]. split; [by repeat split |].
      exists [EvStat path]. split; [done | by repeat constructor].
Qed.

Lemma ioutil_WriteFile_spec pf path v c :
  ∃ c', ioutil_WriteFile pf path v c = (Ret (write_ok pf (trace c) path v), c')
        ∧ same_control c c' ∧ logged c c' [EvWrite path v].
Proof.
  eexists. split; [reflexivity |]. by repeat split.
Qed.

(** *** Identifiers outside the range of discovered fans *)

Lemma go_index_Ret {A} (s : list A) (i : Z) x :
  go_index s i = Ret x ↔ 0 ≤ i ∧ s !! Z.to_nat i = Some x.
Proof.
  unfold go_index. destruct (Z.ltb_spec i 0).
  - split; [done | lia].
  - destruct (s !! Z.to_nat i) as [y |].
    + split; [intros [= ->]; split; [lia | done] | by intros [_ [= ->]]].
    + split; [done | by intros [_ ?]].
Qed.

Lemma go_index_negative {A} (s : list A) (i : Z) :
  i < 0 → go_index s i = Panic.
Proof.
  intros Hi. unfold go_index.
  by replace (i <? 0) with true by (symmetry; apply Z.ltb_lt; lia).
Qed.

Lemma SetSettings_too_large pf c fanID settings :
  Z.of_nat (length (pwmPaths c)) ≤ fanID →
  SetSettings pf fanID settings c = (Ret (Some (ErrFanNotFound fanID)), c).
Proof.
  intros Hge. unfold SetSettings, bind, get, ret.
  by replace (_ <=? fanID) with true by (symmetry; apply Z.leb_le; lia).
Qed.

Lemma GetSettings_too_large pf c fanID :
  Z.of_nat (length (pwmPaths c)) ≤ fanID →
  GetSettings pf fanID c = (Ret (inr (ErrFanNotFound fanID)), c).
Proof.
  intros Hge. unfold GetSettings, bind, get, ret.
  by replace (_ <=? fanID) with true by (symmetry; apply Z.leb_le; lia).
Qed.

Lemma SetSettings_negative pf c fanID settings :
  fanID < 0 → SetSettings pf fanID settings c = (Panic, c).
Proof.
  intros Hneg. unfold SetSettings, bind, get, ret, lift.
  replace (_ <=? fanID) with false by (symmetry; apply Z.leb_gt; lia).
  by rewrite go_index_negative.
Qed.

Lemma GetSettings_negative pf c fanID :
  fanID < 0 → curveStates c !! fanID = None →
  GetSettings pf fanID c = (Panic, c).
Proof.
  intros Hneg Hnone. unfold GetSettings, bind, get, ret, lift.
  replace (_ <=? fanID) with false by (symmetry; apply Z.leb_gt; lia).
  by rewrite Hnone, go_index_negative.
Qed.

Lemma Windows_out_of_range c fanID settings :
  fanID < 0 ∨ Z.of_nat (length (fans c)) ≤ fanID →
  Windows.GetSettings c fanID = Ret (inr (ErrFanOutOfRange fanID))
  ∧ Windows.SetSettings c fanID settings
    = Ret (Some (ErrFanOutOfRange fanID)).
Proof.
  intros Hout. unfold Windows.GetSettings, Windows.SetSettings.
  assert (Windows.in_range c fanID = false) as ->; [| done].
  unfold Windows.in_range. apply negb_false_iff, orb_true_iff.
  destruct Hout; [left; apply Z.ltb_lt | right; apply Z.leb_le]; lia.
Qed.

(** *** The shape of the controller is kept *)

Lemma well_formed_new paths : well_formed (newPlatformController paths).
Proof.
  split; simpl; done.
Qed.

Lemma active_loop_registered c fanID (i : nat) :
  well_formed c → active_loop c fanID i →
  curveStates c !! fanID = Some i.
Proof.
  intros Hwf [(g & state & Hg & Hret & Hst & Hopen) (g' & Hg' & Hfan)].
  assert (g' = g) as -> by congruence.
  destruct (wf_owner c Hwf i g Hg) as [Hown _]. rewrite Hown in Hst.
  destruct (wf_open c Hwf i g state Hg Hst Hopen) as [Hreg _].
  by rewrite Hfan in Hreg.
Qed.

Lemma registered_active_loop c fanID (l : nat) :
  well_formed c → curveStates c !! fanID = Some l →
  active_loop c fanID l.
Proof.
  intros Hwf Hreg.
  destruct (wf_registered c Hwf fanID l Hreg)
    as (g & state & Hg & Hfan & Hst & Hact).
  pose proof (proj1 (wf_flags c Hwf l state Hst) Hact) as Hopen.
  destruct (wf_owner c Hwf l g Hg) as [Hown _].
  destruct (wf_open c Hwf l g state Hg Hst Hopen) as [_ Hret].
  split; [| by exists g].
  exists g, state. by rewrite Hown.
Qed.

(** At most one loop of a fan is active. *)
Lemma active_loop_unique c fanID (i j : nat) :
  well_formed c → active_loop c fanID i → active_loop c fanID j → i = j.
Proof.
  intros Hwf Hi Hj.
  pose proof (active_loop_registered c fanID i Hwf Hi).
  pose proof (active_loop_registered c fanID j Hwf Hj).
  congruence.
Qed.

Lemma stopFanCurve_spec c fanID :
  well_formed c →
  ∃ c', stopFanCurve fanID c = (Ret tt, c')
    ∧ well_formed c'
    ∧ curveStates c' = delete fanID (curveStates c)
    ∧ pwmPaths c' = pwmPaths c ∧ goroutines c' = goroutines c
    ∧ trace c' = trace c
    ∧ match curveStates c !! fanID with
      | None => heap c' = heap c
      | Some l =>
          ∃ state, heap c !! l = Some state
            ∧ heap c' = <[l := mkCurveState (curve state) (lastTemp state)
                                 false ChanClosed]> (heap c)
      end.
Proof.
  intros Hwf. unfold stopFanCurve.
  destruct (curveStates c !! fanID) as [l |] eqn:Hreg.
  2: { exists c. split; [done |]. split; [done |].
       split; [by rewrite delete_id |]. by repeat split. }
  destruct (wf_registered c Hwf fanID l Hreg)
    as (g & state & Hg & Hfan & Hst & Hact).
  pose proof (proj1 (wf_flags c Hwf l state Hst) Hact) as Hopen.
  cbv beta iota.
  eexists. split; [rewrite Hst, Hact, Hopen; reflexivity |]. simpl.
  split; [| repeat split; eauto].
  pose proof (lookup_lt_Some _ _ _ Hst) as Hlt.
  split; simpl.
  - rewrite length_insert. apply Hwf.
  - intros i g' Hg'. destruct (wf_owner c Hwf i g' Hg') as [Ho (st & Hs & Hc)].
    split; [done |].
    destruct (decide (i = l)) as [-> | Hne].
    + rewrite list_lookup_insert_eq by done. eexists. split; [done |].
      simpl. congruence.
    + rewrite list_lookup_insert_ne by done. eauto.
  - intros l' st Hl'.
    destruct (decide (l' = l)) as [-> | Hne].
    + rewrite list_lookup_insert_eq in Hl' by done.
      injection Hl' as <-. simpl. done.
    + rewrite list_lookup_insert_ne in Hl' by done.
      by apply (wf_flags c Hwf l').
  - intros i g' st Hg' Hs Ho.
    destruct (decide (i = l)) as [-> | Hne].
    + rewrite list_lookup_insert_eq in Hs by done.
      injection Hs as <-. done.
    + rewrite list_lookup_insert_ne in Hs by done.
      destruct (wf_open c Hwf i g' st Hg' Hs Ho) as [Hr Hret].
      split; [| done].
      rewrite lookup_delete_ne; [done |].
      intros Heq. rewrite <- Heq in Hr. congruence.
  - intros f l' Hl'.
    destruct (decide (f = fanID)) as [-> | Hnf].
    { by rewrite lookup_delete_eq in Hl'. }
    rewrite lookup_delete_ne in Hl' by done.
    destruct (wf_registered c Hwf f l' Hl')
      as (g' & st & Hg' & Hf' & Hs' & Ha').
    destruct (decide (l' = l)) as [-> | Hne]; [congruence |].
    exists g', st. rewrite list_lookup_insert_ne by done. done.
Qed.

Lemma startFanCurve_well_formed c fanID cv :
  well_formed c → curveStates c !! fanID = None →
  well_formed (startFanCurve fanID cv c).2.
Proof.
  intros Hwf Hfree. pose proof (wf_length c Hwf) as Hlen.
  split; simpl.
  - rewrite !length_app. simpl. lia.
  - intros i g Hg.
    apply lookup_app_Some in Hg as [Hg | [Hge Hg]].
    + destruct (wf_owner c Hwf i g Hg) as [Ho (st & Hs & Hc)].
      split; [done |]. exists st. split; [| done].
      by apply lookup_app_l_Some.
    + destruct (i - length (goroutines c))%nat as [| k] eqn:Hk;
        [| by destruct k].
      injection Hg as <-. simpl.
      assert (i = length (heap c)) as -> by lia.
      split; [done |]. eexists. split.
      { rewrite lookup_app_r by lia. by rewrite Nat.sub_diag. }
      done.
  - intros l st Hs.
    apply lookup_app_Some in Hs as [Hs | [Hge Hs]].
    + by apply (wf_flags c Hwf l).
    + destruct (l - length (heap c))%nat as [| k]; [| by destruct k].
      by injection Hs as <-.
  - intros i g st Hg Hs Ho.
    apply lookup_app_Some in Hg as [Hg | [Hge Hg]].
    + pose proof (lookup_lt_Some _ _ _ Hg) as Hlt.
      rewrite lookup_app_l in Hs by lia.
      destruct (wf_open c Hwf i g st Hg Hs Ho) as [Hr Hret].
      split; [| done].
      rewrite lookup_insert_ne; [done |].
      intros Heq. rewrite <- Heq in Hr. congruence.
    + destruct (i - length (goroutines c))%nat as [| k] eqn:Hk;
        [| by destruct k].
      injection Hg as <-. simpl.
      assert (i = length (heap c)) as -> by lia.
      by rewrite lookup_insert_eq.
  - intros f l Hl.
    destruct (decide (f = fanID)) as [-> | Hnf].
    + rewrite lookup_insert_eq in Hl. injection Hl as <-.
      eexists _, _. split.
      { rewrite lookup_app_r by lia. rewrite <- Hlen, Nat.sub_diag. done. }
      split; [done |]. split.
      { rewrite lookup_app_r by lia. by rewrite Nat.sub_diag. }
      done.
    + rewrite lookup_insert_ne in Hl by done.
      destruct (wf_registered c Hwf f l Hl)
        as (g' & st & Hg' & Hf' & Hs' & Ha').
      exists g', st. split; [by apply lookup_app_l_Some |].
      split; [done |]. split; [by apply lookup_app_l_Some | done].
Qed.

Lemma descends_refl c : descends c c.
Proof. split; [done |]. eauto. Qed.

Lemma descends_trans c1 c2 c3 :
  descends c1 c2 → descends c2 c3 → descends c1 c3.
Proof.
  intros [Hp1 Hh1] [Hp2 Hh2]. split; [congruence |].
  intros l st Hl. destruct (Hh1 l st Hl) as (st' & Hl' & Hc').
  destruct (Hh2 l st' Hl') as (st'' & Hl'' & Hc''). exists st''.
  split; [done | congruence].
Qed.

Lemma same_control_descends c c' : same_control c c' → descends c c'.
Proof.
  intros (Hp & _ & Hh & _). split; [done |]. rewrite Hh. eauto.
Qed.

Lemma descends_insert c c' (l : nat) state state' :
  pwmPaths c' = pwmPaths c → heap c !! l = Some state →
  heap c' = <[l := state']> (heap c) → curve state' = curve state →
  descends c c'.
Proof.
  intros Hp Hl Hh Hc. split; [done |]. intros l' st Hl'. rewrite Hh.
  pose proof (lookup_lt_Some _ _ _ Hl) as Hlt.
  destruct (decide (l' = l)) as [-> | Hne].
  - rewrite list_lookup_insert_eq by done. exists state'.
    split; [done | congruence].
  - rewrite list_lookup_insert_ne by done. eauto.
Qed.

Lemma stopFanCurve_descends c fanID c' :
  well_formed c → stopFanCurve fanID c = (Ret tt, c') → descends c c'.
Proof.
  intros Hwf Hstop.
  destruct (stopFanCurve_spec c fanID Hwf)
    as (c1 & Hstop' & _ & _ & Hp & _ & _ & Hheap).
  assert (c1 = c') as -> by congruence.
  destruct (curveStates c !! fanID) as [l |].
  - destruct Hheap as (state & Hl & Hh).
    by eapply (descends_insert c c' l state).
  - split; [done |]. rewrite Hheap. eauto.
Qed.

Lemma startFanCurve_descends c fanID cv :
  descends c (startFanCurve fanID cv c).2.
Proof.
  split; [done |]. simpl. intros l st Hl. exists st.
  split; [by apply lookup_app_l_Some | done].
Qed.

(** *** The curve block of SetSettings *)

Lemma validate_points_None (points : list CurvePoint) :
  validate_points points = None ↔ Forall point_in_bounds points.
Proof.
  induction points as [| p rest IH]; simpl; [by split |].
  unfold point_in_bounds at 1.
  destruct (Z.ltb_spec (Temperature p) 0); simpl.
  { split; [done | intros H'; inversion H'; lia]. }
  destruct (Z.ltb_spec 100 (Temperature p)); simpl.
  { split; [done | intros H'; inversion H'; lia]. }
  destruct (Z.ltb_spec (FanSpeed p) 0); simpl.
  { split; [done | intros H'; inversion H'; lia]. }
  destruct (Z.ltb_spec 100 (FanSpeed p)); simpl.
  { split; [done | intros H'; inversion H'; lia]. }
  rewrite IH. split.
  - intros Hrest. constructor; [unfold point_in_bounds; lia | done].
  - intros H'. by inversion H'.
Qed.

Lemma validate_points_kind (points : list CurvePoint) err :
  validate_points points = Some err → kind_of err = ValidationError.
Proof.
  induction points as [| p rest IH]; simpl; [done |].
  destruct (_ || _); [by intros [= <-] |].
  destruct (_ || _); [by intros [= <-] |]. done.
Qed.

(** The three ways through the [ModeCurve] block, all of them after the
    running loop has been stopped. *)
Lemma set_curve_mode_cases pf fanID settings enablePath c :
  well_formed c →
  ∃ c1, stopFanCurve fanID c = (Ret tt, c1)
    ∧ ( ((length (Curve settings) < 2)%nat
         ∧ set_curve_mode pf fanID settings enablePath c
           = (Ret (Some ErrCurveTooShort), c1))
      ∨ (∃ err, validate_points (sort_slice pf (Curve settings)) = Some err
           ∧ set_curve_mode pf fanID settings enablePath c
             = (Ret (Some err), c1))
      ∨ ((2 ≤ length (Curve settings))%nat
         ∧ validate_points (sort_slice pf (Curve settings)) = None
         ∧ ∃ c2, same_control c1 c2 ∧ logged c1 c2 [EvWrite enablePath 1]
             ∧ ( set_curve_mode pf fanID settings enablePath c
                 = (Ret (Some ErrSetManualModeForCurve), c2)
               ∨ set_curve_mode pf fanID settings enablePath c
                 = (Ret None,
                    (startFanCurve fanID (sort_slice pf (Curve settings))
                       c2).2)))).
Proof.
  intros Hwf.
  destruct (stopFanCurve_spec c fanID Hwf) as (c1 & Hstop & _).
  exists c1. split; [done |].
  unfold set_curve_mode, bind. rewrite Hstop.
  destruct (Nat.ltb_spec (length (Curve settings)) 2) as [Hshort | Hlong].
  { left. done. }
  right.
  destruct (validate_points (sort_slice pf (Curve settings))) as [err |]
    eqn:Hval.
  { left. exists err. done. }
  right. split; [done |]. split; [done |].
  destruct (ioutil_WriteFile_spec pf enablePath 1 c1)
    as (c2 & Hw & Hsame & Hlog).
  exists c2. split; [done |]. split; [done |].
  rewrite Hw. destruct (write_ok pf (trace c1) enablePath 1); simpl.
  - right. done.
  - left. done.
Qed.

Lemma set_curve_mode_well_formed pf fanID settings enablePath c r c' :
  well_formed c →
  set_curve_mode pf fanID settings enablePath c = (r, c') →
  (∃ ret, r = Ret ret) ∧ well_formed c' ∧ descends c c'.
Proof.
  intros Hwf Hrun.
  destruct (stopFanCurve_spec c fanID Hwf)
    as (c1 & Hstop & Hwf1 & Hcs & _).
  pose proof (stopFanCurve_descends c fanID c1 Hwf Hstop) as Hd1.
  destruct (set_curve_mode_cases pf fanID settings enablePath c Hwf)
    as (c1' & Hstop' & Hcases).
  assert (c1' = c1) as -> by congruence.
  destruct Hcases as [[_ Heq] | [(err & _ & Heq) | (_ & _ & c2 & Hs & _ & Heq)]].
  - rewrite Heq in Hrun. injection Hrun as <- <-. eauto.
  - rewrite Heq in Hrun. injection Hrun as <- <-. eauto.
  - pose proof (same_control_well_formed c1 c2 Hs Hwf1) as Hwf2.
    pose proof (descends_trans _ _ _ Hd1 (same_control_descends _ _ Hs))
      as Hd2.
    destruct Heq as [Heq | Heq]; rewrite Heq in Hrun;
      injection Hrun as <- <-.
    + eauto.
    + split; [eauto |]. split.
      * apply startFanCurve_well_formed; [done |].
        destruct Hs as (_ & -> & _). rewrite Hcs. apply lookup_delete_eq.
      * eapply descends_trans; [apply Hd2 | apply startFanCurve_descends].
Qed.

Lemma switch_mode_other pf fanID settings pwmPath enablePath c r c' :
  Mode settings ≠ ModeCurve →
  switch_mode pf fanID settings pwmPath enablePath c = (r, c') →
  (∃ ret, r = Ret ret) ∧ same_control c c' ∧ ∃ evs, logged c c' evs.
Proof.
  intros Hmode. unfold switch_mode.
  destruct (Mode settings) as [| | | name]; [| | done |].
  - unfold bind.
    destruct (ioutil_WriteFile_spec pf enablePath 2 c)
      as (c1 & -> & Hs & Hl).
    destruct (write_ok pf (trace c) enablePath 2); simpl;
      intros [= <- <-]; eauto.
  - unfold bind.
    destruct (ioutil_WriteFile_spec pf enablePath 1 c)
      as (c1 & -> & Hs & Hl).
    destruct (write_ok pf (trace c) enablePath 1); cbn [negb];
      cbv beta iota; [| intros [= <- <-]; eauto].
    destruct (ioutil_WriteFile_spec pf pwmPath
                (fixed_pwm (FixedSpeed settings)) c1)
      as (c2 & -> & Hs2 & Hl2).
    pose proof (same_control_trans _ _ _ Hs Hs2).
    pose proof (logged_trans _ _ _ _ _ Hl Hl2).
    destruct (write_ok pf (trace c1) pwmPath _); simpl;
      intros [= <- <-]; eauto.
  - intros [= <- <-]. split; [eauto |].
    split; [apply same_control_refl |]. exists []. apply logged_refl.
Qed.

(** The three ways through [SetSettings]. *)
Lemma SetSettings_inv pf fanID settings c r c' :
  SetSettings pf fanID settings c = (r, c') →
  (Z.of_nat (length (pwmPaths c)) ≤ fanID
   ∧ r = Ret (Some (ErrFanNotFound fanID)) ∧ c' = c)
  ∨ (fanID < 0 ∧ r = Panic ∧ c' = c)
  ∨ ∃ pwmPath c1 perr,
      go_index (pwmPaths c) fanID = Ret pwmPath
      ∧ checkWritePermissions pf [pwmPath; pwmPath +:+ "_enable"] c
        = (Ret perr, c1)
      ∧ match perr with
        | Some err => r = Ret (Some (ErrInsufficientPermissions err))
                      ∧ c' = c1
        | None => switch_mode pf fanID settings pwmPath
                    (pwmPath +:+ "_enable") c1 = (r, c')
        end.
Proof.
  destruct (Z.le_gt_cases (Z.of_nat (length (pwmPaths c))) fanID) as [Hge | Hlt].
  { rewrite SetSettings_too_large by done. intros [= <- <-]. by left. }
  destruct (Z.lt_ge_cases fanID 0) as [Hneg | Hpos].
  { rewrite SetSettings_negative by done. intros [= <- <-].
    right. by left. }
  right. right.
  unfold SetSettings, bind, get, lift in H.
  replace (_ <=? fanID) with false in H by (symmetry; apply Z.leb_gt; lia).
  destruct (go_index (pwmPaths c) fanID) as [pwmPath |] eqn:Hidx.
  2: { unfold go_index in Hidx.
       replace (fanID <? 0) with false in Hidx
         by (symmetry; apply Z.ltb_ge; lia).
       destruct (lookup_lt_is_Some_2 (pwmPaths c) (Z.to_nat fanID)
                   ltac:(lia)) as [x Hx].
       by rewrite Hx in Hidx. }
  destruct (checkWritePermissions pf [pwmPath; pwmPath +:+ "_enable"] c)
    as [r1 c1] eqn:Hperm.
  destruct (checkWritePermissions_spec _ _ _ _ _ Hperm) as ([perr ->] & _).
  exists pwmPath, c1, perr. split; [done |]. split; [done |].
  destruct perr as [err |]; [| done].
  unfold ret in H. by injection H as <- <-.
Qed.

Lemma SetSettings_well_formed pf fanID settings c ret c' :
  well_formed c → SetSettings pf fanID settings c = (Ret ret, c') →
  well_formed c' ∧ descends c c'.
Proof.
  intros Hwf Hrun.
  destruct (SetSettings_inv _ _ _ _ _ _ Hrun)
    as [(_ & _ & ->) | [(_ & [=] & _) | (pwmPath & c1 & perr & _ & Hperm & Hrest)]].
  { split; [done | apply descends_refl]. }
  destruct (checkWritePermissions_spec _ _ _ _ _ Hperm) as (_ & Hs & _).
  pose proof (same_control_well_formed _ _ Hs Hwf) as Hwf1.
  pose proof (same_control_descends _ _ Hs) as Hd1.
  destruct perr as [err |].
  { destruct Hrest as [_ ->]. done. }
  assert (Mode settings = ModeCurve ∨ Mode settings ≠ ModeCurve)
    as [Hcurve | Hother] by (destruct (Mode settings); auto).
  - unfold switch_mode in Hrest. rewrite Hcurve in Hrest.
    destruct (set_curve_mode_well_formed _ _ _ _ _ _ _ Hwf1 Hrest)
      as (_ & Hwf' & Hd').
    split; [done |]. by eapply descends_trans.
  - destruct (switch_mode_other _ _ _ _ _ _ _ _ Hother Hrest)
      as (_ & Hs' & _).
    split; [by eapply same_control_well_formed |].
    eapply descends_trans; [done |]. by apply same_control_descends.
Qed.

Lemma GetSettings_same_control pf fanID c r c' :
  GetSettings pf fanID c = (r, c') → same_control c c'.
Proof.
  unfold GetSettings, bind, get, lift, ret, ioutil_ReadFile, bind, get,
    emit, ret.
  destruct (_ <=? fanID); [by intros [= <- <-] |].
  destruct (match curveStates c !! fanID with Some _ => _ | None => _ end);
    [by intros [= <- <-] |].
  destruct (go_index (pwmPaths c) fanID); [| by intros [= <- <-]].
  simpl. destruct (read_file pf (trace c) _); [| by intros [= <- <-]].
  destruct (read_file pf _ _); [| by intros [= <- <-]].
  destruct (Atoi pf _); [| by intros [= <- <-]].
  destruct (String.eqb _ _); by intros [= <- <-].
Qed.

(** *** The goroutines *)

Lemma setPWMSpeed_same_control pf fanID speed c r c' :
  setPWMSpeed pf fanID speed c = (r, c') → same_control c c'.
Proof.
  unfold setPWMSpeed, bind, get, lift, ret.
  destruct (_ <=? fanID); [by intros [= <- <-] |].
  destruct (go_index (pwmPaths c) fanID) as [path |];
    [| by intros [= <- <-]].
  destruct (ioutil_WriteFile_spec pf path
              (GoInt.mul (if 100 <? (if speed <? 0 then 0 else speed)
                          then 100 else if speed <? 0 then 0 else speed)
                         255 ÷ 100) c) as (c1 & -> & Hs & _).
  destruct (write_ok pf _ _ _); simpl; by intros [= <- <-].
Qed.

Lemma setPWMSpeed_in_range pf fanID speed c pwmPath :
  go_index (pwmPaths c) fanID = Ret pwmPath →
  ∃ ret c', setPWMSpeed pf fanID speed c = (Ret ret, c')
    ∧ same_control c c'
    ∧ logged c c' [EvWrite pwmPath (pwm_of_percent speed)].
Proof.
  intros Hidx. pose proof Hidx as Hidx'.
  apply go_index_Ret in Hidx' as [Hpos Hlook].
  pose proof (lookup_lt_Some _ _ _ Hlook) as Hlt.
  unfold setPWMSpeed, bind, get, lift, ret.
  replace (_ <=? fanID) with false by (symmetry; apply Z.leb_gt; lia).
  rewrite Hidx.
  destruct (ioutil_WriteFile_spec pf pwmPath (pwm_of_percent speed) c)
    as (c1 & Hw & Hs & Hl).
  unfold pwm_of_percent in Hw. rewrite Hw.
  destruct (write_ok pf _ _ _); simpl; eauto.
Qed.

Lemma set_lastTemp_spec (l : nat) temp c state :
  heap c !! l = Some state →
  ∃ c', set_lastTemp l temp c = (Ret tt, c')
    ∧ pwmPaths c' = pwmPaths c ∧ curveStates c' = curveStates c
    ∧ goroutines c' = goroutines c ∧ trace c' = trace c
    ∧ heap c' = <[l := mkCurveState (curve state) temp (isActive state)
                         (stopChannel state)]> (heap c).
Proof.
  intros Hl. unfold set_lastTemp. rewrite Hl. eexists.
  split; [reflexivity |]. done.
Qed.

Lemma set_lastTemp_well_formed (l : nat) temp c c' state :
  well_formed c → heap c !! l = Some state →
  pwmPaths c' = pwmPaths c → curveStates c' = curveStates c →
  goroutines c' = goroutines c →
  heap c' = <[l := mkCurveState (curve state) temp (isActive state)
                       (stopChannel state)]> (heap c) →
  well_formed c'.
Proof.
  intros Hwf Hl Hp Hc Hg Hh.
  pose proof (lookup_lt_Some _ _ _ Hl) as Hlt.
  split; rewrite ?Hp, ?Hc, ?Hg, ?Hh.
  - rewrite length_insert. apply Hwf.
  - intros i g Hi. destruct (wf_owner c Hwf i g Hi) as [Ho (st & Hs & Hcv)].
    split; [done |].
    destruct (decide (i = l)) as [-> | Hne].
    + rewrite list_lookup_insert_eq by done. eexists. split; [done |].
      simpl. congruence.
    + rewrite list_lookup_insert_ne by done. eauto.
  - intros l' st Hl'.
    destruct (decide (l' = l)) as [-> | Hne].
    + rewrite list_lookup_insert_eq in Hl' by done.
      injection Hl' as <-. simpl. by apply (wf_flags c Hwf l).
    + rewrite list_lookup_insert_ne in Hl' by done.
      by apply (wf_flags c Hwf l').
  - intros i g st Hi Hs Ho.
    destruct (decide (i = l)) as [-> | Hne].
    + rewrite list_lookup_insert_eq in Hs by done.
      injection Hs as <-. simpl in Ho.
      by apply (wf_open c Hwf l g state).
    + rewrite list_lookup_insert_ne in Hs by done.
      by apply (wf_open c Hwf i g st).
  - intros f l' Hl'.
    destruct (wf_registered c Hwf f l' Hl')
      as (g' & st & Hg' & Hf' & Hs' & Ha').
    destruct (decide (l' = l)) as [-> | Hne].
    + rewrite list_lookup_insert_eq by done.
      eexists _, _. split; [done |]. split; [done |]. split; [done |].
      simpl. congruence.
    + rewrite list_lookup_insert_ne by done. by exists g', st.
Qed.

Lemma tick_body_well_formed pf (i : nat) g temp c c' :
  well_formed c → goroutines c !! i = Some g →
  tick_body pf g temp c = (Ret tt, c') →
  well_formed c' ∧ descends c c' ∧ curveStates c' = curveStates c.
Proof.
  intros Hwf Hg. unfold tick_body.
  destruct (0 <? temp).
  2: { intros [= <-]. split; [done |]. split; [apply descends_refl | done]. }
  unfold bind, lift.
  destruct (interpolateFanSpeed (g_curve g) temp) as [speed |]; [| done].
  destruct (setPWMSpeed pf (g_fanID g) speed c) as [r1 c1] eqn:Hset.
  pose proof (setPWMSpeed_same_control _ _ _ _ _ _ Hset) as Hs.
  destruct r1 as [ret1 |]; [| done].
  destruct (wf_owner c Hwf i g Hg) as [Ho (st & Hst & Hcv)].
  pose proof Hs as (Hp1 & Hc1 & Hh1 & Hg1).
  assert (Hst1 : heap c1 !! g_state g = Some st) by (by rewrite Hh1, Ho).
  destruct (set_lastTemp_spec (g_state g) temp c1 st Hst1)
    as (c2 & -> & Hp2 & Hc2 & Hg2 & _ & Hh2).
  intros [= <-].
  pose proof (same_control_well_formed _ _ Hs Hwf) as Hwf1.
  split; [by eapply (set_lastTemp_well_formed (g_state g) temp c1 c2 st) |].
  split; [| congruence].
  eapply descends_trans; [by apply same_control_descends |].
  by eapply (descends_insert c1 c2 (g_state g) st).
Qed.

Lemma mark_returned_well_formed (i : nat) g c state :
  well_formed c → goroutines c !! i = Some g →
  heap c !! g_state g = Some state → stopChannel state = ChanClosed →
  well_formed (mark_returned i g c).2.
Proof.
  intros Hwf Hg Hst Hclosed.
  pose proof (lookup_lt_Some _ _ _ Hg) as Hlt.
  destruct (wf_owner c Hwf i g Hg) as [Ho _]. rewrite Ho in Hst.
  split; simpl.
  - rewrite length_insert. apply Hwf.
  - intros j g' Hj.
    destruct (decide (j = i)) as [-> | Hne].
    + rewrite list_lookup_insert_eq in Hj by done. injection Hj as <-.
      simpl. by apply (wf_owner c Hwf i g).
    + rewrite list_lookup_insert_ne in Hj by done.
      by apply (wf_owner c Hwf j g').
  - apply Hwf.
  - intros j g' st Hj Hs Ho'.
    destruct (decide (j = i)) as [-> | Hne].
    + congruence.
    + rewrite list_lookup_insert_ne in Hj by done.
      by apply (wf_open c Hwf j g' st).
  - intros f l Hl.
    destruct (wf_registered c Hwf f l Hl)
      as (g' & st & Hg' & Hf' & Hs' & Ha').
    destruct (decide (l = i)) as [-> | Hne].
    + rewrite list_lookup_insert_eq by done.
      assert (g' = g) as -> by congruence.
      eexists _, _. split; [done |]. simpl. eauto.
    + rewrite list_lookup_insert_ne by done. by exists g', st.
Qed.

Lemma loop_iteration_well_formed pf (i : nat) choice temp c c' :
  well_formed c →
  loop_iteration pf i choice temp c = Some (Ret tt, c') →
  well_formed c' ∧ descends c c' ∧ curveStates c' = curveStates c.
Proof.
  intros Hwf. unfold loop_iteration.
  destruct (goroutines c !! i) as [g |] eqn:Hg; [| done].
  destruct (g_returned g); [done |].
  destruct choice.
  - destruct (heap c !! g_state g) as [state |] eqn:Hst; [| done].
    destruct (stopChannel state) eqn:Hch; [done |].
    intros [= <-].
    split; [by eapply mark_returned_well_formed |].
    split; [| done]. split; [done |]. simpl. eauto.
  - intros [= Htick]. by eapply tick_body_well_formed.
Qed.

Lemma step_well_formed pf c ev c' :
  well_formed c → step pf c ev c' → well_formed c' ∧ descends c c'.
Proof.
  intros Hwf Hstep. destruct Hstep as [? ? ? ? ? H | ? ? ? ? H | ? ? ? ? ? H].
  - by eapply SetSettings_well_formed.
  - apply GetSettings_same_control in H.
    split; [by eapply same_control_well_formed |].
    by apply same_control_descends.
  - destruct (loop_iteration_well_formed _ _ _ _ _ _ Hwf H) as (? & ? & _).
    done.
Qed.

Lemma run_well_formed pf c evs c' :
  well_formed c → run pf c evs c' → well_formed c' ∧ descends c c'.
Proof.
  intros Hwf Hrun. induction Hrun as [c | c ev c1 evs c2 Hstep _ IH].
  - split; [done | apply descends_refl].
  - destruct (step_well_formed _ _ _ _ Hwf Hstep) as [Hwf1 Hd1].
    destruct (IH Hwf1) as [Hwf2 Hd2].
    split; [done | by eapply descends_trans].
Qed.

Lemma reachable_well_formed pf paths evs c :
  run pf (newPlatformController paths) evs c →
  well_formed c ∧ pwmPaths c = paths.
Proof.
  intros Hrun.
  destruct (run_well_formed _ _ _ _ (well_formed_new paths) Hrun)
    as [Hwf [Hp _]].
  done.
Qed.

(** *** A platform on which every access succeeds *)

Lemma permissive_platform_sort_ok : sort_slice_ok permissive_platform.
Proof.
  intros cv. split; [apply merge_sort_Permutation |].
  apply StronglySorted_merge_sort.
  - intros p q r. unfold temperature_le. lia.
  - intros p q. unfold temperature_le. lia.
Qed.

Lemma one_fan_in_curve_mode_reachable :
  run permissive_platform one_fan
    [CallSetSettings 0 (curve_request example_curve)]
    one_fan_in_curve_mode.
Proof.
  eapply run_cons; [| apply run_nil].
  eapply (step_set _ _ _ _ None). by vm_compute.
Qed.

(** *** C8: identifiers outside the range *)

(** Above the range both methods return the not-found error and touch
    nothing. *)
Lemma fan_id_too_large_not_found pf c fanID settings :
  Z.of_nat (length (pwmPaths c)) ≤ fanID →
  GetSettings pf fanID c = (Ret (inr (ErrFanNotFound fanID)), c)
  ∧ SetSettings pf fanID settings c = (Ret (Some (ErrFanNotFound fanID)), c)
  ∧ kind_of (ErrFanNotFound fanID) = NotFoundError.
Proof.
  intros Hge. split; [by apply GetSettings_too_large |].
  split; [by apply SetSettings_too_large | done].
Qed.

(** C8 fails below the range: with the identifier -1 both methods of
    the Linux controller index [pwmPaths] out of range and panic, where
    the specification promises a not-found error. *)
Theorem fan_negative_id_panics :
  ∀ pf paths settings,
    SetSettings pf (-1) settings (newPlatformController paths)
    = (Panic, newPlatformController paths)
    ∧ GetSettings pf (-1) (newPlatformController paths)
      = (Panic, newPlatformController paths).
Proof.
  intros pf paths settings.
  split; [by apply SetSettings_negative |].
  by apply GetSettings_negative.
Qed.

(** *** C1: leaving curve mode for automatic mode *)

(** A request for automatic mode changes nothing but the access log:
    no curve state is touched. *)
Lemma SetSettings_auto_same_control pf fanID settings c r c' :
  Mode settings = ModeAuto →
  SetSettings pf fanID settings c = (r, c') → same_control c c'.
Proof.
  intros Hmode Hrun.
  destruct (SetSettings_inv _ _ _ _ _ _ Hrun)
    as [(_ & _ & ->) | [(_ & _ & ->) | (pwmPath & c1 & perr & _ & Hperm & Hrest)]];
    try apply same_control_refl.
  destruct (checkWritePermissions_spec _ _ _ _ _ Hperm) as (_ & Hs & _).
  destruct perr as [err |]; [by destruct Hrest as [_ ->] |].
  destruct (switch_mode_other _ _ _ _ _ _ _ _ ltac:(by rewrite Hmode) Hrest)
    as (_ & Hs' & _).
  by eapply same_control_trans.
Qed.

(** C1 fails: after fan 0 was put in curve mode, a successful request for
    automatic mode leaves the curve state registered and its loop
    uncancelled; the stop case cannot be taken, and the next tick at
    50 degrees writes the curve's value 153 over the automatic mode. *)
Theorem auto_mode_leaves_curve_loop_running :
  ∃ c c',
    SetSettings permissive_platform 0 (mkSettings ModeAuto 0 [])
      one_fan_in_curve_mode = (Ret None, c)
    ∧ curveStates c !! 0 = Some 0%nat
    ∧ heap c !! 0%nat = Some (mkCurveState example_curve 0 true ChanOpen)
    ∧ (GetSettings permissive_platform 0 c).1
      = Ret (inl (mkSettings ModeCurve 0 example_curve))
    ∧ loop_iteration permissive_platform 0 CaseStop 0 c = None
    ∧ loop_iteration permissive_platform 0 CaseTick 50 c
      = Some (Ret tt, c')
    ∧ trace c' = trace c ++ [EvWrite "/sys/class/hwmon/hwmon0/pwm1" 153].
Proof.
  eexists _, _.
  split; [by vm_compute |].
  split; [by vm_compute |].
  split; [by vm_compute |].
  split; [by vm_compute |].
  split; [by vm_compute |].
  split; [by vm_compute |].
  by vm_compute.
Qed.

(** *** Reaching the mode switch *)

Lemma SetSettings_reaches_switch pf fanID settings c pwmPath perr c1 :
  go_index (pwmPaths c) fanID = Ret pwmPath →
  checkWritePermissions pf [pwmPath; pwmPath +:+ "_enable"] c
  = (Ret perr, c1) →
  SetSettings pf fanID settings c
  = match perr with
    | Some err => (Ret (Some (ErrInsufficientPermissions err)), c1)
    | None => switch_mode pf fanID settings pwmPath
                (pwmPath +:+ "_enable") c1
    end.
Proof.
  intros Hidx Hperm. pose proof Hidx as Hidx'.
  apply go_index_Ret in Hidx' as [Hpos Hlook].
  pose proof (lookup_lt_Some _ _ _ Hlook) as Hlt.
  unfold SetSettings, bind, get, lift.
  replace (_ <=? fanID) with false by (symmetry; apply Z.leb_gt; lia).
  rewrite Hidx, Hperm. by destruct perr.
Qed.

Lemma interpolateFanSpeed_total (cv : list CurvePoint) (temp : Z) :
  (0 < length cv)%nat → Forall point_in_bounds cv →
  ∃ speed, interpolateFanSpeed cv temp = Ret speed.
Proof.
  intros Hlen Hb.
  destruct (lookup_lt_is_Some_2 cv 0 Hlen) as [first Hf].
  destruct (lookup_lt_is_Some_2 cv (length cv - 1) ltac:(lia)) as [last Hl].
  destruct (Z.le_gt_cases temp (Temperature first)) as [Hlow | Hlow].
  { exists (FanSpeed first). by apply interpolateFanSpeed_low. }
  destruct (Z.le_gt_cases (Temperature last) temp) as [Hhigh | Hhigh].
  { exists (FanSpeed last). by eapply interpolateFanSpeed_high. }
  destruct (interpolateFanSpeed_interior cv temp first last Hb Hf Hl
              ltac:(lia)) as (j & p & q & _ & _ & _ & _ & Hres).
  eauto.
Qed.

(** A successful request for curve mode: the permission check, the stop
    of the registered loop, the write of the enable file and the start
    of the new loop. *)
Lemma SetSettings_curve_success pf fanID settings c c' :
  well_formed c → Mode settings = ModeCurve →
  SetSettings pf fanID settings c = (Ret None, c') →
  ∃ pwmPath c1 c2 c3,
    go_index (pwmPaths c) fanID = Ret pwmPath
    ∧ same_control c c1
    ∧ stopFanCurve fanID c1 = (Ret tt, c2)
    ∧ same_control c2 c3
    ∧ c' = (startFanCurve fanID (sort_slice pf (Curve settings)) c3).2
    ∧ validate_points (sort_slice pf (Curve settings)) = None
    ∧ (2 ≤ length (Curve settings))%nat.
Proof.
  intros Hwf Hmode Hrun.
  destruct (SetSettings_inv _ _ _ _ _ _ Hrun)
    as [(_ & [=] & _) | [(_ & [=] & _) | (pwmPath & c1 & perr & Hidx & Hperm & Hrest)]].
  destruct (checkWritePermissions_spec _ _ _ _ _ Hperm) as (_ & Hs & _).
  destruct perr as [err |]; [by destruct Hrest as [[=] _] |].
  unfold switch_mode in Hrest. rewrite Hmode in Hrest.
  pose proof (same_control_well_formed _ _ Hs Hwf) as Hwf1.
  destruct (set_curve_mode_cases pf fanID settings (pwmPath +:+ "_enable")
              c1 Hwf1) as (c2 & Hstop & Hcases).
  destruct Hcases as [[_ Heq] | [(err & _ & Heq) | (Hlen & Hval & c3 & Hs3 & _ & Heq)]].
  - rewrite Heq in Hrest. discriminate.
  - rewrite Heq in Hrest. discriminate.
  - destruct Heq as [Heq | Heq]; rewrite Heq in Hrest; [discriminate |].
    injection Hrest as <-.
    exists pwmPath, c1, c2, c3. done.
Qed.

(** What such a request leaves behind. *)
Lemma SetSettings_curve_installs pf fanID settings c c' :
  well_formed c → Mode settings = ModeCurve →
  SetSettings pf fanID settings c = (Ret None, c') →
  well_formed c'
  ∧ curveStates c' !! fanID = Some (length (heap c))
  ∧ heap c' !! length (heap c)
    = Some (mkCurveState (sort_slice pf (Curve settings)) 0 true ChanOpen)
  ∧ length (heap c') = S (length (heap c))
  ∧ (∀ (l : nat), curveStates c !! fanID = Some l →
       ∃ state, heap c' !! l = Some state ∧ stopChannel state = ChanClosed)
  ∧ validate_points (sort_slice pf (Curve settings)) = None
  ∧ (2 ≤ length (Curve settings))%nat
  ∧ ∃ pwmPath, go_index (pwmPaths c) fanID = Ret pwmPath.
Proof.
  intros Hwf Hmode Hrun.
  destruct (SetSettings_well_formed _ _ _ _ _ _ Hwf Hrun) as [Hwf' _].
  destruct (SetSettings_curve_success _ _ _ _ _ Hwf Hmode Hrun)
    as (pwmPath & c1 & c2 & c3 & Hidx & Hs1 & Hstop & Hs3 & -> & Hval & Hlen).
  pose proof (same_control_well_formed _ _ Hs1 Hwf) as Hwf1.
  destruct (stopFanCurve_spec c1 fanID Hwf1)
    as (c2' & Hstop' & _ & _ & _ & _ & _ & Hheap).
  assert (c2' = c2) as -> by congruence.
  destruct Hs1 as (_ & Hc1 & Hh1 & _). destruct Hs3 as (_ & _ & Hh3 & _).
  assert (Hlen2 : length (heap c3) = length (heap c)).
  { rewrite Hh3, <- Hh1. destruct (curveStates c1 !! fanID).
    - destruct Hheap as (st & _ & ->). by rewrite length_insert.
    - by rewrite Hheap. }
  split; [done |]. simpl. rewrite Hlen2.
  split; [by rewrite lookup_insert_eq |].
  split. { rewrite lookup_app_r by lia. by rewrite Hlen2, Nat.sub_diag. }
  split. { rewrite length_app. simpl. lia. }
  split; [| eauto].
  intros l Hl. rewrite <- Hc1 in Hl. rewrite Hl in Hheap.
  destruct Hheap as (st & Hst & Hh2).
  pose proof (lookup_lt_Some _ _ _ Hst) as Hlt.
  eexists. split.
  { rewrite lookup_app_l by (rewrite Hlen2, <- Hh1; done).
    rewrite Hh3, Hh2. by rewrite list_lookup_insert_eq. }
  done.
Qed.

(** *** C10: an invalid curve while a loop is running *)

(** C10.  When [SetSettings] is asked for curve mode with an invalid
    curve (fewer than two points, or a point out of bounds) while a
    curve state is registered for the fan, and the call reaches the mode
    switch (the identifier is in range and the permission check passes),
    the call returns a validation error after it has stopped the
    running loop: the state is unregistered, marked inactive and its
    stop channel closed, nothing is restored, the fan has no active loop
    left, and the call has written nothing to the hardware. *)
Theorem invalid_curve_stops_running_loop :
  ∀ pf paths evs c fanID settings (l : nat) pwmPath c1,
    sort_slice_ok pf →
    run pf (newPlatformController paths) evs c →
    Mode settings = ModeCurve → invalid_curve (Curve settings) →
    curveStates c !! fanID = Some l →
    go_index (pwmPaths c) fanID = Ret pwmPath →
    checkWritePermissions pf [pwmPath; pwmPath +:+ "_enable"] c
    = (Ret None, c1) →
    ∃ err c' state,
      SetSettings pf fanID settings c = (Ret (Some err), c')
      ∧ kind_of err = ValidationError
      ∧ active_loop c fanID l
      ∧ heap c !! l = Some state
      ∧ heap c' = <[l := mkCurveState (curve state) (lastTemp state)
                           false ChanClosed]> (heap c)
      ∧ curveStates c' = delete fanID (curveStates c)
      ∧ goroutines c' = goroutines c
      ∧ (∀ i : nat, ¬ active_loop c' fanID i)
      ∧ ∃ written, logged c c' written ∧ no_writes written.
Proof.
  intros pf paths evs c fanID settings l pwmPath c1 Hsort Hreach Hmode
    Hbad Hreg Hidx Hperm.
  destruct (reachable_well_formed _ _ _ _ Hreach) as [Hwf _].
  destruct (checkWritePermissions_spec _ _ _ _ _ Hperm)
    as (_ & Hs & written & Hlog & Hnw).
  pose proof (same_control_well_formed _ _ Hs Hwf) as Hwf1.
  destruct Hs as (Hp1 & Hc1 & Hh1 & Hg1).
  destruct (stopFanCurve_spec c1 fanID Hwf1)
    as (c2 & Hstop & Hwf2 & Hcs2 & _ & Hg2 & Ht2 & Hheap).
  rewrite Hc1, Hreg, Hh1 in Hheap. destruct Hheap as (state & Hst & Hh2).
  assert (Hresult : ∃ err, kind_of err = ValidationError
            ∧ SetSettings pf fanID settings c = (Ret (Some err), c2)).
  { rewrite (SetSettings_reaches_switch _ _ _ _ _ _ _ Hidx Hperm).
    unfold switch_mode. rewrite Hmode.
    destruct (set_curve_mode_cases pf fanID settings
                (pwmPath +:+ "_enable") c1 Hwf1) as (c2' & Hstop' & Hcases).
    assert (c2' = c2) as -> by congruence.
    destruct Hcases as [[_ Heq] | [(err & Hval & Heq) | (Hlen & Hval & _)]].
    - by exists ErrCurveTooShort.
    - exists err. split; [by eapply validate_points_kind | done].
    - exfalso. destruct Hbad as [Hshort | Hout]; [lia |].
      apply Hout. apply validate_points_None in Hval.
      destruct (Hsort (Curve settings)) as [Hperm' _].
      by rewrite <- Hperm'. }
  destruct Hresult as (err & Hkind & Hrun).
  exists err, c2, state.
  split; [done |]. split; [done |].
  split; [by apply registered_active_loop |].
  split; [done |]. split; [done |].
  split; [by rewrite Hcs2, Hc1 |].
  split; [by rewrite Hg2 |].
  split.
  - intros i Hact.
    pose proof (active_loop_registered _ _ _ Hwf2 Hact) as Hreg2.
    by rewrite Hcs2, lookup_delete_eq in Hreg2.
  - exists written. split; [| done]. unfold logged in *. by rewrite Ht2.
Qed.

Lemma invalid_curve_stops_running_loop_witness :
  ∃ err c' state,
    SetSettings permissive_platform 0 (curve_request [mkPoint 0 20; mkPoint 50 150])
      one_fan_in_curve_mode = (Ret (Some err), c')
    ∧ kind_of err = ValidationError
    ∧ active_loop one_fan_in_curve_mode 0 0
    ∧ heap one_fan_in_curve_mode !! 0%nat = Some state
    ∧ heap c' = <[0%nat := mkCurveState (curve state) (lastTemp state)
                             false ChanClosed]>
                  (heap one_fan_in_curve_mode)
    ∧ curveStates c' = delete 0 (curveStates one_fan_in_curve_mode)
    ∧ goroutines c' = goroutines one_fan_in_curve_mode
    ∧ (∀ i : nat, ¬ active_loop c' 0 i)
    ∧ ∃ written, logged one_fan_in_curve_mode c' written
                 ∧ no_writes written.
Proof.
  eapply (invalid_curve_stops_running_loop permissive_platform
            ["/sys/class/hwmon/hwmon0/pwm1"]
            [CallSetSettings 0 (curve_request example_curve)]
            one_fan_in_curve_mode 0
            (curve_request [mkPoint 0 20; mkPoint 50 150]) 0%nat).
  - apply permissive_platform_sort_ok.
  - apply one_fan_in_curve_mode_reachable.
  - reflexivity.
  - right. intros Hall. apply Forall_cons in Hall as [_ Hall].
    apply Forall_cons in Hall as [[_ Hspeed] _]. simpl in Hspeed. lia.
  - by vm_compute.
  - by vm_compute.
  - by vm_compute.
Defined.

(** C10, the counterexample.  The running loop is stopped only by a call
    that passes the permission check.  Here the control files can no
    longer be opened for writing once the first call has put fan 0 in
    curve mode: the request with the invalid curve then returns the
    permission error, which is no validation error, and the loop that
    was running stays registered and active. *)
Lemma invalid_curve_without_permission_keeps_loop :
  run revoking_platform one_fan
    [CallSetSettings 0 (curve_request example_curve)] one_fan_revoked
  ∧ curveStates one_fan_revoked !! 0 = Some 0%nat
  ∧ active_loop one_fan_revoked 0 0
  ∧ invalid_curve [mkPoint 0 20; mkPoint 50 150]
  ∧ ∃ c',
      SetSettings revoking_platform 0
        (curve_request [mkPoint 0 20; mkPoint 50 150]) one_fan_revoked
      = (Ret (Some (ErrInsufficientPermissions
                      (ErrNoWritePermission "/sys/class/hwmon/hwmon0/pwm1"))),
         c')
      ∧ kind_of (ErrInsufficientPermissions
                   (ErrNoWritePermission "/sys/class/hwmon/hwmon0/pwm1"))
        ≠ ValidationError
      ∧ curveStates c' = curveStates one_fan_revoked
      ∧ heap c' = heap one_fan_revoked
      ∧ goroutines c' = goroutines one_fan_revoked
      ∧ active_loop c' 0 0.
Proof.
  assert (Hactive : active_loop one_fan_revoked 0 0).
  { split; [eexists _, _ | eexists]; by vm_compute. }
  split.
  { eapply run_cons; [| apply run_nil].
    eapply (step_set _ _ _ _ None). by vm_compute. }
  split; [by vm_compute |]. split; [exact Hactive |].
  split.
  { right. intros Hall. apply Forall_cons in Hall as [_ Hall].
    apply Forall_cons in Hall as [[_ Hspeed] _]. simpl in Hspeed. lia. }
  eexists. split; [by vm_compute |].
  split; [done |]. split; [by vm_compute |]. split; [by vm_compute |].
  split; [by vm_compute |].
  split; [eexists _, _ | eexists]; by vm_compute.
Qed.

(** *** C7: one loop per fan *)

(** A cancelled loop that takes its stop case returns, and a goroutine
    that has returned takes no further step. *)
Lemma cancelled_loop_returns pf (i : nat) temp c c' :
  loop_iteration pf i CaseStop temp c = Some (Ret tt, c') →
  ∀ choice temp', loop_iteration pf i choice temp' c' = None.
Proof.
  unfold loop_iteration.
  destruct (goroutines c !! i) as [g |] eqn:Hg; [| done].
  destruct (g_returned g); [done |].
  destruct (heap c !! g_state g) as [state |]; [| done].
  destruct (stopChannel state); [done |].
  intros [= <-] choice temp'. simpl.
  rewrite list_lookup_insert_eq by (by eapply lookup_lt_Some). done.
Qed.

Lemma flat_curve_constant temp :
  interpolateFanSpeed flat_curve temp = Ret 100.
Proof.
  unfold interpolateFanSpeed, flat_curve. simpl.
  destruct (temp <=? 0) eqn:Hlow; [done |].
  destruct (100 <=? temp) eqn:Hhigh; [done |].
  rewrite Z.leb_gt in Hlow, Hhigh.
  replace (0 <=? temp) with true by (symmetry; apply Z.leb_le; lia).
  replace (temp <=? 100) with true by (symmetry; apply Z.leb_le; lia).
  done.
Qed.

(** C7 as stated fails.  Fan 0 is put in curve mode with
    [example_curve] and then with [flat_curve]; both calls succeed.  The
    first loop has been cancelled, but its goroutine has not yet passed
    through its [select]; when it does and the ticker case is taken, it
    writes 153, the first curve's value at 50 degrees, which the second
    curve yields at no temperature. *)
Lemma cancelled_loop_writes_first_curve :
  ∃ c2 c3,
    SetSettings permissive_platform 0 (curve_request flat_curve)
      one_fan_in_curve_mode = (Ret None, c2)
    ∧ step permissive_platform c2 (LoopSelect 0 CaseTick 50) c3
    ∧ logged c2 c3 [EvWrite "/sys/class/hwmon/hwmon0/pwm1" 153]
    ∧ ¬ only_curve_values (sort_slice permissive_platform flat_curve)
          "/sys/class/hwmon/hwmon0/pwm1"
          [EvWrite "/sys/class/hwmon/hwmon0/pwm1" 153].
Proof.
  eexists _, _.
  split; [by vm_compute |].
  split; [apply step_loop; by vm_compute |].
  split; [by vm_compute |].
  intros Honly.
  destruct (Honly 153 ltac:(apply list_elem_of_In; by left))
    as (temp & speed & Hinterp & Hval).
  change (sort_slice permissive_platform flat_curve) with flat_curve
    in Hinterp.
  rewrite flat_curve_constant in Hinterp. injection Hinterp as <-.
  by vm_compute in Hval.
Qed.

(** C7, amended.  In every state of the running controller a fan has at
    most one active sampling loop.  When curve mode is requested for a
    fan twice in succession and both calls succeed, the first call
    starts a loop, the second call cancels that loop and unregisters its
    state before it installs the state of the second curve and starts
    the second loop, which is then the only active loop of the fan; and
    from then on, for as long as that state stays registered, each pass
    of an active loop of the fan through the ticker case of its
    [select] writes the value the second curve (sorted) yields at the
    sampled temperature, or nothing when no temperature could be read.
    The cancelled loop is not waited for. *)
Theorem curve_mode_replaces_running_loop :
  (∀ pf paths evs c fanID (i j : nat),
     run pf (newPlatformController paths) evs c →
     active_loop c fanID i → active_loop c fanID j → i = j)
  ∧ ∀ pf paths evs c fanID first_request second_request c1 c2,
      sort_slice_ok pf →
      run pf (newPlatformController paths) evs c →
      Mode first_request = ModeCurve → Mode second_request = ModeCurve →
      SetSettings pf fanID first_request c = (Ret None, c1) →
      SetSettings pf fanID second_request c1 = (Ret None, c2) →
      let first := length (heap c) in
      let second := length (heap c1) in
      let second_curve := sort_slice pf (Curve second_request) in
      active_loop c1 fanID first
      ∧ ¬ uncancelled c2 first
      ∧ curveStates c2 !! fanID = Some second
      ∧ heap c2 !! second = Some (mkCurveState second_curve 0 true ChanOpen)
      ∧ (∀ i : nat, active_loop c2 fanID i ↔ i = second)
      ∧ ∃ pwmPath,
          go_index paths fanID = Ret pwmPath
          ∧ ∀ later c3 (i : nat) temp,
              run pf c2 later c3 →
              curveStates c3 !! fanID = Some second →
              active_loop c3 fanID i →
              ∃ c4,
                loop_iteration pf i CaseTick temp c3 = Some (Ret tt, c4)
                ∧ if decide (0 < temp)
                  then ∃ speed,
                         interpolateFanSpeed second_curve temp = Ret speed
                         ∧ logged c3 c4
                             [EvWrite pwmPath (pwm_of_percent speed)]
                  else c4 = c3.
Proof.
  split.
  { intros pf paths evs c fanID i j Hreach.
    destruct (reachable_well_formed _ _ _ _ Hreach) as [Hwf _].
    by apply active_loop_unique. }
  intros pf paths evs c fanID sA sB c1 c2 Hsort Hreach HmA HmB HA HB
    first second second_curve.
  destruct (reachable_well_formed _ _ _ _ Hreach) as [Hwf Hpaths].
  destruct (SetSettings_curve_installs _ _ _ _ _ Hwf HmA HA)
    as (Hwf1 & Hreg1 & _ & _ & _ & _ & _ & pwmPath & Hidx).
  destruct (SetSettings_curve_installs _ _ _ _ _ Hwf1 HmB HB)
    as (Hwf2 & Hreg2 & Hnew & _ & Hclosed & Hval & Hlen & _).
  fold first in Hreg1. fold second in Hreg2, Hnew.
  fold second_curve in Hnew, Hval.
  split; [by apply registered_active_loop |].
  split.
  { intros (g & state & Hg & _ & Hst & Hopen).
    destruct (wf_owner c2 Hwf2 first g Hg) as [Hown _].
    rewrite Hown in Hst.
    destruct (Hclosed first Hreg1) as (state' & Hst' & Hcl). congruence. }
  split; [done |]. split; [done |].
  split.
  { intros i. split.
    - intros Hact.
      pose proof (active_loop_registered _ _ _ Hwf2 Hact). congruence.
    - intros ->. by apply registered_active_loop. }
  exists pwmPath. split; [by rewrite <- Hpaths |].
  intros later c3 i temp Hrun Hreg3 Hact.
  destruct (run_well_formed _ _ _ _ Hwf2 Hrun) as [Hwf3 [Hp3 Hheap3]].
  pose proof (active_loop_registered _ _ _ Hwf3 Hact) as Hi.
  assert (i = second) as -> by congruence.
  destruct Hact as [(g & state & Hg & Hret & Hst & _) (g' & Hg' & Hfan)].
  assert (g' = g) as -> by congruence.
  destruct (wf_owner c3 Hwf3 second g Hg) as [Hown (st & Hst3 & Hcv)].
  destruct (Hheap3 second _ Hnew) as (st' & Hst' & Hcv').
  assert (Hcurve : g_curve g = second_curve).
  { rewrite <- Hcv. assert (st = st') as -> by congruence. done. }
  unfold loop_iteration. rewrite Hg, Hret. unfold tick_body.
  destruct (decide (0 < temp)) as [Hpos | Hneg].
  2: { replace (0 <? temp) with false by (symmetry; apply Z.ltb_ge; lia).
       by exists c3. }
  replace (0 <? temp) with true by (symmetry; apply Z.ltb_lt; lia).
  destruct (interpolateFanSpeed_total second_curve temp) as [speed Hspeed].
  { destruct (Hsort (Curve sB)) as [Hperm _].
    unfold second_curve. rewrite Hperm. lia. }
  { by apply validate_points_None. }
  assert (Hidx3 : go_index (pwmPaths c3) fanID = Ret pwmPath).
  { rewrite Hp3.
    destruct (SetSettings_well_formed _ _ _ _ _ _ Hwf1 HB) as [_ [-> _]].
    destruct (SetSettings_well_formed _ _ _ _ _ _ Hwf HA) as [_ [-> _]].
    done. }
  destruct (setPWMSpeed_in_range pf fanID speed c3 pwmPath Hidx3)
    as (ret1 & c3' & Hset & Hs & Hlog).
  assert (Hst3' : heap c3' !! g_state g = Some st).
  { destruct Hs as (_ & _ & -> & _). by rewrite Hown. }
  destruct (set_lastTemp_spec (g_state g) temp c3' st Hst3')
    as (c4 & Hlast & _ & _ & _ & Htr & _).
  exists c4. unfold bind, lift. rewrite Hcurve, Hspeed, Hfan, Hset, Hlast.
  split; [done |]. exists speed. split; [done |].
  unfold logged in *. by rewrite Htr.
Qed.

Lemma curve_mode_replaces_running_loop_witness :
  let c1 := one_fan_in_curve_mode in
  let c2 := (SetSettings permissive_platform 0 (curve_request flat_curve)
               c1).2 in
  active_loop c1 0 0
  ∧ ¬ uncancelled c2 0
  ∧ curveStates c2 !! 0 = Some 1%nat
  ∧ (∀ i : nat, active_loop c2 0 i ↔ i = 1%nat)
  ∧ ∃ c4, loop_iteration permissive_platform 1 CaseTick 50 c2
          = Some (Ret tt, c4)
          ∧ logged c2 c4 [EvWrite "/sys/class/hwmon/hwmon0/pwm1" 255].
Proof.
  intros c1 c2.
  destruct curve_mode_replaces_running_loop as [_ H].
  destruct (H permissive_platform ["/sys/class/hwmon/hwmon0/pwm1"] []
              one_fan 0 (curve_request example_curve)
              (curve_request flat_curve) c1 c2
              permissive_platform_sort_ok (run_nil _ _) eq_refl eq_refl
              ltac:(by vm_compute) ltac:(by vm_compute))
    as (Hfirst & Hcancelled & Hreg & _ & Honly & pwmPath & Hpath & Hlater).
  split; [exact Hfirst |]. split; [exact Hcancelled |].
  split; [exact Hreg |]. split; [exact Honly |].
  destruct (Hlater [] c2 1%nat 50 (run_nil _ _) Hreg
              (proj2 (Honly 1%nat) eq_refl)) as (c4 & Hc4 & Hw).
  exists c4. split; [exact Hc4 |].
  destruct (decide (0 < 50)) as [_ | Hcontra]; [| lia].
  destruct Hw as (speed & Hspeed & Hlog).
  change (sort_slice permissive_platform (Curve (curve_request flat_curve)))
    with flat_curve in Hspeed.
  rewrite flat_curve_constant in Hspeed. injection Hspeed as <-.
  injection Hpath as <-. exact Hlog.
Defined.

End linux_controller.

(** ** Validation of overclock settings *)

Section validation.
Import overclock.

Lemma range_check (lo hi v : Z) :
  (v <? lo) || (hi <? v) = false ↔ within lo hi v.
Proof.
  unfold within. rewrite orb_false_iff, !Z.ltb_ge. lia.
Qed.

Lemma exempt_range_check (lo hi v : Z) :
  negb (v =? 0) && ((v <? lo) || (hi <? v)) = false
  ↔ v = 0 ∨ within lo hi v.
Proof.
  rewrite andb_false_iff, negb_false_iff, Z.eqb_eq, range_check. done.
Qed.

Lemma exempt_voltage_check (v : Q) :
  negb (Qeq_bool v (of_int 0))
  && (flt v (of_int (-100)) || flt (of_int 100) v) = false
  ↔ (v == 0 ∨ -100 # 1 <= v <= 100 # 1)%Q.
Proof.
  unfold flt, of_int.
  rewrite andb_false_iff, negb_false_iff, orb_false_iff, !negb_false_iff.
  rewrite Qeq_bool_iff, !Qle_bool_iff. done.
Qed.

(** The Windows controller exempts the zero sentinel: a record passes
    exactly when each field is zero or within its closed range (zero lies
    within the fan speed's range). *)
Lemma Windows_validateSettings_exempts_sentinel (s : Settings) :
  Windows.validateSettings (Some s) = None ↔
    (CoreClockOffset s = 0 ∨ within (-500) 500 (CoreClockOffset s))
    ∧ (MemoryClockOffset s = 0 ∨ within (-1000) 1000 (MemoryClockOffset s))
    ∧ (PowerLimit s = 0 ∨ within 50 150 (PowerLimit s))
    ∧ (TempLimit s = 0 ∨ within 60 95 (TempLimit s))
    ∧ within 0 100 (FanSpeed s)
    ∧ (VoltageOffset s == 0 ∨ -100 # 1 <= VoltageOffset s <= 100 # 1)%Q.
Proof.
  rewrite <- !exempt_range_check, <- range_check, <- exempt_voltage_check.
  unfold Windows.validateSettings.
  repeat match goal with
         | |- context [if ?b then _ else _] =>
             destruct b eqn:?;
               [split; [done | intros (? & ? & ? & ? & ? & ?); congruence] |]
         end.
  done.
Qed.

(** C6 fails on Linux: the Linux controller checks the power limit of
    every record, so a record whose power limit holds the sentinel is
    rejected whatever its other fields are, the all-sentinel record with
    the power limit error; the Windows controller accepts that record. *)
Theorem Linux_validateSettings_rejects_sentinel :
  (∀ deviceID core memory temp fan voltage,
     Linux.validateSettings
       (Some (mkSettings deviceID core memory 0 temp fan voltage)) ≠ None)
  ∧ Linux.validateSettings (Some no_change) = Some ErrPowerLimit
  ∧ Windows.validateSettings (Some no_change) = None.
Proof.
  split; [| by vm_compute].
  intros deviceID core memory temp fan voltage.
  unfold Linux.validateSettings. simpl.
  destruct (_ || _); [done |]. destruct (_ || _); done.
Qed.

End validation.

(** ** The profile store *)

Section profiles.
Import overclock.

Lemma read_profile_Some h name ent p :
  read_profile h name ent = Some p →
  ∃ data, ent = File (Some data) ∧ name ≠ "_current.json"
          ∧ Ext name = ".json" ∧ Unmarshal h data = Some p.
Proof.
  unfold read_profile. destruct ent as [| [data |]]; try done.
  - destruct (String.eqb_spec (Ext name) ".json") as [Hext |]; [| done].
    destruct (String.eqb_spec name "_current.json") as [| Hne]; [done |].
    simpl. intros Hp. by exists data.
  - by destruct (_ && _).
Qed.

(** What [GetProfiles] lists: the profiles that decode from the files
    of the directory with the extension [.json], [_current.json]
    apart. *)
Lemma GetProfiles_listed h m p :
  p ∈ GetProfiles h m ↔
  ∃ d name data,
    dir m = Some d ∧ d !! name = Some (File (Some data))
    ∧ name ≠ "_current.json" ∧ Ext name = ".json"
    ∧ Unmarshal h data = Some p.
Proof.
  unfold GetProfiles. split.
  - destruct (dir m) as [d |]; [| by intros ?%elem_of_nil].
    intros Hin. apply list_elem_of_omap in Hin as ([name ent] & Hne & Hread).
    apply elem_of_map_to_list in Hne. simpl in Hread.
    apply read_profile_Some in Hread as (data & -> & Hname & Hext & Hp).
    by exists d, name, data.
  - intros (d & name & data & -> & Hf & Hne & Hext & Hp).
    apply list_elem_of_omap. exists (name, File (Some data)).
    split; [by apply elem_of_map_to_list |]. simpl.
    rewrite Hext. simpl.
    by destruct (String.eqb_spec name "_current.json").
Qed.

Lemma GetProfiles_elem h m p :
  p ∈ GetProfiles h m →
  ∃ d name data,
    dir m = Some d ∧ d !! name = Some (File (Some data))
    ∧ name ≠ "_current.json" ∧ Unmarshal h data = Some p.
Proof.
  intros (d & name & data & ? & ? & ? & _ & ?)%GetProfiles_listed.
  by exists d, name, data.
Qed.

Lemma unlisted_current h : unlisted h "_current.json".
Proof.
  intros ent. unfold read_profile. destruct ent as [| data]; [done |].
  by rewrite andb_false_r.
Qed.

Lemma unlisted_extension h name : Ext name ≠ ".json" → unlisted h name.
Proof.
  intros Hext ent. unfold read_profile. destruct ent as [| data]; [done |].
  by destruct (String.eqb_spec (Ext name) ".json").
Qed.

(** Entries that [GetProfiles] passes over do not bear on the listing. *)
Lemma listing_delete h (d : gmap string entry) name :
  unlisted h name →
  omap (λ ne, read_profile h ne.1 ne.2) (map_to_list (delete name d))
  ≡ₚ omap (λ ne, read_profile h ne.1 ne.2) (map_to_list d).
Proof.
  intros Hun. destruct (d !! name) as [ent |] eqn:Hent.
  - rewrite <- (map_to_list_delete d name ent Hent). simpl.
    by rewrite (Hun ent).
  - by rewrite delete_id.
Qed.

Lemma listing_insert h (d : gmap string entry) name ent :
  unlisted h name →
  omap (λ ne, read_profile h ne.1 ne.2) (map_to_list (<[name := ent]> d))
  ≡ₚ omap (λ ne, read_profile h ne.1 ne.2) (map_to_list d).
Proof.
  intros Hun. rewrite <- (listing_delete h d name Hun).
  rewrite <- insert_delete_eq.
  rewrite map_to_list_insert by apply lookup_delete_eq.
  simpl. by rewrite (Hun ent).
Qed.

Lemma GetProfiles_without_current h m :
  GetProfiles h (without_current m) ≡ₚ GetProfiles h m.
Proof.
  unfold GetProfiles, without_current. simpl.
  destruct (dir m) as [d |]; [| done]. simpl.
  apply listing_delete, unlisted_current.
Qed.

(** *** Paths *)

Lemma length_append (a b : string) :
  String.length (a +:+ b) = (String.length a + String.length b)%nat.
Proof.
  induction a as [| ch a IH]; [done |].
  change (String ch a +:+ b) with (String ch (a +:+ b)). simpl. by rewrite IH.
Qed.

Lemma append_assoc (a b c : string) : (a +:+ b) +:+ c = a +:+ (b +:+ c).
Proof.
  induction a as [| ch a IH]; [done |].
  change (String ch ((a +:+ b) +:+ c) = String ch (a +:+ (b +:+ c))).
  by rewrite IH.
Qed.



Lemma Ext_txt (name : string) : Ext (name +:+ ".txt") = ".txt".
Proof.
  unfold Ext.
  assert (ext_scan (name +:+ ".txt") = Some ".txt") as ->; [| done].
  induction name as [| ch name IH]; [done |].
  change (String ch name +:+ ".txt") with (String ch (name +:+ ".txt")).
  simpl. by rewrite IH.
Qed.

Lemma separator_free_app w (a b : string) :
  separator_free w (a +:+ b) = separator_free w a && separator_free w b.
Proof.
  induction a as [| ch a IH]; [done |].
  change (String ch a +:+ b) with (String ch (a +:+ b)). simpl.
  by rewrite IH, andb_assoc.
Qed.

Lemma elements_nonempty w path : elements w path ≠ [].
Proof.
  destruct path as [| ch rest]; [done |]. simpl.
  destruct (is_separator w ch); [done |]. by destruct (elements w rest).
Qed.

(** A path without separators is its own single element. *)
Lemma elements_plain w path :
  separator_free w path = true → elements w path = [path].
Proof.
  induction path as [| ch rest IH]; [done |]. simpl.
  intros [Hch Hrest]%andb_true_iff. apply negb_true_iff in Hch.
  by rewrite Hch, (IH Hrest).
Qed.

(** The last element of a path ends as the path does. *)
Lemma elements_suffix w path sfx :
  separator_free w sfx = true →
  ∃ init c, elements w (path +:+ sfx) = init ++ [c +:+ sfx].
Proof.
  intros Hsfx. induction path as [| ch rest IH].
  - exists [], "". by rewrite elements_plain.
  - destruct IH as (init & c & IH).
    change (String ch rest +:+ sfx) with (String ch (rest +:+ sfx)). simpl.
    rewrite IH. destruct (is_separator w ch).
    + by exists ("" :: init), c.
    + destruct init as [| first init]; simpl.
      * by exists [], (String ch c).
      * by exists (String ch first :: init), c.
Qed.

Lemma clean_step_push rooted stack element :
  (2 < String.length element)%nat →
  clean_step rooted stack element = element :: stack.
Proof.
  intros Hlen. unfold clean_step.
  destruct (String.eqb_spec element "") as [-> | _]; [simpl in Hlen; lia |].
  destruct (String.eqb_spec element ".") as [-> | _]; [simpl in Hlen; lia |].
  destruct (String.eqb_spec element "..") as [-> | _];
    [simpl in Hlen; lia | done].
Qed.

(** A name without separators denotes the entry of that name. *)
Lemma locate_plain h name :
  separator_free (windows h) name = true → (2 < String.length name)%nat →
  locate h name = InDirectory name.
Proof.
  intros Hfree Hlen. unfold locate. rewrite (elements_plain _ _ Hfree).
  simpl. rewrite (clean_step_push _ _ _ Hlen).
  rewrite bool_decide_eq_true_2 by done.
  destruct (String.eqb_spec name "..") as [-> | _]; [simpl in Hlen; lia |].
  done.
Qed.

(** The entry a path denotes, if any, ends as the path does. *)
Lemma locate_suffix h path sfx name :
  separator_free (windows h) sfx = true → (2 < String.length sfx)%nat →
  locate h (path +:+ sfx) = InDirectory name →
  ∃ c, name = c +:+ sfx.
Proof.
  intros Hfree Hlen. unfold locate.
  destruct (elements_suffix (windows h) path sfx Hfree) as (init & c & ->).
  rewrite fold_left_app. simpl.
  rewrite clean_step_push by (rewrite length_append; lia).
  destruct (_ && _); [| done]. intros [= <-]. by exists c.
Qed.

Lemma locate_current h : locate h "_current.json" = InDirectory "_current.json".
Proof.
  apply locate_plain; [| simpl; lia].
  unfold separator_free, is_separator. by destruct (windows h).
Qed.

Lemma pretty_N_go_separator_free w (x : N) (s : string) :
  separator_free w s = true → separator_free w (pretty_N_go x s) = true.
Proof.
  revert s. induction (N.lt_wf_0 x) as [x _ IH]; intros s Hs.
  assert (x = 0 ∨ 0 < x)%N as [-> | Hpos] by lia.
  - by rewrite pretty_N_go_0.
  - rewrite pretty_N_go_step by done. apply IH; [by apply N.div_lt |].
    simpl. rewrite Hs, andb_true_r.
    unfold pretty_N_char, is_separator.
    by repeat case_match; destruct w.
Qed.

(** The decimal rendering of an integer holds no separator. *)
Lemma pretty_Z_separator_free w (z : Z) : separator_free w (pretty z) = true.
Proof.
  assert (Hpos : ∀ p : positive, separator_free w (pretty p) = true).
  { intros p. unfold pretty, pretty_positive, pretty, pretty_N.
    destruct (decide (N.pos p = 0%N)); [done |].
    by apply pretty_N_go_separator_free. }
  unfold pretty, pretty_Z.
  destruct z as [| p | p]; [by destruct w | apply Hpos |].
  rewrite separator_free_app, Hpos.
  unfold separator_free, is_separator. by destruct w.
Qed.

(** The temporary configuration is the entry of its name. *)
Lemma locate_config h s : locate h (config_name s) = InDirectory (config_name s).
Proof.
  unfold config_name. apply locate_plain.
  - rewrite !separator_free_app, pretty_Z_separator_free.
    unfold separator_free, is_separator. by destruct (windows h).
  - rewrite !length_append. simpl. lia.
Qed.

Lemma unlisted_config h s : unlisted h (config_name s).
Proof.
  apply unlisted_extension. unfold config_name.
  rewrite <- append_assoc, Ext_txt. done.
Qed.

(** *** Writing and removing *)

Lemma put_log h path data ev ok m :
  log (put h path data ev ok m).2 = log m ++ [ev].
Proof.
  unfold put. destruct (locate h path) as [name | file].
  - destruct (dir m) as [d |]; [| done].
    by destruct (d !! name) as [[| old] |], ok.
  - by destruct (outside m !! file) as [[| old] |], ok.
Qed.


(** A write to an entry of the directory. *)
Lemma put_inside h path name data ev ok m :
  locate h path = InDirectory name →
  outside (put h path data ev ok m).2 = outside m
  ∧ if (put h path data ev ok m).1
    then ∃ d, dir m = Some d ∧ d !! name ≠ Some Directory
              ∧ dir (put h path data ev ok m).2
                = Some (<[name := File (Some data)]> d)
    else dir (put h path data ev ok m).2 = dir m.
Proof.
  intros Hloc. unfold put. rewrite Hloc.
  destruct (dir m) as [d |] eqn:Hd; [| done].
  destruct (d !! name) as [[| old] |] eqn:Hold; [done | |];
    (destruct ok; simpl; [| done]); (split; [done |]); exists d;
    by rewrite Hold.
Qed.

(** A write to a file elsewhere. *)
Lemma put_elsewhere h path file data ev ok m :
  locate h path = Elsewhere file →
  dir (put h path data ev ok m).2 = dir m
  ∧ outside (put h path data ev ok m).2
    = if (put h path data ev ok m).1
      then <[file := File (Some data)]> (outside m) else outside m.
Proof.
  intros Hloc. unfold put. rewrite Hloc.
  by destruct (outside m !! file) as [[| old] |], ok.
Qed.

(** What was written can be read by the same path. *)
Lemma put_read h path data ev ok m :
  (put h path data ev ok m).1 = true →
  read_path h path (put h path data ev ok m).2 = Some data.
Proof.
  intros Hok. unfold read_path, ReadFile.
  destruct (locate h path) as [name | file] eqn:Hloc.
  - destruct (put_inside h path name data ev ok m Hloc) as [_ Hdir].
    rewrite Hok in Hdir. destruct Hdir as (d & _ & _ & ->).
    by rewrite lookup_insert_eq.
  - destruct (put_elsewhere h path file data ev ok m Hloc) as [_ Hout].
    rewrite Hok in Hout. by rewrite Hout, lookup_insert_eq.
Qed.

(** Writing to a path that leads to no listed entry keeps the listing. *)
Lemma put_listing h path data ev ok m :
  (∀ name, locate h path = InDirectory name → unlisted h name) →
  GetProfiles h (put h path data ev ok m).2 ≡ₚ GetProfiles h m.
Proof.
  intros Hun. unfold GetProfiles.
  destruct (locate h path) as [name | file] eqn:Hloc.
  - destruct (put_inside h path name data ev ok m Hloc) as [_ Hdir].
    destruct (put h path data ev ok m).1.
    + destruct Hdir as (d & -> & _ & ->). by apply listing_insert, Hun.
    + by rewrite Hdir.
  - destruct (put_elsewhere h path file data ev ok m Hloc) as [-> _]. done.
Qed.


(** Removing an entry that is not listed keeps the listing. *)
Lemma remove_listing h path ev ok m :
  (∀ name, locate h path = InDirectory name → unlisted h name) →
  GetProfiles h (remove h path ev ok m) ≡ₚ GetProfiles h m.
Proof.
  intros Hun. unfold GetProfiles, remove.
  destruct ok; [| done].
  destruct (locate h path) as [name | file]; [| done]. simpl.
  destruct (dir m) as [d |]; [| done]. simpl.
  by apply listing_delete, Hun.
Qed.

Lemma record_listing h ev m : GetProfiles h (record ev m) = GetProfiles h m.
Proof. done. Qed.

(** After a write the listing holds what it held, and what the written
    data decodes to. *)
Lemma put_listed h path data ev ok m p :
  p ∈ GetProfiles h (put h path data ev ok m).2 →
  p ∈ GetProfiles h m ∨ Unmarshal h data = Some p.
Proof.
  destruct (locate h path) as [name | file] eqn:Hloc.
  - destruct (put_inside h path name data ev ok m Hloc) as [_ Hdir].
    destruct (put h path data ev ok m).1.
    + destruct Hdir as (d & Hd & _ & Hd').
      intros (d' & name' & data' & Hd'' & Hf & Hne & Hext & Hp)%GetProfiles_listed.
      rewrite Hd' in Hd''. injection Hd'' as <-.
      destruct (decide (name' = name)) as [-> | Hother].
      * rewrite lookup_insert_eq in Hf. injection Hf as <-. by right.
      * rewrite lookup_insert_ne in Hf by done.
        left. apply GetProfiles_listed. by exists d, name', data'.
    + unfold GetProfiles. rewrite Hdir. by left.
  - destruct (put_elsewhere h path file data ev ok m Hloc) as [Hdir _].
    unfold GetProfiles. rewrite Hdir. by left.
Qed.

Lemma save_current_listing h settings m :
  GetProfiles h (save_current h settings m).2 ≡ₚ GetProfiles h m.
Proof.
  unfold save_current. destruct (MarshalIndent h _) as [data |]; [| done].
  unfold WriteFile.
  pose proof (put_listing h "_current.json" data
                (SysWriteFile "_current.json" data)
                (write_ok h (log m) "_current.json" data) m) as Hput.
  destruct (put h _ data _ _ m) as [ok m1]. simpl in Hput.
  assert (GetProfiles h m1 ≡ₚ GetProfiles h m) as Hm1.
  { apply Hput. intros name. rewrite locate_current. intros [= <-].
    apply unlisted_current. }
  by destruct ok.
Qed.

Lemma Linux_SetSettings_listing h settings m :
  GetProfiles h (Linux_SetSettings h settings m).2 ≡ₚ GetProfiles h m.
Proof.
  unfold Linux_SetSettings.
  destruct (Linux.validateSettings settings); [done |].
  apply save_current_listing.
Qed.

(** [setNvidiaSettings] only runs [nvidia-smi]: the files stay as they
    are. *)
Lemma setNvidiaSettings_machine h s m :
  (setNvidiaSettings h s m).2
  = if 0 <? PowerLimit s
    then record (SysNvidiaSmiPowerLimit (DeviceID s) (PowerLimit s)) m
    else m.
Proof.
  unfold setNvidiaSettings, run_tool.
  destruct (0 <? PowerLimit s); [destruct (tool_ok h _ _) |];
    destruct (negb (CoreClockOffset s =? 0) || negb (MemoryClockOffset s =? 0));
    destruct (negb (Qeq_bool (VoltageOffset s) (of_int 0)));
    destruct (0 <? FanSpeed s); done.
Qed.

Lemma setNvidiaSettings_listing h s m :
  GetProfiles h (setNvidiaSettings h s m).2 = GetProfiles h m.
Proof. rewrite setNvidiaSettings_machine. by destruct (0 <? PowerLimit s). Qed.

(** The temporary configuration is not a profile: writing and removing
    it keeps the listing. *)
Lemma setAMDSettings_listing h s m :
  GetProfiles h (setAMDSettings h s m).2 ≡ₚ GetProfiles h m.
Proof.
  assert (Hun : ∀ name, locate h (config_name s) = InDirectory name →
                        unlisted h name).
  { intros name. rewrite locate_config. intros [= <-]. apply unlisted_config. }
  unfold setAMDSettings.
  pose proof (put_listing h (config_name s) (config_text h (amd_config s))
                (SysWriteConfig (DeviceID s) (amd_config s))
                (tool_ok h (log m) (SysWriteConfig (DeviceID s) (amd_config s)))
                m Hun) as Hput.
  destruct (put h _ _ _ _ m) as [ok m1]. simpl in Hput.
  destruct ok; simpl; [| done]. unfold run_tool.
  match goal with
  | |- context [remove h ?p ?ev ?ok ?m'] =>
      pose proof (remove_listing h p ev ok m' Hun) as Hrem
  end.
  rewrite record_listing in Hrem.
  destruct (tool_ok h (log m1) _); simpl; by rewrite Hrem.
Qed.

Lemma Windows_SetSettings_listing h settings m :
  GetProfiles h (Windows_SetSettings h settings m).2 ≡ₚ GetProfiles h m.
Proof.
  unfold Windows_SetSettings.
  destruct (Windows.validateSettings settings); [done |].
  destruct settings as [s |]; [| done].
  unfold detectGPUVendor.
  destruct (detect_vendor h (log m) (DeviceID s)); try done.
  - pose proof (setNvidiaSettings_listing h s
                  (record (SysDetectVendor (DeviceID s)) m)) as Hset.
    rewrite record_listing in Hset.
    destruct (setNvidiaSettings h s _) as [[err |] m2]; simpl in Hset; simpl;
      [by rewrite Hset |].
    by rewrite save_current_listing, Hset.
  - pose proof (setAMDSettings_listing h s
                  (record (SysDetectVendor (DeviceID s)) m)) as Hset.
    rewrite record_listing in Hset.
    destruct (setAMDSettings h s _) as [[err |] m2]; simpl in Hset; simpl;
      [done |].
    by rewrite save_current_listing.
Qed.

Lemma SetSettings_of_listing h w settings m :
  GetProfiles h (SetSettings_of h w settings m).2 ≡ₚ GetProfiles h m.
Proof.
  destruct w; [apply Windows_SetSettings_listing
              | apply Linux_SetSettings_listing].
Qed.

Lemma lists_no_reserved_listing h m m' :
  GetProfiles h m' ≡ₚ GetProfiles h m →
  lists_no_reserved h m → lists_no_reserved h m'.
Proof. intros Heq Hm p Hin. apply Hm. by rewrite <- Heq. Qed.

(** Every call keeps the reserved name out of the listing. *)
Lemma perform_lists_no_reserved h m op :
  json_keeps_reserved h → lists_no_reserved h m →
  lists_no_reserved h (perform h m op).
Proof.
  intros Hjson Hm. destruct op as [w profile | w settings | w profileName];
    simpl.
  - unfold SaveProfile.
    destruct (String.eqb_spec (Name profile) ""); [done |].
    destruct (String.eqb_spec (Name profile) "_current") as [| Hname];
      [done |].
    destruct (validateSettings_of w _); [done |].
    destruct (MarshalIndent h profile) as [data |] eqn:Hdata; [| done].
    unfold WriteFile.
    pose proof (put_listed h (Name profile +:+ ".json") data
                  (SysWriteFile (Name profile +:+ ".json") data)
                  (write_ok h (log m) (Name profile +:+ ".json") data) m)
      as Hput.
    destruct (put h _ data _ _ m) as [ok m1]. simpl in Hput.
    assert (lists_no_reserved h m1) as Hm1.
    { intros p Hin Hp. destruct (Hput p Hin) as [Hold | Hnew].
      - by apply (Hm p).
      - apply Hname. by apply (Hjson profile data p). }
    by destruct ok.
  - eapply lists_no_reserved_listing; [apply SetSettings_of_listing | done].
  - unfold LoadProfile.
    destruct (String.eqb profileName ""); [done |].
    destruct (read_path h _ m) as [data |]; [| done].
    destruct (Unmarshal h data) as [profile |]; [| done].
    pose proof (SetSettings_of_listing h w (ProfileSettings profile) m)
      as Hset.
    destruct (SetSettings_of h w _ m) as [[err |] m1];
      by eapply lists_no_reserved_listing.
Qed.

(** C9, the counterexample.  The listing is filtered on the names of the
    files, not of the profiles: a file of another name that holds a
    profile named [_current] is listed under that name. *)
Lemma GetProfiles_lists_reserved_name :
  GetProfiles plain_host aliased_store = [mkProfile "_current" None]
  ∧ Name (mkProfile "_current" None) = "_current".
Proof. by vm_compute. Qed.

(** C9, as the code has it.  [SaveProfile] fails with a validation
    error, and leaves the store and the log as they were, for every
    profile whose name is empty or the reserved "_current".
    [GetProfiles] never reads the reserved file: every profile it lists
    was read from a file other than "_current.json", and the listing is
    the same without that file.  The names of the listed profiles are
    whatever the files hold; when no listed profile is named "_current"
    and decoding does not turn another name into that one, this stays so
    after every sequence of calls of [SaveProfile], [SetSettings] and
    [LoadProfile], on either platform. *)
Theorem reserved_name_is_refused_and_its_file_skipped :
  (∀ h validate profile m,
     Name profile = "" ∨ Name profile = "_current" →
     ∃ err, SaveProfile h validate profile m = (Some err, m)
            ∧ kind_of err = ValidationError)
  ∧ (∀ h m p,
       p ∈ GetProfiles h m →
       ∃ d name data,
         dir m = Some d ∧ d !! name = Some (File (Some data))
         ∧ name ≠ "_current.json" ∧ Unmarshal h data = Some p)
  ∧ (∀ h m, GetProfiles h (without_current m) ≡ₚ GetProfiles h m)
  ∧ (∀ h ops m,
       json_keeps_reserved h → lists_no_reserved h m →
       lists_no_reserved h (perform_all h ops m)).
Proof.
  split.
  { intros h validate profile m [Hname | Hname]; unfold SaveProfile;
      rewrite Hname; simpl.
    - by exists ErrProfileNameEmpty.
    - by exists ErrProfileNameReserved. }
  split; [apply GetProfiles_elem |].
  split; [apply GetProfiles_without_current |].
  intros h ops. unfold perform_all.
  induction ops as [| op ops IH]; intros m Hjson Hm; [done |].
  simpl. apply IH; [done |]. by apply perform_lists_no_reserved.
Qed.

Lemma plain_host_keeps_reserved : json_keeps_reserved plain_host.
Proof. intros p data p' [= <-] [= <-]. done. Qed.

Lemma two_profiles_lists_no_reserved :
  lists_no_reserved plain_host two_profiles.
Proof.
  intros p Hin.
  assert (GetProfiles plain_host two_profiles = [mkProfile "quiet" None])
    as Hlist by (by vm_compute).
  rewrite Hlist in Hin. apply list_elem_of_singleton in Hin as ->. done.
Qed.

Lemma reserved_name_is_refused_and_its_file_skipped_witness :
  (∃ err, SaveProfile plain_host Linux.validateSettings
            (mkProfile "_current" (Some (Linux_GetSettings 0))) two_profiles
          = (Some err, two_profiles)
          ∧ kind_of err = ValidationError)
  ∧ GetProfiles plain_host two_profiles = [mkProfile "quiet" None]
  ∧ lists_no_reserved plain_host
      (perform_all plain_host
         [OpSaveProfile false
            (mkProfile "x/../_current" (Some (Linux_GetSettings 0)));
          OpSetSettings false (Some (Linux_GetSettings 0));
          OpLoadProfile false "quiet"]
         two_profiles).
Proof.
  destruct reserved_name_is_refused_and_its_file_skipped
    as (Hsave & _ & _ & Hkept).
  split; [apply Hsave; by right |].
  split; [by vm_compute |].
  apply Hkept; [apply plain_host_keeps_reserved
               | apply two_profiles_lists_no_reserved].
Defined.

End profiles.

(** ** Applying overclock settings *)

Section apply_settings.
Import gpu.

(** C2 fails on Linux: nothing between the entry point and the vendor
    tool validates the record.  With a core clock offset of 10000 on an
    NVIDIA device, [SetOverclockSettings] returns no error but a
    successful result, after it has run [nvidia-settings] with that
    offset. *)
Theorem SetOverclockSettings_applies_unvalidated :
  SetOverclockSettings obliging_host 0 excessive_request []
  = (Ret (inl (mkResult true [CoreOffsetApplied 10000] [] [])),
     [NvidiaSmiQuery 0; SetGraphicsClockOffset 0 10000])
  ∧ overclock.Windows.validateSettings
      (Some (to_controller_settings 0 excessive_request))
    = Some overclock.ErrCoreClockOffset.
Proof. by vm_compute. Qed.

(** The Windows reader does what C2 says: an out-of-range record is
    turned down by the controller's validation before anything is
    done. *)
Lemma Windows_SetOverclockSettings_validates h detects deviceID settings m err :
  overclock.Windows.validateSettings
    (Some (to_controller_settings deviceID settings)) = Some err →
  Windows_SetOverclockSettings h detects deviceID settings m
  = (mkResult false [] [] [ControllerError (overclock.ErrInvalidSettings err)],
     m).
Proof.
  intros Hval. unfold Windows_SetOverclockSettings,
    overclock.Windows_SetSettings.
  by rewrite Hval.
Qed.

(** *** The invariant of the result *)

Lemma add_applied_invariant msg r :
  success_iff_no_errors r → success_iff_no_errors (add_applied msg r).
Proof. done. Qed.

Lemma add_warning_invariant msg r :
  success_iff_no_errors r → success_iff_no_errors (add_warning msg r).
Proof. done. Qed.

Lemma add_error_invariant msg r : success_iff_no_errors (add_error msg r).
Proof.
  unfold success_iff_no_errors. simpl. split; [| done].
  intros _ Hnil. by apply app_eq_nil in Hnil as [_ ?].
Qed.

Lemma attempt_invariant h c failed applied p :
  success_iff_no_errors p.1 →
  success_iff_no_errors (attempt h c failed applied p).1.
Proof.
  intros Hp. unfold attempt, invoke.
  destruct (call_error h p.2 c); simpl;
    [apply add_error_invariant | by apply add_applied_invariant].
Qed.

Lemma attempt_soft_invariant h c failed applied p :
  success_iff_no_errors p.1 →
  success_iff_no_errors (attempt_soft h c failed applied p).1.
Proof.
  intros Hp. unfold attempt_soft, invoke.
  destruct (call_error h p.2 c); simpl;
    [by apply add_warning_invariant | by apply add_applied_invariant].
Qed.

Lemma partial_success_invariant r :
  success_iff_no_errors r → success_iff_no_errors (partial_success r).
Proof.
  intros Hr. unfold partial_success.
  destruct (Nat.eqb_spec (length (Errors r)) 0) as [Hnone | _]; [| done].
  destruct (0 <? length (Warnings r))%nat; [| done].
  unfold success_iff_no_errors. simpl.
  apply length_zero_iff_nil in Hnone. by rewrite Hnone.
Qed.

Lemma setNvidiaOverclockSettings_invariant h deviceID settings calls r calls' :
  setNvidiaOverclockSettings h deviceID settings calls = (inl r, calls') →
  success_iff_no_errors r.
Proof.
  unfold setNvidiaOverclockSettings, invoke.
  destruct (call_error h calls (NvidiaSmiQuery deviceID)); [done |].
  intros [= <- _]. apply partial_success_invariant.
  unfold nvidia_fan, nvidia_power, nvidia_memory, nvidia_core.
  repeat match goal with
         | |- context [if ?b then _ else _] => destruct b
         end;
    repeat first [apply attempt_invariant | apply attempt_soft_invariant];
    done.
Qed.

Lemma setAMDOverclockSettings_invariant h deviceID settings calls r calls' :
  setAMDOverclockSettings h deviceID settings calls = (inl r, calls') →
  success_iff_no_errors r.
Proof.
  unfold setAMDOverclockSettings.
  destruct (String.eqb _ ""); [done |].
  intros [= <- _].
  assert (Hclock : ∀ requested file failed applied cardPath p,
            success_iff_no_errors p.1 →
            success_iff_no_errors
              (amd_clock h requested file failed applied cardPath p).1).
  { intros requested file failed applied cardPath p Hp. unfold amd_clock.
    destruct (negb _); [| done]. destruct (fileExists _ _ _); [| done].
    destruct (ReadFile _ _ _); [| done]. destruct (negb _); [| done].
    by apply attempt_soft_invariant. }
  assert (Hstart : success_iff_no_errors
                     (amd_manual_level h (findAMDCardPath h deviceID)
                        (new_result, calls)).1).
  { unfold amd_manual_level. destruct (fileExists _ _ _); [| done].
    by apply attempt_soft_invariant. }
  pose proof (Hclock (CoreClockOffset settings) "pp_dpm_sclk"%string
                GpuStateFailed GpuStateSet (findAMDCardPath h deviceID) _
                Hstart) as Hcore.
  pose proof (Hclock (MemoryClockOffset settings) "pp_dpm_mclk"%string
                MemoryStateFailed MemoryStateSet (findAMDCardPath h deviceID)
                _ Hcore) as Hmem.
  set (p2 := amd_clock h (MemoryClockOffset settings) _ _ _ _ _) in *.
  assert (Hpower : success_iff_no_errors (amd_power settings p2).1).
  { unfold amd_power. by destruct (_ && _). }
  set (p3 := amd_power settings p2) in *.
  assert (Hfan : success_iff_no_errors
                   (amd_fan h settings (findAMDCardPath h deviceID) p3).1).
  { unfold amd_fan. destruct (0 <? _); [| done].
    destruct (negb _); [| done]. destruct (_ && _); [| done].
    unfold invoke. destruct (call_error h _ _); [done |].
    by apply attempt_soft_invariant. }
  unfold amd_closing. by destruct (_ && _).
Qed.

(** C5.  Every result [SetOverclockSettings] returns, on Linux for
    either vendor and on Windows, reports failure exactly when its list
    of errors is not empty.  When a request configures the core offset,
    the memory offset and the power limit, the tool accepts the two
    offsets and refuses the power limit for lack of privilege, the
    result is a success with two applied entries, one warning and no
    error. *)
Theorem overclock_result_success_iff_no_errors :
  (∀ h deviceID settings calls r calls',
     SetOverclockSettings h deviceID settings calls = (Ret (inl r), calls') →
     success_iff_no_errors r)
  ∧ (∀ h detects deviceID settings m,
       success_iff_no_errors
         (Windows_SetOverclockSettings h detects deviceID settings m).1)
  ∧ (∀ h deviceID settings calls gpus err,
       GetInfo h = Some gpus → go_index gpus deviceID = Ret NVIDIA →
       CoreClockOffset settings ≠ 0 → MemoryClockOffset settings ≠ 0 →
       0 < PowerLimit settings → FanSpeed settings ≤ 0 →
       (∀ before c, call_error h before c
                    = match c with
                      | NvidiaSmiPowerLimit _ _ => Some err
                      | _ => None
                      end) →
       Contains err "Insufficient permissions" = true →
       ∃ calls',
         SetOverclockSettings h deviceID settings calls
         = (Ret (inl (mkResult true
                        [CoreOffsetApplied (CoreClockOffset settings);
                         MemoryOffsetApplied (MemoryClockOffset settings)]
                        [PowerLimitNeedsRoot (PowerLimit settings)]
                        [])),
            calls')).
Proof.
  split.
  { intros h deviceID settings calls r calls'. unfold SetOverclockSettings.
    destruct (GetInfo h) as [gpus |]; [| done].
    destruct (_ <=? deviceID); [done |].
    destruct (go_index gpus deviceID) as [[| | |] |]; try done.
    - destruct (setNvidiaOverclockSettings h deviceID settings calls)
        as [[r' | e] calls''] eqn:Hrun; [| done].
      intros [= <- _]. by eapply setNvidiaOverclockSettings_invariant.
    - destruct (setAMDOverclockSettings h deviceID settings calls)
        as [[r' | e] calls''] eqn:Hrun; [| done].
      intros [= <- _]. by eapply setAMDOverclockSettings_invariant. }
  split.
  { intros h detects deviceID settings m.
    unfold Windows_SetOverclockSettings.
    by destruct (overclock.Windows_SetSettings h _ m) as [[err |] m1]. }
  intros h deviceID settings calls gpus err Hinfo Hidx Hcore Hmem Hpower
    Hfan Hcalls Hperm.
  pose proof Hidx as Hidx'. apply go_index_Ret in Hidx' as [Hpos Hlook].
  pose proof (lookup_lt_Some _ _ _ Hlook) as Hlt.
  unfold SetOverclockSettings. rewrite Hinfo, Hidx.
  replace (_ <=? deviceID) with false by (symmetry; apply Z.leb_gt; lia).
  unfold setNvidiaOverclockSettings, invoke. rewrite Hcalls.
  unfold nvidia_fan, nvidia_power, nvidia_memory, nvidia_core.
  replace (CoreClockOffset settings =? 0) with false
    by (symmetry; by apply Z.eqb_neq).
  replace (MemoryClockOffset settings =? 0) with false
    by (symmetry; by apply Z.eqb_neq).
  replace (0 <? PowerLimit settings) with true
    by (symmetry; by apply Z.ltb_lt).
  replace (0 <? FanSpeed settings) with false
    by (symmetry; apply Z.ltb_ge; lia).
  unfold attempt, attempt_soft, invoke. simpl. rewrite !Hcalls. simpl.
  unfold power_limit_warning. rewrite Hperm. simpl.
  eexists. reflexivity.
Qed.

Lemma overclock_result_success_iff_no_errors_witness :
  success_iff_no_errors
    (mkResult true [CoreOffsetApplied 100; MemoryOffsetApplied 500]
       [PowerLimitNeedsRoot 120] [])
  ∧ ∃ calls',
      SetOverclockSettings unprivileged_host 0 three_field_request []
      = (Ret (inl (mkResult true
                     [CoreOffsetApplied 100; MemoryOffsetApplied 500]
                     [PowerLimitNeedsRoot 120] [])),
         calls').
Proof.
  destruct overclock_result_success_iff_no_errors as (Hinv & _ & Hscenario).
  assert (Hrun : ∃ calls',
            SetOverclockSettings unprivileged_host 0 three_field_request []
            = (Ret (inl (mkResult true
                           [CoreOffsetApplied 100; MemoryOffsetApplied 500]
                           [PowerLimitNeedsRoot 120] [])),
               calls')).
  { apply (Hscenario unprivileged_host 0 three_field_request [] [NVIDIA]
             "Insufficient permissions"%string);
      try reflexivity; simpl; lia. }
  split; [| exact Hrun].
  destruct Hrun as [calls' Hrun]. exact (Hinv _ _ _ _ _ _ Hrun).
Defined.

End apply_settings.

(** ** More on the interpolator *)

Section interpolator_more.
Import fan.

Lemma quot_scaled_bounds (a d m : Z) :
  0 ≤ a → 0 ≤ d ≤ m → 0 < m → 0 ≤ (a * d) ÷ m ≤ a.
Proof.
  intros Ha Hd Hm. split.
  - apply Z.quot_pos; nia.
  - rewrite <- (Z.quot_mul a m) at 2 by lia.
    apply Z.quot_le_mono; nia.
Qed.

(** A segment's value lies between the speeds of its two points. *)
Lemma segment_value_between (p q : CurvePoint) (temp : Z) :
  Temperature p < temp ≤ Temperature q →
  Z.min (FanSpeed p) (FanSpeed q) ≤ segment_value p q temp
  ≤ Z.max (FanSpeed p) (FanSpeed q).
Proof.
  intros Ht. unfold segment_value.
  destruct (Z.le_gt_cases (FanSpeed p) (FanSpeed q)) as [Hup | Hdown].
  - pose proof (quot_scaled_bounds (FanSpeed q - FanSpeed p)
                  (temp - Temperature p) (Temperature q - Temperature p)
                  ltac:(lia) ltac:(lia) ltac:(lia)).
    lia.
  - pose proof (quot_scaled_bounds (FanSpeed p - FanSpeed q)
                  (temp - Temperature p) (Temperature q - Temperature p)
                  ltac:(lia) ltac:(lia) ltac:(lia)) as Hb.
    replace ((FanSpeed q - FanSpeed p) * (temp - Temperature p))
      with (- ((FanSpeed p - FanSpeed q) * (temp - Temperature p))) by lia.
    rewrite Z.quot_opp_l by lia. lia.
Qed.

(** On a curve with a point, all points within bounds, the interpolator
    returns a percentage. *)
Lemma interpolateFanSpeed_percentage (cv : list CurvePoint) (temp : Z) :
  cv ≠ [] → Forall point_in_bounds cv →
  ∃ speed, interpolateFanSpeed cv temp = Ret speed ∧ 0 ≤ speed ≤ 100.
Proof.
  intros Hne Hb.
  assert (Hlen : (0 < length cv)%nat) by (destruct cv; [done | simpl; lia]).
  destruct (lookup_lt_is_Some_2 cv 0 Hlen) as [first Hf].
  destruct (lookup_lt_is_Some_2 cv (length cv - 1) ltac:(lia)) as [last Hl].
  destruct (Z.le_gt_cases temp (Temperature first)) as [Hlow | Hlow].
  { exists (FanSpeed first).
    split; [by apply interpolateFanSpeed_low |].
    by destruct (Forall_lookup_1 _ _ _ _ Hb Hf) as [_ ?]. }
  destruct (Z.le_gt_cases (Temperature last) temp) as [Hhigh | Hhigh].
  { exists (FanSpeed last).
    split; [by eapply interpolateFanSpeed_high |].
    by destruct (Forall_lookup_1 _ _ _ _ Hb Hl) as [_ ?]. }
  destruct (interpolateFanSpeed_interior cv temp first last Hb Hf Hl
              ltac:(lia)) as (j & p & q & Hp & Hq & Hbr & _ & Hres).
  exists (segment_value p q temp). split; [done |].
  pose proof (segment_value_between p q temp Hbr).
  destruct (Forall_lookup_1 _ _ _ _ Hb Hp) as [_ ?].
  destruct (Forall_lookup_1 _ _ _ _ Hb Hq) as [_ ?]. lia.
Qed.

(** [setPWMSpeed]'s clamp leaves a percentage as it is. *)
Lemma pwm_of_percent_percentage (speed : Z) :
  0 ≤ speed ≤ 100 →
  pwm_of_percent speed = (speed * 255) ÷ 100
  ∧ 0 ≤ pwm_of_percent speed ≤ 255.
Proof.
  intros Hs.
  assert (Heq : pwm_of_percent speed = (speed * 255) ÷ 100).
  { unfold pwm_of_percent, GoInt.mul.
    replace (speed <? 0) with false by (symmetry; apply Z.ltb_ge; lia).
    replace (100 <? speed) with false by (symmetry; apply Z.ltb_ge; lia).
    rewrite wrap_small; [done |].
    unfold GoInt.in_range, GoInt.min_int, GoInt.max_int. lia. }
  split; [done |]. rewrite Heq.
  pose proof (quot_scaled_bounds 255 speed 100 ltac:(lia) ltac:(lia)
                ltac:(lia)) as Hq.
  replace (255 * speed) with (speed * 255) in Hq by lia. done.
Qed.

(** X1.  On a curve without points the interpolator panics.  On every
    other curve whose points are within bounds, sorted or not, it returns
    a speed for every sample, and that speed lies in [0, 100], so that the
    clamp of [setPWMSpeed] never alters it. *)
Theorem interpolateFanSpeed_defined_and_bounded :
  (∀ temp, interpolateFanSpeed [] temp = Panic)
  ∧ ∀ (cv : list CurvePoint) (temp : Z),
      cv ≠ [] → Forall point_in_bounds cv →
      ∃ speed, interpolateFanSpeed cv temp = Ret speed
               ∧ 0 ≤ speed ≤ 100
               ∧ pwm_of_percent speed = (speed * 255) ÷ 100.
Proof.
  split; [done |].
  intros cv temp Hne Hb.
  destruct (interpolateFanSpeed_percentage cv temp Hne Hb)
    as (speed & Hres & Hs).
  exists speed. split; [done |]. split; [done |].
  by apply pwm_of_percent_percentage.
Qed.

Lemma interpolateFanSpeed_defined_and_bounded_witness :
  ∃ speed, interpolateFanSpeed [mkPoint 80 100; mkPoint 30 20] 55 = Ret speed
           ∧ 0 ≤ speed ≤ 100
           ∧ pwm_of_percent speed = (speed * 255) ÷ 100.
Proof.
  apply (proj2 interpolateFanSpeed_defined_and_bounded); [done |].
  repeat constructor; simpl; lia.
Defined.

Lemma segment_value_rising (p q : CurvePoint) (t1 t2 : Z) :
  FanSpeed p ≤ FanSpeed q →
  Temperature p < t1 → t1 ≤ t2 → t2 ≤ Temperature q →
  segment_value p q t1 ≤ segment_value p q t2.
Proof.
  intros Hs H1 H12 H2. unfold segment_value.
  apply Z.add_le_mono_l. apply Z.quot_le_mono; [lia | nia].
Qed.

(** X2.  When the speeds of a curve never fall from one point to the
    next, a warmer sample never yields a slower fan: the interpolator is
    defined at both samples and its result does not fall. *)
Theorem interpolateFanSpeed_monotone :
  ∀ (cv : list CurvePoint) (t1 t2 : Z),
    cv ≠ [] → Forall point_in_bounds cv → rising_speeds cv → t1 ≤ t2 →
    ∃ s1 s2, interpolateFanSpeed cv t1 = Ret s1
             ∧ interpolateFanSpeed cv t2 = Ret s2 ∧ s1 ≤ s2.
Proof.
  intros cv t1 t2 Hne Hb Hrise H12.
  assert (Hlen : (0 < length cv)%nat) by (destruct cv; [done | simpl; lia]).
  destruct (lookup_lt_is_Some_2 cv 0 Hlen) as [first Hf].
  destruct (lookup_lt_is_Some_2 cv (length cv - 1) ltac:(lia)) as [last Hl].
  assert (Hfrom_first : ∀ (k : nat) p, cv !! k = Some p →
            FanSpeed first ≤ FanSpeed p).
  { intros [| k] p Hp; [assert (p = first) as -> by congruence; lia |].
    apply (Hrise 0%nat (S k)); [lia | done | done]. }
  assert (Hto_last : ∀ (k : nat) p, cv !! k = Some p →
            FanSpeed p ≤ FanSpeed last).
  { intros k p Hp. pose proof (lookup_lt_Some _ _ _ Hp) as Hk.
    destruct (decide (k = length cv - 1)%nat) as [-> | Hnk].
    - assert (p = last) as -> by congruence. lia.
    - apply (Hrise k (length cv - 1)%nat); [lia | done | done]. }
  assert (Hseg : ∀ (j : nat) p q t, cv !! j = Some p → cv !! S j = Some q →
            Temperature p < t ≤ Temperature q →
            FanSpeed p ≤ segment_value p q t ≤ FanSpeed q).
  { intros j p q t Hp Hq Ht.
    pose proof (Hrise j (S j) p q ltac:(lia) Hp Hq).
    pose proof (segment_value_between p q t Ht). lia. }
  destruct (Z.le_gt_cases t1 (Temperature first)) as [Hlow1 | Hlow1].
  { exists (FanSpeed first).
    rewrite (interpolateFanSpeed_low cv t1 first Hf Hlow1).
    destruct (Z.le_gt_cases t2 (Temperature first)) as [Hlow2 | Hlow2].
    { exists (FanSpeed first).
      by rewrite (interpolateFanSpeed_low cv t2 first Hf Hlow2). }
    destruct (Z.le_gt_cases (Temperature last) t2) as [Hhigh2 | Hhigh2].
    { exists (FanSpeed last).
      rewrite (interpolateFanSpeed_high cv t2 first last Hf Hl Hlow2 Hhigh2).
      split; [done |]. split; [done |]. by apply (Hfrom_first _ _ Hl). }
    destruct (interpolateFanSpeed_interior cv t2 first last Hb Hf Hl
                ltac:(lia)) as (j & p & q & Hp & Hq & Hbr & _ & Hres).
    exists (segment_value p q t2). split; [done |]. split; [done |].
    pose proof (Hseg j p q t2 Hp Hq Hbr). pose proof (Hfrom_first j p Hp).
    lia. }
  destruct (Z.le_gt_cases (Temperature last) t1) as [Hhigh1 | Hhigh1].
  { exists (FanSpeed last), (FanSpeed last).
    rewrite (interpolateFanSpeed_high cv t1 first last Hf Hl Hlow1 Hhigh1).
    rewrite (interpolateFanSpeed_high cv t2 first last Hf Hl) by lia.
    done. }
  destruct (interpolateFanSpeed_interior cv t1 first last Hb Hf Hl
              ltac:(lia)) as (j1 & p1 & q1 & Hp1 & Hq1 & Hbr1 & Hbelow1 & Hres1).
  exists (segment_value p1 q1 t1). rewrite Hres1.
  pose proof (Hseg j1 p1 q1 t1 Hp1 Hq1 Hbr1) as Hseg1.
  destruct (Z.le_gt_cases (Temperature last) t2) as [Hhigh2 | Hhigh2].
  { exists (FanSpeed last).
    rewrite (interpolateFanSpeed_high cv t2 first last Hf Hl) by lia.
    split; [done |]. split; [done |].
    pose proof (Hto_last (S j1) q1 Hq1). lia. }
  destruct (interpolateFanSpeed_interior cv t2 first last Hb Hf Hl
              ltac:(lia)) as (j2 & p2 & q2 & Hp2 & Hq2 & Hbr2 & Hbelow2 & Hres2).
  exists (segment_value p2 q2 t2). rewrite Hres2.
  split; [done |]. split; [done |].
  pose proof (Hseg j2 p2 q2 t2 Hp2 Hq2 Hbr2) as Hseg2.
  destruct (lt_eq_lt_dec j1 j2) as [[Hlt | ->] | Hgt].
  - assert (FanSpeed q1 ≤ FanSpeed p2); [| lia].
    destruct (decide (S j1 = j2)) as [<- | Hnj].
    + assert (q1 = p2) as -> by congruence. lia.
    + apply (Hrise (S j1) j2); [lia | done | done].
  - assert (p2 = p1) as -> by congruence.
    assert (q2 = q1) as -> by congruence.
    apply segment_value_rising; lia.
  - pose proof (Hbelow1 (S j2) q2 ltac:(lia) Hq2). lia.
Qed.

Lemma rising_curve_rises : rising_speeds rising_curve.
Proof.
  intros [| [| [| i]]] [| [| [| j]]] p q Hij Hp Hq; simpl in *;
    try lia; try discriminate;
    injection Hp as <-; injection Hq as <-; simpl; lia.
Qed.

Lemma interpolateFanSpeed_monotone_witness :
  ∃ s1 s2, interpolateFanSpeed rising_curve 45 = Ret s1
           ∧ interpolateFanSpeed rising_curve 70 = Ret s2 ∧ s1 ≤ s2.
Proof.
  apply interpolateFanSpeed_monotone;
    [done | repeat constructor; simpl; lia | apply rising_curve_rises | lia].
Defined.

End interpolator_more.

(** ** More on the Linux fan controller *)

Section linux_controller_more.
Import fan.

Lemma fixed_pwm_range (speed : Z) : 0 ≤ fixed_pwm speed ≤ 255.
Proof.
  unfold fixed_pwm.
  destruct (Z.ltb_spec 255 (GoInt.mul speed 255 ÷ 100)); simpl; [lia |].
  destruct (Z.ltb_spec (GoInt.mul speed 255 ÷ 100) 0); lia.
Qed.

(** While the product [speed * 255] fits in an [int], the value written
    is the speed clamped to [0, 100] and scaled. *)
Lemma fixed_pwm_exact (speed : Z) :
  GoInt.in_range (speed * 255) →
  fixed_pwm speed
  = if speed <? 0 then 0
    else if 100 <? speed then 255 else (speed * 255) ÷ 100.
Proof.
  intros Hs. unfold fixed_pwm, GoInt.mul. rewrite wrap_small by done.
  destruct (Z.ltb_spec speed 0) as [Hneg | Hpos].
  - assert (speed * 255 ÷ 100 ≤ 0).
    { replace (speed * 255) with (- (- speed * 255)) by lia.
      rewrite Z.quot_opp_l by lia.
      pose proof (Z.quot_pos (- speed * 255) 100 ltac:(lia) ltac:(lia)). lia. }
    destruct (Z.ltb_spec 255 (speed * 255 ÷ 100)); [lia |].
    destruct (Z.ltb_spec (speed * 255 ÷ 100) 0); lia.
  - pose proof (Z.quot_pos (speed * 255) 100 ltac:(lia) ltac:(lia)).
    destruct (Z.ltb_spec 100 speed) as [Hbig | Hsmall].
    + assert (255 ≤ speed * 255 ÷ 100).
      { rewrite <- (Z.quot_mul 255 100) at 1 by lia.
        apply Z.quot_le_mono; lia. }
      destruct (Z.ltb_spec 255 (speed * 255 ÷ 100)); [done |].
      destruct (Z.ltb_spec (speed * 255 ÷ 100) 0); lia.
    + assert (speed * 255 ÷ 100 ≤ 255).
      { rewrite <- (Z.quot_mul 255 100) at 2 by lia.
        apply Z.quot_le_mono; lia. }
      destruct (Z.ltb_spec 255 (speed * 255 ÷ 100)); [lia |].
      destruct (Z.ltb_spec (speed * 255 ÷ 100) 0); lia.
Qed.

Lemma fixed_pwm_value (speed : Z) :
  -1000000000 ≤ speed ≤ 1000000000 →
  fixed_pwm speed
  = if speed <? 0 then 0
    else if 100 <? speed then 255 else (speed * 255) ÷ 100.
Proof.
  intros Hs. apply fixed_pwm_exact.
  unfold GoInt.in_range, GoInt.min_int, GoInt.max_int. lia.
Qed.

(** X3.  A request for fixed mode that reaches the mode switch is never
    turned down for its speed: the enable file is set to manual first and
    then [fixed_pwm] of the speed is written, the product
    [FixedSpeed * 255], computed in 64 bits, divided by 100 and clamped
    to [0, 255].  While the product does not overflow that is 0 for a
    speed below 0 and 255 for a speed above 100; when it overflows the
    wrapped product decides, and the speed 36170086419038337 writes 0.
    When the enable file cannot be written the speed is not written at
    all.  No curve state is touched. *)
Theorem fixed_mode_writes_clamped_speed :
  ∀ pf c fanID settings pwmPath c1,
    Mode settings = ModeFixed →
    go_index (pwmPaths c) fanID = Ret pwmPath →
    checkWritePermissions pf [pwmPath; pwmPath +:+ "_enable"] c
    = (Ret None, c1) →
    let speed := FixedSpeed settings in
    let pwmVal := fixed_pwm speed in
    ∃ ret c',
      SetSettings pf fanID settings c = (Ret ret, c')
      ∧ same_control c c'
      ∧ 0 ≤ pwmVal ≤ 255
      ∧ (GoInt.in_range (speed * 255) →
         pwmVal = if speed <? 0 then 0
                  else if 100 <? speed then 255 else (speed * 255) ÷ 100)
      ∧ fixed_pwm 36170086419038337 = 0
      ∧ if write_ok pf (trace c1) (pwmPath +:+ "_enable") 1
        then logged c1 c'
               [EvWrite (pwmPath +:+ "_enable") 1; EvWrite pwmPath pwmVal]
             ∧ (ret = None ∨ ret = Some ErrSetPWMValue)
        else logged c1 c' [EvWrite (pwmPath +:+ "_enable") 1]
             ∧ ret = Some ErrSetManualMode.
Proof.
  intros pf c fanID settings pwmPath c1 Hmode Hidx Hperm speed pwmVal.
  rewrite (SetSettings_reaches_switch _ _ _ _ _ _ _ Hidx Hperm).
  destruct (checkWritePermissions_spec _ _ _ _ _ Hperm) as (_ & Hs1 & _).
  unfold switch_mode. rewrite Hmode. unfold bind.
  destruct (ioutil_WriteFile_spec pf (pwmPath +:+ "_enable") 1 c1)
    as (c2 & -> & Hs2 & Hl2).
  assert (Hrange : 0 ≤ pwmVal ≤ 255) by apply fixed_pwm_range.
  assert (Hexact : GoInt.in_range (speed * 255) →
            pwmVal = if speed <? 0 then 0
                     else if 100 <? speed then 255
                          else (speed * 255) ÷ 100)
    by apply fixed_pwm_exact.
  assert (Hwrap : fixed_pwm 36170086419038337 = 0) by (by vm_compute).
  destruct (write_ok pf (trace c1) (pwmPath +:+ "_enable") 1); cbn [negb];
    cbv beta iota.
  - destruct (ioutil_WriteFile_spec pf pwmPath
                (fixed_pwm (FixedSpeed settings)) c2)
      as (c3 & -> & Hs3 & Hl3).
    pose proof (logged_trans _ _ _ _ _ Hl2 Hl3) as Hl.
    pose proof (same_control_trans _ _ _ Hs1
                  (same_control_trans _ _ _ Hs2 Hs3)) as Hs.
    destruct (write_ok pf (trace c2) pwmPath _); simpl.
    + exists None, c3. eauto 10.
    + exists (Some ErrSetPWMValue), c3. eauto 10.
  - exists (Some ErrSetManualMode), c2.
    split; [done |]. split; [by eapply same_control_trans |]. done.
Qed.

Lemma fixed_mode_writes_clamped_speed_witness :
  ∃ ret c',
    SetSettings permissive_platform 0 (mkSettings ModeFixed 150 []) one_fan
    = (Ret ret, c')
    ∧ same_control one_fan c'
    ∧ 0 ≤ 255 ≤ 255
    ∧ (GoInt.in_range (150 * 255) → 255 = 255)
    ∧ fixed_pwm 36170086419038337 = 0
    ∧ logged
        (checkWritePermissions permissive_platform
           ["/sys/class/hwmon/hwmon0/pwm1";
            "/sys/class/hwmon/hwmon0/pwm1_enable"] one_fan).2
        c'
        [EvWrite "/sys/class/hwmon/hwmon0/pwm1_enable" 1;
         EvWrite "/sys/class/hwmon/hwmon0/pwm1" 255]
      ∧ (ret = None ∨ ret = Some ErrSetPWMValue).
Proof.
  exact (fixed_mode_writes_clamped_speed permissive_platform one_fan 0
           (mkSettings ModeFixed 150 []) "/sys/class/hwmon/hwmon0/pwm1" _
           eq_refl eq_refl eq_refl).
Defined.

(** *** What the loops rely on is kept *)

Lemma strongly_sorted_curve (cv : list CurvePoint) :
  StronglySorted temperature_le cv → sorted_curve cv.
Proof.
  induction cv as [| x rest IH]; intros Hss.
  - intros i j p q _ Hp. done.
  - apply StronglySorted_cons in Hss as [Hall Hrest].
    intros [| i] [| j] p q Hij Hp Hq; simpl in *; try lia.
    + injection Hp as <-.
      apply (Forall_lookup_1 _ _ _ _ Hall Hq).
    + apply (IH Hrest i j); [lia | done | done].
Qed.

Lemma accepted_curve_valid_sorted pf (cv : list CurvePoint) :
  sort_slice_ok pf → (2 ≤ length cv)%nat →
  validate_points (sort_slice pf cv) = None →
  valid_curve (sort_slice pf cv) ∧ sorted_curve (sort_slice pf cv)
  ∧ sort_slice pf cv ≡ₚ cv.
Proof.
  intros Hsort Hlen Hval. destruct (Hsort cv) as [Hperm Hss].
  split; [| split; [by apply strongly_sorted_curve | done]].
  split; [by rewrite Hperm | by apply validate_points_None].
Qed.

(** What a call of [SetSettings] that returns does to the goroutines:
    nothing, or it starts one for a curve it has accepted. *)
Lemma SetSettings_goroutines pf fanID settings c ret c' :
  well_formed c → SetSettings pf fanID settings c = (Ret ret, c') →
  pwmPaths c' = pwmPaths c
  ∧ (goroutines c' = goroutines c
     ∨ ∃ l pwmPath,
         goroutines c'
         = goroutines c
           ++ [mkGoroutine fanID (sort_slice pf (Curve settings)) l false]
         ∧ go_index (pwmPaths c) fanID = Ret pwmPath
         ∧ (2 ≤ length (Curve settings))%nat
         ∧ validate_points (sort_slice pf (Curve settings)) = None).
Proof.
  intros Hwf Hrun.
  destruct (SetSettings_well_formed _ _ _ _ _ _ Hwf Hrun) as [_ [Hp _]].
  split; [done |].
  destruct (SetSettings_inv _ _ _ _ _ _ Hrun)
    as [(_ & _ & ->) | [(_ & [=] & _) | (pwmPath & c1 & perr & Hidx & Hperm & Hrest)]];
    [by left |].
  destruct (checkWritePermissions_spec _ _ _ _ _ Hperm) as (_ & Hs & _).
  pose proof (same_control_well_formed _ _ Hs Hwf) as Hwf1.
  destruct Hs as (_ & _ & _ & Hg1).
  destruct perr as [err |]; [destruct Hrest as [_ ->]; by left |].
  assert (Mode settings = ModeCurve ∨ Mode settings ≠ ModeCurve)
    as [Hcurve | Hother] by (destruct (Mode settings); auto).
  2: { destruct (switch_mode_other _ _ _ _ _ _ _ _ Hother Hrest)
         as (_ & (_ & _ & _ & Hg') & _).
       left. congruence. }
  unfold switch_mode in Hrest. rewrite Hcurve in Hrest.
  destruct (stopFanCurve_spec c1 fanID Hwf1)
    as (c2 & Hstop & _ & _ & _ & Hg2 & _).
  destruct (set_curve_mode_cases pf fanID settings (pwmPath +:+ "_enable")
              c1 Hwf1) as (c2' & Hstop' & Hcases).
  assert (c2' = c2) as -> by congruence.
  destruct Hcases as [[_ Heq] | [(err & _ & Heq) | (Hlen & Hval & c3 & Hs3 & _ & Heq)]].
  - rewrite Heq in Hrest. injection Hrest as <- <-. left. congruence.
  - rewrite Heq in Hrest. injection Hrest as <- <-. left. congruence.
  - destruct Hs3 as (_ & _ & _ & Hg3).
    destruct Heq as [Heq | Heq]; rewrite Heq in Hrest;
      injection Hrest as <- <-.
    + left. congruence.
    + right. exists (length (heap c3)), pwmPath. simpl.
      split; [congruence | done].
Qed.

Lemma loop_iteration_goroutines pf (i : nat) choice temp c c' :
  well_formed c → loop_iteration pf i choice temp c = Some (Ret tt, c') →
  pwmPaths c' = pwmPaths c
  ∧ ∀ (j : nat) g', goroutines c' !! j = Some g' →
      ∃ g, goroutines c !! j = Some g ∧ g_fanID g = g_fanID g'
           ∧ g_curve g = g_curve g'.
Proof.
  intros Hwf Hrun.
  destruct (loop_iteration_well_formed _ _ _ _ _ _ Hwf Hrun) as (_ & [Hp _] & _).
  split; [done |].
  revert Hrun. unfold loop_iteration.
  destruct (goroutines c !! i) as [g |] eqn:Hg; [| done].
  destruct (g_returned g); [done |].
  destruct choice.
  - destruct (heap c !! g_state g) as [state |]; [| done].
    destruct (stopChannel state); [done |].
    intros [= <-] j g'. simpl.
    pose proof (lookup_lt_Some _ _ _ Hg) as Hlt.
    destruct (decide (j = i)) as [-> | Hne].
    + rewrite list_lookup_insert_eq by done. intros [= <-]. by exists g.
    + rewrite list_lookup_insert_ne by done. intros Hj. by exists g'.
  - intros [= Htick]. revert Htick. unfold tick_body.
    destruct (0 <? temp); [| intros [= <-]; intros j g' Hj; by exists g'].
    unfold bind, lift.
    destruct (interpolateFanSpeed (g_curve g) temp) as [speed |]; [| done].
    destruct (setPWMSpeed pf (g_fanID g) speed c) as [[r1 |] c1] eqn:Hset;
      [| done].
    pose proof (setPWMSpeed_same_control _ _ _ _ _ _ Hset)
      as (_ & _ & Hh1 & Hg1).
    unfold set_lastTemp. destruct (heap c1 !! g_state g); [| done].
    intros [= <-] j g'. simpl. rewrite Hg1. intros Hj. by exists g'.
Qed.

Lemma loops_safe_new paths : loops_safe (newPlatformController paths).
Proof. intros i g Hg. done. Qed.

Lemma step_loops_safe pf c ev c' :
  sort_slice_ok pf → well_formed c → loops_safe c → step pf c ev c' →
  loops_safe c'.
Proof.
  intros Hsort Hwf Hsafe Hstep.
  destruct Hstep as [? fanID settings r ? H | ? ? ? ? H | ? ? ? ? ? H].
  - destruct (SetSettings_goroutines _ _ _ _ _ _ Hwf H)
      as [Hp [Hg | (l & pwmPath & Hg & Hidx & Hlen & Hval)]].
    + intros i g Hi. rewrite Hg in Hi. rewrite Hp. by apply (Hsafe i).
    + intros i g Hi. rewrite Hg in Hi. rewrite Hp.
      apply lookup_app_Some in Hi as [Hi | [_ Hi]]; [by apply (Hsafe i) |].
      destruct (i - length (goroutines c))%nat as [| k]; [| by destruct k].
      injection Hi as <-. simpl.
      destruct (accepted_curve_valid_sorted pf (Curve settings) Hsort Hlen Hval)
        as (? & ? & _).
      eauto.
  - apply GetSettings_same_control in H as (Hp & _ & _ & Hg).
    intros i g Hi. rewrite Hg in Hi. rewrite Hp. by apply (Hsafe i).
  - destruct (loop_iteration_goroutines _ _ _ _ _ _ Hwf H) as [Hp Hg].
    intros j g' Hj. destruct (Hg j g' Hj) as (g & Hgj & Hfan & Hcv).
    rewrite Hp, <- Hfan, <- Hcv. by apply (Hsafe j).
Qed.

Lemma run_loops_safe pf c evs c' :
  sort_slice_ok pf → well_formed c → loops_safe c → run pf c evs c' →
  loops_safe c'.
Proof.
  intros Hsort Hwf Hsafe Hrun.
  induction Hrun as [c | c ev c1 evs c2 Hstep _ IH]; [done |].
  destruct (step_well_formed _ _ _ _ Hwf Hstep) as [Hwf1 _].
  apply IH; [done |].
  exact (step_loops_safe _ _ _ _ Hsort Hwf Hsafe Hstep).
Qed.

(** X10.  In every state the controller can reach, each goroutine samples
    a curve that has at least two points within bounds in ascending order
    of temperature, for a fan that exists; so a pass through the ticker
    case never panics, whatever the temperature read: it ends normally
    and writes at most once, a PWM value in [0, 255] to the PWM file of
    its fan. *)
Theorem sampling_loop_never_panics :
  ∀ pf paths evs c (i : nat) g temp,
    sort_slice_ok pf →
    run pf (newPlatformController paths) evs c →
    goroutines c !! i = Some g → g_returned g = false →
    valid_curve (g_curve g) ∧ sorted_curve (g_curve g)
    ∧ ∃ c' written,
        loop_iteration pf i CaseTick temp c = Some (Ret tt, c')
        ∧ logged c c' written
        ∧ (written = []
           ∨ ∃ pwmPath v, go_index paths (g_fanID g) = Ret pwmPath
                          ∧ written = [EvWrite pwmPath v] ∧ 0 ≤ v ≤ 255).
Proof.
  intros pf paths evs c i g temp Hsort Hreach Hg Hret.
  destruct (reachable_well_formed _ _ _ _ Hreach) as [Hwf Hpaths].
  pose proof (run_loops_safe _ _ _ _ Hsort (well_formed_new paths)
                (loops_safe_new paths) Hreach) as Hsafe.
  destruct (Hsafe i g Hg) as ((pwmPath & Hidx) & Hvalid & Hsorted).
  split; [done |]. split; [done |].
  unfold loop_iteration. rewrite Hg, Hret. unfold tick_body.
  destruct (0 <? temp).
  2: { exists c, []. split; [done |]. split; [apply logged_refl | by left]. }
  destruct Hvalid as [Hlen Hb].
  destruct (interpolateFanSpeed_percentage (g_curve g) temp)
    as (speed & Hspeed & Hrange); [intros Heq; rewrite Heq in Hlen; simpl in Hlen; lia | done |].
  destruct (setPWMSpeed_in_range pf (g_fanID g) speed c pwmPath Hidx)
    as (ret1 & c1 & Hset & Hs & Hlog).
  destruct (wf_owner c Hwf i g Hg) as [Hown (st & Hst & _)].
  assert (Hst1 : heap c1 !! g_state g = Some st).
  { destruct Hs as (_ & _ & -> & _). by rewrite Hown. }
  destruct (set_lastTemp_spec (g_state g) temp c1 st Hst1)
    as (c2 & Hlast & _ & _ & _ & Htr & _).
  exists c2, [EvWrite pwmPath (pwm_of_percent speed)].
  unfold bind, lift. rewrite Hspeed, Hset, Hlast.
  split; [done |]. split; [unfold logged in *; by rewrite Htr |].
  right. exists pwmPath, (pwm_of_percent speed).
  split; [by rewrite <- Hpaths |]. split; [done |].
  by apply pwm_of_percent_percentage.
Qed.

Lemma sampling_loop_never_panics_witness :
  valid_curve example_curve ∧ sorted_curve example_curve
  ∧ ∃ c' written,
      loop_iteration permissive_platform 0 CaseTick 50 one_fan_in_curve_mode
      = Some (Ret tt, c')
      ∧ logged one_fan_in_curve_mode c' written
      ∧ (written = []
         ∨ ∃ pwmPath v,
             go_index ["/sys/class/hwmon/hwmon0/pwm1"] 0 = Ret pwmPath
             ∧ written = [EvWrite pwmPath v] ∧ 0 ≤ v ≤ 255).
Proof.
  exact (sampling_loop_never_panics permissive_platform
           ["/sys/class/hwmon/hwmon0/pwm1"] _ one_fan_in_curve_mode 0%nat
           (mkGoroutine 0 example_curve 0%nat false) 50
           permissive_platform_sort_ok one_fan_in_curve_mode_reachable
           eq_refl eq_refl).
Defined.

Lemma same_control_active_loop c c' fanID (i : nat) :
  same_control c c' → active_loop c fanID i → active_loop c' fanID i.
Proof.
  intros (_ & _ & Hh & Hg) [(g & state & Hgi & Hret & Hst & Hopen) Hfan].
  split; [exists g, state | ]; rewrite ?Hg, ?Hh; done.
Qed.

Lemma same_control_sym c c' : same_control c c' → same_control c' c.
Proof. intros (? & ? & ? & ?). by repeat split. Qed.

Lemma GetSettings_curve pf c fanID (l : nat) state :
  fanID < Z.of_nat (length (pwmPaths c)) →
  curveStates c !! fanID = Some l → heap c !! l = Some state →
  isActive state = true →
  GetSettings pf fanID c
  = (Ret (inl (mkSettings ModeCurve 0 (curve state))), c).
Proof.
  intros Hlt Hcs Hst Hact. unfold GetSettings, bind, get.
  destruct (Z.leb_spec (Z.of_nat (length (pwmPaths c))) fanID); [lia |].
  by rewrite Hcs, Hst, Hact.
Qed.

(** X4.  Only a request for curve mode can alter the curve states: a
    call of [SetSettings] with any other mode, whatever it returns, leaves
    the registered states, their flags and channels and the goroutines as
    they were.  So a sampling loop that was active stays active, and
    [GetSettings] goes on reporting curve mode with the loop's curve for
    its fan. *)
Theorem only_curve_mode_alters_curve_state :
  ∀ pf c fanID settings r c',
    Mode settings ≠ ModeCurve →
    SetSettings pf fanID settings c = (r, c') →
    same_control c c'
    ∧ (∀ fan (i : nat), active_loop c' fan i ↔ active_loop c fan i)
    ∧ ∀ fan (l : nat) state,
        fan < Z.of_nat (length (pwmPaths c)) →
        curveStates c !! fan = Some l → heap c !! l = Some state →
        isActive state = true →
        GetSettings pf fan c'
        = (Ret (inl (mkSettings ModeCurve 0 (curve state))), c').
Proof.
  intros pf c fanID settings r c' Hmode Hrun.
  assert (Hs : same_control c c').
  { destruct (SetSettings_inv _ _ _ _ _ _ Hrun)
      as [(_ & _ & ->) | [(_ & _ & ->) | (pwmPath & c1 & perr & _ & Hperm & Hrest)]];
      [apply same_control_refl | apply same_control_refl |].
    destruct (checkWritePermissions_spec _ _ _ _ _ Hperm) as (_ & Hs1 & _).
    destruct perr as [err |]; [by destruct Hrest as [_ ->] |].
    destruct (switch_mode_other _ _ _ _ _ _ _ _ Hmode Hrest) as (_ & Hs2 & _).
    by eapply same_control_trans. }
  split; [done |]. split.
  - intros fan i. split; apply same_control_active_loop;
      [by apply same_control_sym | done].
  - intros fan l state Hlt Hcs Hst Hact.
    destruct Hs as (Hp & Hc & Hh & _).
    apply (GetSettings_curve pf c' fan l state); by rewrite ?Hp, ?Hc, ?Hh.
Qed.

Lemma only_curve_mode_alters_curve_state_witness :
  same_control one_fan_in_curve_mode
    (SetSettings permissive_platform 0 (mkSettings ModeFixed 40 [])
       one_fan_in_curve_mode).2
  ∧ (∀ fan (i : nat),
       active_loop
         (SetSettings permissive_platform 0 (mkSettings ModeFixed 40 [])
            one_fan_in_curve_mode).2 fan i
       ↔ active_loop one_fan_in_curve_mode fan i)
  ∧ ∀ fan (l : nat) state,
      fan < Z.of_nat (length (pwmPaths one_fan_in_curve_mode)) →
      curveStates one_fan_in_curve_mode !! fan = Some l →
      heap one_fan_in_curve_mode !! l = Some state →
      isActive state = true →
      GetSettings permissive_platform fan
        (SetSettings permissive_platform 0 (mkSettings ModeFixed 40 [])
           one_fan_in_curve_mode).2
      = (Ret (inl (mkSettings ModeCurve 0 (curve state))),
         (SetSettings permissive_platform 0 (mkSettings ModeFixed 40 [])
            one_fan_in_curve_mode).2).
Proof.
  apply (only_curve_mode_alters_curve_state permissive_platform
           one_fan_in_curve_mode 0 (mkSettings ModeFixed 40 [])
           (SetSettings permissive_platform 0 (mkSettings ModeFixed 40 [])
              one_fan_in_curve_mode).1);
    [done | by destruct (SetSettings _ _ _ _)].
Defined.

(** X5.  When one of the two control files of the fan cannot be found or
    opened for writing, [SetSettings] returns the permission error in
    every mode, having written nothing and left the curve states alone: a
    request for curve mode then does not stop the loop that is running. *)
Theorem permission_failure_changes_nothing :
  ∀ pf c fanID settings pwmPath err c1,
    go_index (pwmPaths c) fanID = Ret pwmPath →
    checkWritePermissions pf [pwmPath; pwmPath +:+ "_enable"] c
    = (Ret (Some err), c1) →
    SetSettings pf fanID settings c
    = (Ret (Some (ErrInsufficientPermissions err)), c1)
    ∧ same_control c c1
    ∧ (∀ fan (i : nat), active_loop c fan i → active_loop c1 fan i)
    ∧ (∃ evs, logged c c1 evs ∧ no_writes evs)
    ∧ ∃ path, path ∈ [pwmPath; pwmPath +:+ "_enable"]
              ∧ (err = ErrPathNotAccessible path
                 ∨ err = ErrNoWritePermission path).
Proof.
  intros pf c fanID settings pwmPath err c1 Hidx Hperm.
  rewrite (SetSettings_reaches_switch _ _ _ _ _ _ _ Hidx Hperm).
  destruct (checkWritePermissions_spec _ _ _ _ _ Hperm) as (_ & Hs & Hlog).
  split; [done |]. split; [done |].
  split; [intros fan i; by apply same_control_active_loop |].
  split; [done |].
  revert Hperm. simpl. unfold bind, os_Stat, os_OpenFile, bind, get, emit, ret.
  simpl.
  destruct (stat_ok pf (trace c) pwmPath); simpl.
  2: { intros [= <- _]. exists pwmPath. split; [left | by left]. }
  destruct (open_ok pf _ pwmPath); simpl.
  2: { intros [= <- _]. exists pwmPath. split; [left | by right]. }
  destruct (stat_ok pf _ (pwmPath +:+ "_enable")); simpl.
  2: { intros [= <- _]. exists (pwmPath +:+ "_enable").
       split; [right; left | by left]. }
  destruct (open_ok pf _ (pwmPath +:+ "_enable")); simpl; [done |].
  intros [= <- _]. exists (pwmPath +:+ "_enable").
  split; [right; left | by right].
Qed.

Lemma permission_failure_changes_nothing_witness :
  let c1 := (checkWritePermissions read_only_platform
               ["/sys/class/hwmon/hwmon0/pwm1";
                "/sys/class/hwmon/hwmon0/pwm1_enable"] one_fan_in_curve_mode).2
  in
  SetSettings read_only_platform 0 (curve_request flat_curve)
    one_fan_in_curve_mode
  = (Ret (Some (ErrInsufficientPermissions
                  (ErrNoWritePermission "/sys/class/hwmon/hwmon0/pwm1"))), c1)
  ∧ same_control one_fan_in_curve_mode c1
  ∧ (∀ fan (i : nat),
       active_loop one_fan_in_curve_mode fan i → active_loop c1 fan i)
  ∧ (∃ evs, logged one_fan_in_curve_mode c1 evs ∧ no_writes evs)
  ∧ ∃ path, path ∈ ["/sys/class/hwmon/hwmon0/pwm1";
                    "/sys/class/hwmon/hwmon0/pwm1_enable"]
            ∧ (ErrNoWritePermission "/sys/class/hwmon/hwmon0/pwm1"
               = ErrPathNotAccessible path
               ∨ ErrNoWritePermission "/sys/class/hwmon/hwmon0/pwm1"
                 = ErrNoWritePermission path).
Proof.
  exact (permission_failure_changes_nothing read_only_platform
           one_fan_in_curve_mode 0 (curve_request flat_curve)
           "/sys/class/hwmon/hwmon0/pwm1"
           (ErrNoWritePermission "/sys/class/hwmon/hwmon0/pwm1") _
           eq_refl eq_refl).
Defined.

(** X6.  After [SetSettings] has accepted a curve for a fan, [GetSettings]
    for that fan reports curve mode without touching any file, and the
    curve it reports is the requested one put in ascending order of
    temperature: the same points, at least two, all within bounds. *)
Theorem GetSettings_reports_installed_curve :
  ∀ pf c fanID settings c',
    sort_slice_ok pf → well_formed c → Mode settings = ModeCurve →
    SetSettings pf fanID settings c = (Ret None, c') →
    ∃ cv,
      GetSettings pf fanID c' = (Ret (inl (mkSettings ModeCurve 0 cv)), c')
      ∧ cv ≡ₚ Curve settings ∧ sorted_curve cv ∧ valid_curve cv.
Proof.
  intros pf c fanID settings c' Hsort Hwf Hmode Hrun.
  destruct (SetSettings_curve_installs _ _ _ _ _ Hwf Hmode Hrun)
    as (_ & Hcs & Hst & _ & _ & Hval & Hlen & pwmPath & Hidx).
  destruct (SetSettings_well_formed _ _ _ _ _ _ Hwf Hrun) as [_ [Hp _]].
  destruct (accepted_curve_valid_sorted pf (Curve settings) Hsort Hlen Hval)
    as (Hvalid & Hsorted & Hperm).
  exists (sort_slice pf (Curve settings)).
  split; [| done].
  apply go_index_Ret in Hidx as [Hpos Hlook].
  apply lookup_lt_Some in Hlook.
  apply (GetSettings_curve pf c' fanID (length (heap c))
           (mkCurveState (sort_slice pf (Curve settings)) 0 true ChanOpen));
    [rewrite Hp; lia | done | done | done].
Qed.

Lemma GetSettings_reports_installed_curve_witness :
  ∃ cv,
    GetSettings permissive_platform 0 one_fan_in_curve_mode
    = (Ret (inl (mkSettings ModeCurve 0 cv)), one_fan_in_curve_mode)
    ∧ cv ≡ₚ example_curve ∧ sorted_curve cv ∧ valid_curve cv.
Proof.
  exact (GetSettings_reports_installed_curve permissive_platform one_fan 0
           (curve_request example_curve) one_fan_in_curve_mode
           permissive_platform_sort_ok (well_formed_new _) eq_refl eq_refl).
Defined.

Lemma percent_round_trip (speed : Z) :
  0 ≤ speed ≤ 100 →
  speed - 1 ≤ GoInt.mul (fixed_pwm speed) 100 ÷ 255 ≤ speed.
Proof.
  intros Hs. rewrite fixed_pwm_value by lia.
  replace (speed <? 0) with false by (symmetry; apply Z.ltb_ge; lia).
  replace (100 <? speed) with false by (symmetry; apply Z.ltb_ge; lia).
  rewrite (Z.quot_div_nonneg (speed * 255) 100) by lia.
  pose proof (Z.div_mod (speed * 255) 100 ltac:(lia)) as Hdm.
  pose proof (Z.mod_pos_bound (speed * 255) 100 ltac:(lia)) as Hmod.
  set (v := speed * 255 / 100) in *.
  assert (0 ≤ v ≤ 255) by lia.
  unfold GoInt.mul. rewrite wrap_small
    by (unfold GoInt.in_range, GoInt.min_int, GoInt.max_int; lia).
  rewrite Z.quot_div_nonneg by lia.
  split.
  - apply Z.div_le_lower_bound; lia.
  - apply Z.div_le_upper_bound; lia.
Qed.

(** X7.  A fan without a registered curve whose enable file reads "1" is
    reported in fixed mode with the PWM value scaled back to a percentage;
    both files are read, nothing is written.  Scaling is by truncating
    division in both directions, so the percentage read back for the value
    [SetSettings] writes for a speed in [0, 100] is that speed or one
    less. *)
Theorem fixed_speed_read_back :
  ∀ pf c fanID pwmPath enableData pwmData speed,
    go_index (pwmPaths c) fanID = Ret pwmPath →
    curveStates c !! fanID = None →
    read_file pf (trace c) (pwmPath +:+ "_enable") = Some enableData →
    TrimSpace pf enableData = "1" →
    read_file pf (trace c ++ [EvRead (pwmPath +:+ "_enable")]) pwmPath
    = Some pwmData →
    Atoi pf (TrimSpace pf pwmData) = Some (fixed_pwm speed) →
    0 ≤ speed ≤ 100 →
    ∃ back c',
      GetSettings pf fanID c = (Ret (inl (mkSettings ModeFixed back [])), c')
      ∧ speed - 1 ≤ back ≤ speed
      ∧ same_control c c'
      ∧ logged c c' [EvRead (pwmPath +:+ "_enable"); EvRead pwmPath].
Proof.
  intros pf c fanID pwmPath enableData pwmData speed Hidx Hcs Hen Htrim
    Hpwm Hatoi Hspeed.
  exists (GoInt.mul (fixed_pwm speed) 100 ÷ 255).
  pose proof Hidx as Hidx'. apply go_index_Ret in Hidx' as [Hpos Hlook].
  apply lookup_lt_Some in Hlook.
  unfold GetSettings, bind, get, lift, ioutil_ReadFile, bind, get, emit, ret.
  destruct (Z.leb_spec (Z.of_nat (length (pwmPaths c))) fanID); [lia |].
  rewrite Hcs, Hidx. simpl. rewrite Hen. simpl. rewrite Hpwm, Hatoi, Htrim.
  simpl. eexists. split; [done |].
  split; [by apply percent_round_trip |].
  split; [by repeat split |].
  unfold logged. simpl. by rewrite <- app_assoc.
Qed.

Lemma fixed_speed_read_back_witness :
  ∃ back c',
    GetSettings readback_platform 0 one_fan
    = (Ret (inl (mkSettings ModeFixed back [])), c')
    ∧ 50 - 1 ≤ back ≤ 50
    ∧ same_control one_fan c'
    ∧ logged one_fan c' [EvRead "/sys/class/hwmon/hwmon0/pwm1_enable";
                         EvRead "/sys/class/hwmon/hwmon0/pwm1"].
Proof.
  exact (fixed_speed_read_back readback_platform one_fan 0
           "/sys/class/hwmon/hwmon0/pwm1" "1" "127" 50
           eq_refl eq_refl eq_refl eq_refl eq_refl eq_refl
           ltac:(lia)).
Defined.

(** X8.  On Windows no call of [SetSettings] succeeds: whatever the fan
    and the request, it returns an error without panicking; for a fan in
    range the error says that the operation is not supported, or that the
    fixed speed is outside [0, 100].  [GetSettings] never panics either
    and reports every fan in range in automatic mode, without a curve. *)
Theorem Windows_fan_control_never_succeeds :
  ∀ c fanID settings,
    (∃ err, Windows.SetSettings c fanID settings = Ret (Some err)
            ∧ (kind_of err = NotFoundError
               ↔ fanID < 0 ∨ Z.of_nat (length (fans c)) ≤ fanID)
            ∧ (kind_of err = ValidationError
               → Mode settings = ModeFixed
                 ∧ ¬ 0 ≤ FixedSpeed settings ≤ 100))
    ∧ ∃ r, Windows.GetSettings c fanID = Ret r
           ∧ ∀ s, r = inl s → Mode s = ModeAuto ∧ Curve s = [].
Proof.
  intros c fanID settings.
  destruct (decide (fanID < 0 ∨ Z.of_nat (length (fans c)) ≤ fanID))
    as [Hout | Hin].
  { destruct (Windows_out_of_range c fanID settings Hout) as [-> ->].
    split; [| exists (inr (ErrFanOutOfRange fanID)); by split].
    exists (ErrFanOutOfRange fanID). by repeat split. }
  assert (Hrange : Windows.in_range c fanID = true).
  { unfold Windows.in_range. apply negb_true_iff, orb_false_iff.
    split; [apply Z.ltb_ge | apply Z.leb_gt]; lia. }
  destruct (lookup_lt_is_Some_2 (fans c) (Z.to_nat fanID) ltac:(lia))
    as [fan Hfan].
  assert (Hidx : go_index (fans c) fanID = Ret fan)
    by (apply go_index_Ret; split; [lia | done]).
  unfold Windows.SetSettings, Windows.GetSettings, Windows.setFixedSpeed,
    Windows.setAutoMode.
  rewrite Hrange, Hidx. simpl. split.
  - destruct (Controllable fan); simpl.
    2: { eexists. split; [done |]. split; [| done]. split; [done | tauto]. }
    destruct (Mode settings) eqn:Hmode;
      try (eexists; split; [done |]; split; [| done]; split; [done | tauto]).
    destruct ((FixedSpeed settings <? 0) || (100 <? FixedSpeed settings))
      eqn:Hclamp; simpl.
    + eexists. split; [done |]. split; [split; [done | tauto] |].
      intros _. split; [done |].
      apply orb_true_iff in Hclamp as [H | H]; apply Z.ltb_lt in H; lia.
    + eexists. split; [done |]. split; [| done]. split; [done | tauto].
  - eexists. split; [done |]. by intros s [= <-].
Qed.

Lemma scan_temperature_files_spec pf (paths : list string) c :
  ∃ found c' (n : nat),
    scan_temperature_files pf paths c = (Ret found, c')
    ∧ same_control c c'
    ∧ logged c c' (EvRead <$> take n paths)
    ∧ match found with
      | Some temp => 0 < temp < 120
      | None => n = length paths
      end.
Proof.
  revert c. induction paths as [| path rest IH]; intros c.
  - exists None, c, 0%nat. simpl.
    split; [done |]. split; [apply same_control_refl |].
    split; [apply logged_refl | done].
  - pose (c1 := mkLinuxController (pwmPaths c) (curveStates c) (heap c)
                  (goroutines c) (trace c ++ [EvRead path])).
    destruct (IH c1) as (found & c' & n & Hrun & Hs & Hl & Hfound).
    assert (Hskip : ∃ found c' (n : nat),
              scan_temperature_files pf rest c1 = (Ret found, c')
              ∧ same_control c c'
              ∧ logged c c' (EvRead <$> take n (path :: rest))
              ∧ match found with
                | Some temp => 0 < temp < 120
                | None => n = length (path :: rest)
                end).
    { exists found, c', (S n). split; [done |].
      split; [destruct Hs as (? & ? & ? & ?); by repeat split |].
      split; [| destruct found; simpl; [done | lia]].
      unfold logged in *. rewrite Hl. simpl. by rewrite <- app_assoc. }
    simpl. unfold bind at 1.
    unfold ioutil_ReadFile, bind, get, emit, ret. simpl. fold c1.
    destruct (read_file pf (trace c) path) as [data |]; [| done].
    destruct (Atoi pf (TrimSpace pf data)) as [temp |]; [| done].
    destruct ((0 <? (if 1000 <? temp then temp ÷ 1000 else temp))
              && ((if 1000 <? temp then temp ÷ 1000 else temp) <? 120))
      eqn:Hok; [| done].
    apply andb_true_iff in Hok as [H1 H2].
    apply Z.ltb_lt in H1. apply Z.ltb_lt in H2.
    eexists (Some _), c1, 1%nat. split; [done |].
    split; [by repeat split |]. split; [| done].
    unfold logged. simpl. by destruct rest.
Qed.

(** X9.  [getCurrentTemperature] never panics and writes nothing: it
    reads the three common sensor files and then the discovered ones, in
    that order, and stops at the first file whose reading (divided by
    1000 when above 1000) lies strictly between 0 and 120, which it
    returns.  Only when no file gives such a reading, all having been
    read, is the result what the [sensors] command yields, or 0. *)
Theorem getCurrentTemperature_plausible :
  ∀ pf tempPaths sensors c,
    ∃ temp c' (n : nat),
      getCurrentTemperature pf tempPaths sensors c = (Ret temp, c')
      ∧ same_control c c'
      ∧ logged c c' (EvRead <$> take n (common_temperature_paths ++ tempPaths))
      ∧ no_writes (EvRead <$> take n (common_temperature_paths ++ tempPaths))
      ∧ (0 < temp < 120
         ∨ (n = length (common_temperature_paths ++ tempPaths)
            ∧ temp = default 0 sensors)).
Proof.
  intros pf tempPaths sensors c.
  destruct (scan_temperature_files_spec pf
              (common_temperature_paths ++ tempPaths) c)
    as (found & c' & n & Hrun & Hs & Hl & Hfound).
  assert (Hnw : no_writes
            (EvRead <$> take n (common_temperature_paths ++ tempPaths))).
  { unfold no_writes. apply Forall_fmap, Forall_forall. by intros. }
  unfold getCurrentTemperature, bind. rewrite Hrun.
  destruct found as [temp |].
  - exists temp, c', n. unfold ret. eauto 10.
  - exists (default 0 sensors), c', n. unfold ret.
    split; [done |]. split; [done |]. split; [done |]. split; [done |].
    by right.
Qed.

Lemma reachable_registered_nonnegative pf paths evs c fanID (l : nat) :
  sort_slice_ok pf → run pf (newPlatformController paths) evs c →
  curveStates c !! fanID = Some l → 0 ≤ fanID.
Proof.
  intros Hsort Hreach Hcs.
  destruct (reachable_well_formed _ _ _ _ Hreach) as [Hwf _].
  pose proof (run_loops_safe _ _ _ _ Hsort (well_formed_new paths)
                (loops_safe_new paths) Hreach) as Hsafe.
  destruct (wf_registered c Hwf fanID l Hcs) as (g & state & Hg & Hfan & _).
  destruct (Hsafe l g Hg) as ((pwmPath & Hidx) & _).
  apply go_index_Ret in Hidx as [Hpos _]. lia.
Qed.

(** X11.  In every state the controller can reach, [SetSettings] and
    [GetSettings] panic for exactly the negative fan IDs: for every other
    ID both return, in every mode and whatever the files do.  In
    particular the stop channel of a curve state is never closed twice. *)
Theorem methods_panic_exactly_on_negative_id :
  ∀ pf paths evs c fanID settings,
    sort_slice_ok pf →
    run pf (newPlatformController paths) evs c →
    ((∃ c', SetSettings pf fanID settings c = (Panic, c')) ↔ fanID < 0)
    ∧ ((∃ c', GetSettings pf fanID c = (Panic, c')) ↔ fanID < 0).
Proof.
  intros pf paths evs c fanID settings Hsort Hreach.
  destruct (reachable_well_formed _ _ _ _ Hreach) as [Hwf _].
  split; split.
  - intros [c' Hrun].
    destruct (SetSettings_inv _ _ _ _ _ _ Hrun)
      as [(_ & [=] & _) | [(Hneg & _) | (pwmPath & c1 & perr & _ & Hperm & Hrest)]];
      [done |].
    destruct (checkWritePermissions_spec _ _ _ _ _ Hperm) as (_ & Hs1 & _).
    destruct perr as [err |]; [by destruct Hrest as [[=] _] |].
    assert (Mode settings = ModeCurve ∨ Mode settings ≠ ModeCurve)
      as [Hcurve | Hother] by (destruct (Mode settings); auto).
    + unfold switch_mode in Hrest. rewrite Hcurve in Hrest.
      pose proof (same_control_well_formed _ _ Hs1 Hwf) as Hwf1.
      by destruct (set_curve_mode_well_formed _ _ _ _ _ _ _ Hwf1 Hrest)
        as [[ret [=]] _].
    + by destruct (switch_mode_other _ _ _ _ _ _ _ _ Hother Hrest)
        as [[ret [=]] _].
  - intros Hneg. exists c. by apply SetSettings_negative.
  - intros [c' Hrun].
    destruct (Z.lt_ge_cases fanID 0) as [| Hpos]; [done |]. exfalso.
    revert Hrun. unfold GetSettings, bind, get, lift, ioutil_ReadFile, bind,
      get, emit, ret.
    destruct (Z.leb_spec (Z.of_nat (length (pwmPaths c))) fanID) as [| Hlt];
      [done |].
    destruct (lookup_lt_is_Some_2 (pwmPaths c) (Z.to_nat fanID) ltac:(lia))
      as [pwmPath Hlook].
    assert (Hidx : go_index (pwmPaths c) fanID = Ret pwmPath)
      by (apply go_index_Ret; split; [lia | done]).
    rewrite Hidx. simpl.
    repeat match goal with
           | |- context [match ?x with _ => _ end] => destruct x
           end; done.
  - intros Hneg. exists c. apply GetSettings_negative; [done |].
    destruct (curveStates c !! fanID) as [l |] eqn:Hcs; [| done].
    pose proof (reachable_registered_nonnegative _ _ _ _ _ _ Hsort Hreach Hcs).
    lia.
Qed.

Lemma methods_panic_exactly_on_negative_id_witness :
  ((∃ c', SetSettings permissive_platform 3 (curve_request flat_curve)
            one_fan_in_curve_mode = (Panic, c')) ↔ 3 < 0)
  ∧ ((∃ c', GetSettings permissive_platform 3 one_fan_in_curve_mode
            = (Panic, c')) ↔ 3 < 0).
Proof.
  exact (methods_panic_exactly_on_negative_id permissive_platform
           ["/sys/class/hwmon/hwmon0/pwm1"] _ one_fan_in_curve_mode 3
           (curve_request flat_curve) permissive_platform_sort_ok
           one_fan_in_curve_mode_reachable).
Defined.

End linux_controller_more.

(** ** More on validation and the profile store *)

Section profiles_more.
Import overclock.

Lemma voltage_check (v : Q) :
  flt v (of_int (-100)) || flt (of_int 100) v = false
  ↔ (-100 # 1 <= v <= 100 # 1)%Q.
Proof.
  unfold flt, of_int.
  rewrite orb_false_iff, !negb_false_iff, !Qle_bool_iff. done.
Qed.

(** The Linux controller accepts a record exactly when every field lies
    in its closed range. *)
Lemma Linux_validateSettings_accepts (s : Settings) :
  Linux.validateSettings (Some s) = None ↔
    within (-500) 500 (CoreClockOffset s)
    ∧ within (-1000) 1000 (MemoryClockOffset s)
    ∧ within 50 150 (PowerLimit s)
    ∧ within 60 95 (TempLimit s)
    ∧ within 0 100 (FanSpeed s)
    ∧ (-100 # 1 <= VoltageOffset s <= 100 # 1)%Q.
Proof.
  rewrite <- !range_check, <- voltage_check.
  unfold Linux.validateSettings.
  repeat match goal with
         | |- context [if ?b then _ else _] =>
             destruct b eqn:?;
               [split; [done | intros (? & ? & ? & ? & ? & ?); congruence] |]
         end.
  done.
Qed.

(** X12.  Validation on Windows is the weaker one: whatever the Linux
    controller accepts the Windows controller accepts as well, and the
    two agree on every record whose power limit and temperature limit
    are not left at the zero sentinel. *)
Theorem Windows_validation_is_weaker :
  (∀ settings, Linux.validateSettings settings = None →
               Windows.validateSettings settings = None)
  ∧ ∀ s, PowerLimit s ≠ 0 → TempLimit s ≠ 0 →
         Windows.validateSettings (Some s) = None →
         Linux.validateSettings (Some s) = None.
Proof.
  split.
  - intros [s |]; [| done]. intros H.
    apply Linux_validateSettings_accepts in H
      as (? & ? & ? & ? & ? & ?).
    apply Windows_validateSettings_exempts_sentinel. tauto.
  - intros s Hp Ht H.
    apply Windows_validateSettings_exempts_sentinel in H
      as (Hc & Hm & Hpl & Htl & Hf & Hv).
    apply Linux_validateSettings_accepts. unfold within in *.
    split; [lia |]. split; [lia |]. split; [lia |]. split; [lia |].
    split; [done |].
    destruct Hv as [Hv | Hv]; [| done]. rewrite Hv. by split.
Qed.

Lemma Windows_validation_is_weaker_witness :
  Windows.validateSettings (Some (mkSettings 0 0 0 120 80 0 (of_int 0)))
  = None
  ∧ Linux.validateSettings (Some (mkSettings 0 0 0 120 80 0 (of_int 0)))
    = None.
Proof.
  split;
    [apply (proj1 Windows_validation_is_weaker)
    | apply (proj2 Windows_validation_is_weaker); [done | done |]];
    reflexivity.
Defined.

Lemma WriteFile_log h name data m :
  log (WriteFile h name data m).2 = log m ++ [SysWriteFile name data].
Proof. apply put_log. Qed.

(** What [WriteFile] has written is read back by the same name. *)
Lemma WriteFile_read h name data m m' :
  WriteFile h name data m = (true, m') → read_path h name m' = Some data.
Proof.
  unfold WriteFile. intros Hw.
  pose proof (put_read h name data (SysWriteFile name data)
                (write_ok h (log m) name data) m) as Hread.
  rewrite Hw in Hread. by apply Hread.
Qed.

Lemma WriteFile_entry h name n data m m' :
  locate h name = InDirectory n →
  WriteFile h name data m = (true, m') →
  ReadFile n m' = Some data
  ∧ ∃ d, dir m = Some d ∧ dir m' = Some (<[n := File (Some data)]> d).
Proof.
  unfold WriteFile. intros Hloc Hw.
  destruct (put_inside h name n data (SysWriteFile name data)
              (write_ok h (log m) name data) m Hloc) as [_ Hdir].
  rewrite Hw in Hdir. simpl in Hdir. destruct Hdir as (d & Hd & _ & Hd').
  split; [| by exists d].
  unfold ReadFile. by rewrite Hd', lookup_insert_eq.
Qed.

Lemma SaveProfile_success h validate profile m m' :
  SaveProfile h validate profile m = (None, m') →
  Name profile ≠ "" ∧ Name profile ≠ "_current"
  ∧ validate (ProfileSettings profile) = None
  ∧ ∃ data, MarshalIndent h profile = Some data
            ∧ WriteFile h (Name profile +:+ ".json") data m = (true, m').
Proof.
  unfold SaveProfile.
  destruct (String.eqb_spec (Name profile) ""); [done |].
  destruct (String.eqb_spec (Name profile) "_current"); [done |].
  destruct (validate (ProfileSettings profile)); [done |].
  destruct (MarshalIndent h profile) as [data |]; [| done].
  destruct (WriteFile h (Name profile +:+ ".json") data m) as [[] m1] eqn:Hw;
    [| done].
  intros [= <-]. repeat split; try done. by exists data.
Qed.

(** *** What a call leaves as it was *)













(** X15.  Loading a profile that the Linux controller has saved, when
    decoding gives back what was encoded, applies the profile's settings:
    [LoadProfile] finds the file, the settings pass the validation of
    [SetSettings] (they passed the same validation when saved), and the
    call ends as the writing of the snapshot ends. *)
Theorem LoadProfile_applies_saved_settings :
  ∀ h profile m m' data,
    SaveProfile h Linux.validateSettings profile m = (None, m') →
    MarshalIndent h profile = Some data →
    Unmarshal h data = Some profile →
    LoadProfile h (Linux_SetSettings h) (Name profile) m'
    = match save_current h (ProfileSettings profile) m' with
      | (Some err, m'') => (Some (ErrLoadApply err), m'')
      | (None, m'') => (None, m'')
      end.
Proof.
  intros h profile m m' data Hsave Hmar Hun.
  destruct (SaveProfile_success _ _ _ _ _ Hsave)
    as (Hne & _ & Hval & data' & Hmar' & Hw).
  assert (data' = data) as -> by congruence.
  pose proof (WriteFile_read _ _ _ _ _ Hw) as Hread.
  unfold LoadProfile.
  destruct (String.eqb_spec (Name profile) ""); [done |].
  rewrite Hread, Hun. unfold Linux_SetSettings. by rewrite Hval.
Qed.

Lemma LoadProfile_applies_saved_settings_witness :
  LoadProfile stock_host (Linux_SetSettings stock_host) "quiet"
    (SaveProfile stock_host Linux.validateSettings
       (mkProfile "quiet" (Some (Linux_GetSettings 0))) empty_store).2
  = match save_current stock_host (Some (Linux_GetSettings 0))
            (SaveProfile stock_host Linux.validateSettings
               (mkProfile "quiet" (Some (Linux_GetSettings 0)))
               empty_store).2 with
    | (Some err, m'') => (Some (ErrLoadApply err), m'')
    | (None, m'') => (None, m'')
    end.
Proof.
  exact (LoadProfile_applies_saved_settings stock_host
           (mkProfile "quiet" (Some (Linux_GetSettings 0))) empty_store _
           "quiet" eq_refl eq_refl eq_refl).
Defined.

(** The snapshot is written last: nothing, when the record cannot be
    encoded, or the one write of [_current.json]. *)
Lemma save_current_tail h settings m :
  ∃ tail,
    log (save_current h settings m).2 = log m ++ tail
    ∧ (tail = [] ∧ (save_current h settings m).1 ≠ None
       ∨ ∃ data,
           MarshalIndent h (mkProfile "_current" settings) = Some data
           ∧ tail = [SysWriteFile "_current.json" data]
           ∧ ((save_current h settings m).1 = None
              ∧ ReadFile "_current.json" (save_current h settings m).2
                = Some data
              ∨ (save_current h settings m).1 = Some ErrSaveCurrentSettings)).
Proof.
  unfold save_current.
  destruct (MarshalIndent h (mkProfile "_current" settings)) as [data |].
  2: { exists []. simpl. rewrite app_nil_r. split; [done |]. by left. }
  exists [SysWriteFile "_current.json" data].
  pose proof (WriteFile_log h "_current.json" data m) as Hlog.
  destruct (WriteFile h "_current.json" data m) as [ok m1] eqn:Hw.
  simpl in Hlog. destruct ok; simpl; (split; [done |]); right; exists data;
    (split; [done |]); (split; [done |]); [left | by right].
  split; [done |].
  by destruct (WriteFile_entry _ _ _ _ _ _ (locate_current h) Hw).
Qed.

Lemma save_current_success h settings m m' :
  save_current h settings m = (None, m') →
  ∃ data, MarshalIndent h (mkProfile "_current" settings) = Some data
          ∧ ReadFile "_current.json" m' = Some data
          ∧ log m' = log m ++ [SysWriteFile "_current.json" data].
Proof.
  intros Hsave.
  destruct (save_current_tail h settings m) as (tail & Hlog & Htail).
  rewrite Hsave in Hlog, Htail. simpl in Hlog, Htail.
  destruct Htail as [[_ ?] | (data & Hmar & -> & [[_ Hread] | ?])];
    [done | | done].
  by exists data.
Qed.


(** X16.  [LoadProfile] does not reserve the name [_current], which
    [SaveProfile] refuses: once [SetSettings] has succeeded on either
    platform, loading [_current] finds the snapshot and applies whatever
    settings decode from it. *)
Theorem LoadProfile_reads_the_snapshot :
  ∀ h set settings m m',
    Linux_SetSettings h settings m = (None, m')
    ∨ Windows_SetSettings h settings m = (None, m') →
    ∃ data,
      MarshalIndent h (mkProfile "_current" settings) = Some data
      ∧ ReadFile "_current.json" m' = Some data
      ∧ LoadProfile h set "_current" m'
        = match Unmarshal h data with
          | None => (Some ErrParseProfile, m')
          | Some profile =>
              match set (ProfileSettings profile) m' with
              | (Some err, m'') => (Some (ErrLoadApply err), m'')
              | (None, m'') => (None, m'')
              end
          end.
Proof.
  intros h set settings m m' Hset.
  assert (Hsave : ∃ m1, save_current h settings m1 = (None, m')).
  { destruct Hset as [Hset | Hset].
    - unfold Linux_SetSettings in Hset.
      destruct (Linux.validateSettings settings); [done |]. by exists m.
    - unfold Windows_SetSettings in Hset.
      destruct (Windows.validateSettings settings); [done |].
      destruct settings as [s |]; [| done].
      destruct (detectGPUVendor h (DeviceID s) m) as [[| | |] m1];
        try done.
      + destruct (setNvidiaSettings h s m1) as [[err |] m2]; [done |].
        by exists m2.
      + destruct (setAMDSettings h s m1) as [[err |] m2]; [done |].
        by exists m2. }
  destruct Hsave as [m1 Hsave].
  destruct (save_current_success _ _ _ _ Hsave) as (data & Hmar & Hread & _).
  exists data. split; [done |]. split; [done |].
  unfold LoadProfile.
  change ("_current" +:+ ".json") with "_current.json".
  unfold read_path. rewrite locate_current. by rewrite Hread.
Qed.

Lemma LoadProfile_reads_the_snapshot_witness :
  ∃ data,
    MarshalIndent stock_host (mkProfile "_current" (Some (Linux_GetSettings 0)))
    = Some data
    ∧ ReadFile "_current.json"
        (Linux_SetSettings stock_host (Some (Linux_GetSettings 0))
           empty_store).2
      = Some data
    ∧ LoadProfile stock_host (Linux_SetSettings stock_host) "_current"
        (Linux_SetSettings stock_host (Some (Linux_GetSettings 0))
           empty_store).2
      = match Unmarshal stock_host data with
        | None =>
            (Some ErrParseProfile,
             (Linux_SetSettings stock_host (Some (Linux_GetSettings 0))
                empty_store).2)
        | Some profile =>
            match Linux_SetSettings stock_host (ProfileSettings profile)
                    (Linux_SetSettings stock_host
                       (Some (Linux_GetSettings 0)) empty_store).2 with
            | (Some err, m'') => (Some (ErrLoadApply err), m'')
            | (None, m'') => (None, m'')
            end
        end.
Proof.
  exact (LoadProfile_reads_the_snapshot stock_host
           (Linux_SetSettings stock_host) (Some (Linux_GetSettings 0))
           empty_store _ (or_introl eq_refl)).
Defined.

Lemma setNvidiaSettings_dir h s m : dir (setNvidiaSettings h s m).2 = dir m.
Proof. rewrite setNvidiaSettings_machine. by destruct (0 <? PowerLimit s). Qed.

Lemma setNvidiaSettings_result h s m :
  (setNvidiaSettings h s m).1 = None ↔
    ((0 <? PowerLimit s)
     && negb (tool_ok h (log m)
                (SysNvidiaSmiPowerLimit (DeviceID s) (PowerLimit s)))
     = false)
    ∧ negb (CoreClockOffset s =? 0) || negb (MemoryClockOffset s =? 0) = false
    ∧ negb (Qeq_bool (VoltageOffset s) (of_int 0)) = false
    ∧ (0 <? FanSpeed s) = false.
Proof.
  unfold setNvidiaSettings, run_tool.
  destruct (0 <? PowerLimit s); [destruct (tool_ok h _ _) |];
    destruct (negb (CoreClockOffset s =? 0) || negb (MemoryClockOffset s =? 0));
    destruct (negb (Qeq_bool (VoltageOffset s) (of_int 0)));
    destruct (0 <? FanSpeed s); simpl; split; try done;
    intros (? & ? & ? & ?); done.
Qed.

(** X17.  On Windows an NVIDIA card takes nothing but a power limit:
    [setNvidiaSettings] succeeds exactly when both clock offsets and the
    voltage offset are zero, no fan speed is asked for, and the power
    limit, if one is asked for, was set by [nvidia-smi].  A power limit
    above zero is handed to [nvidia-smi] in every case, also when the
    call is bound to fail for another field; nothing else is run and the
    profile directory is not touched. *)
Theorem Windows_setNvidiaSettings_power_limit_only :
  ∀ h s m,
    ((setNvidiaSettings h s m).1 = None ↔
       CoreClockOffset s = 0 ∧ MemoryClockOffset s = 0
       ∧ (VoltageOffset s == 0)%Q ∧ FanSpeed s ≤ 0
       ∧ (0 < PowerLimit s →
          tool_ok h (log m)
            (SysNvidiaSmiPowerLimit (DeviceID s) (PowerLimit s)) = true))
    ∧ dir (setNvidiaSettings h s m).2 = dir m
    ∧ log (setNvidiaSettings h s m).2
      = log m ++ (if 0 <? PowerLimit s
                  then [SysNvidiaSmiPowerLimit (DeviceID s) (PowerLimit s)]
                  else []).
Proof.
  intros h s m. split; [| split].
  - rewrite setNvidiaSettings_result.
    rewrite andb_false_iff, orb_false_iff, !negb_false_iff.
    rewrite Z.ltb_ge, Z.ltb_ge, !Z.eqb_eq, Qeq_bool_iff. unfold of_int.
    split.
    + intros (Hp & (Hc & Hm) & Hv & Hf). repeat split; try done.
      intros Hpos. destruct Hp as [Hp | Hp]; [lia | done].
    + intros (Hc & Hm & Hv & Hf & Hp). repeat split; try done.
      destruct (Z.le_gt_cases (PowerLimit s) 0) as [| Hpos]; [by left |].
      right. apply Hp. lia.
  - apply setNvidiaSettings_dir.
  - rewrite setNvidiaSettings_machine.
    destruct (0 <? PowerLimit s); simpl; [done | by rewrite app_nil_r].
Qed.






End profiles_more.

(** ** More on applying overclock settings *)

Section apply_settings_more.
Import gpu.

Lemma attempt_progress h c failed applied calls made p :
  (∀ err, hard_failure (failed err)) →
  nvidia_progress calls made p →
  nvidia_progress calls (made ++ [c]) (attempt h c failed applied p).
Proof.
  intros Hhard (Hcalls & Hrep & Herr). unfold attempt, invoke.
  destruct (call_error h p.2 c) as [err |]; simpl;
    (split; [by rewrite Hcalls, app_assoc |]);
    unfold reports in *; simpl; rewrite !length_app; simpl;
    (split; [lia |]); [| done].
  apply Forall_app. split; [done |]. by apply Forall_singleton.
Qed.

Lemma attempt_soft_progress h c failed applied calls made p :
  nvidia_progress calls made p →
  nvidia_progress calls (made ++ [c]) (attempt_soft h c failed applied p).
Proof.
  intros (Hcalls & Hrep & Herr). unfold attempt_soft, invoke.
  destruct (call_error h p.2 c) as [err |]; simpl;
    (split; [by rewrite Hcalls, app_assoc |]);
    unfold reports in *; simpl; rewrite !length_app; simpl;
    (split; [lia | done]).
Qed.

Lemma partial_success_lists r :
  Applied (partial_success r) = Applied r
  ∧ Warnings (partial_success r) = Warnings r
  ∧ Errors (partial_success r) = Errors r.
Proof. unfold partial_success. by destruct (_ && _). Qed.

Lemma nvidia_core_progress h deviceID s calls made p :
  nvidia_progress calls made p →
  nvidia_progress calls
    (made ++ (if negb (CoreClockOffset s =? 0)
              then [SetGraphicsClockOffset deviceID (CoreClockOffset s)]
              else []))
    (nvidia_core h deviceID s p).
Proof.
  intros Hp. unfold nvidia_core.
  destruct (negb (CoreClockOffset s =? 0)); [| by rewrite app_nil_r].
  apply attempt_progress; [| done]. intros err. exists err. auto.
Qed.

Lemma nvidia_memory_progress h deviceID s calls made p :
  nvidia_progress calls made p →
  nvidia_progress calls
    (made ++ (if negb (MemoryClockOffset s =? 0)
              then [SetMemoryTransferRateOffset deviceID (MemoryClockOffset s)]
              else []))
    (nvidia_memory h deviceID s p).
Proof.
  intros Hp. unfold nvidia_memory.
  destruct (negb (MemoryClockOffset s =? 0)); [| by rewrite app_nil_r].
  apply attempt_progress; [| done]. intros err. exists err. auto.
Qed.

Lemma nvidia_power_progress h deviceID s calls made p :
  nvidia_progress calls made p →
  nvidia_progress calls
    (made ++ (if 0 <? PowerLimit s
              then [NvidiaSmiPowerLimit deviceID (PowerLimit s)] else []))
    (nvidia_power h deviceID s p).
Proof.
  intros Hp. unfold nvidia_power.
  destruct (0 <? PowerLimit s); [| by rewrite app_nil_r].
  by apply attempt_soft_progress.
Qed.

Lemma nvidia_fan_progress h deviceID s calls made p :
  nvidia_progress calls made p →
  nvidia_progress calls
    (made ++ (if 0 <? FanSpeed s
              then [SetTargetFanSpeed deviceID (FanSpeed s)] else []))
    (nvidia_fan h deviceID s p).
Proof.
  intros Hp. unfold nvidia_fan.
  destruct (0 <? FanSpeed s); [| by rewrite app_nil_r].
  apply attempt_progress; [| done]. intros err. exists err. auto.
Qed.

Lemma nvidia_stages_progress h deviceID s calls :
  nvidia_progress calls (nvidia_calls deviceID s)
    (nvidia_fan h deviceID s
       (nvidia_power h deviceID s
          (nvidia_memory h deviceID s
             (nvidia_core h deviceID s (new_result, calls))))).
Proof.
  assert (H0 : nvidia_progress calls [] (new_result, calls)).
  { split; [by rewrite app_nil_r |]. split; [done | constructor]. }
  apply (nvidia_core_progress h deviceID s) in H0.
  apply (nvidia_memory_progress h deviceID s) in H0.
  apply (nvidia_power_progress h deviceID s) in H0.
  apply (nvidia_fan_progress h deviceID s) in H0.
  unfold nvidia_calls. by rewrite <- !app_assoc in H0.
Qed.

(** X20.  On an NVIDIA device the Linux reader first asks [nvidia-smi]
    for the device and gives up, having run nothing else, when that
    fails.  Otherwise it attempts every configured field, in the order
    core offset, memory offset, power limit, fan speed, whatever the
    outcome of the attempts before: no failure stops the others.  Each
    attempt leaves exactly one entry in the result, and only a failed
    clock offset or fan speed is listed as an error; a refused power
    limit never is. *)
Theorem nvidia_attempts_every_configured_field :
  ∀ h deviceID settings calls,
    match call_error h calls (NvidiaSmiQuery deviceID) with
    | Some _ =>
        setNvidiaOverclockSettings h deviceID settings calls
        = (inr (ErrDeviceNotFound deviceID),
           calls ++ [NvidiaSmiQuery deviceID])
    | None =>
        ∃ r,
          setNvidiaOverclockSettings h deviceID settings calls
          = (inl r,
             calls ++ NvidiaSmiQuery deviceID
               :: nvidia_calls deviceID settings)
          ∧ reports r = length (nvidia_calls deviceID settings)
          ∧ Forall hard_failure (Errors r)
    end.
Proof.
  intros h deviceID settings calls.
  unfold setNvidiaOverclockSettings, invoke.
  destruct (call_error h calls (NvidiaSmiQuery deviceID)) as [err |];
    [done |].
  pose proof (nvidia_stages_progress h deviceID settings
                (calls ++ [NvidiaSmiQuery deviceID])) as (Hcalls & Hrep & Herr).
  set (p := nvidia_fan h deviceID settings _) in *.
  exists (partial_success p.1).
  destruct (partial_success_lists p.1) as (Ha & Hw & He).
  split; [| split].
  - f_equal. rewrite Hcalls. by rewrite <- app_assoc.
  - unfold reports in *. by rewrite Ha, Hw, He.
  - by rewrite He.
Qed.

Lemma amd_attempt_soft h path data failed applied calls p :
  (∀ v, applied ≠ PowerLimitApplied v) →
  amd_progress calls p →
  amd_progress calls
    (attempt_soft h (SysfsWrite path data) failed applied p).
Proof.
  intros Happ (Hs & He & Hp & writes & Hc & Hw).
  unfold attempt_soft, invoke.
  assert (Hwrites : ∃ writes', p.2 ++ [SysfsWrite path data] = calls ++ writes'
                               ∧ Forall is_sysfs_write writes').
  { exists (writes ++ [SysfsWrite path data]).
    split; [by rewrite Hc, app_assoc |].
    apply Forall_app. split; [done |]. apply Forall_singleton.
    by exists path, data. }
  destruct (call_error h p.2 _) as [err |]; simpl;
    (split; [done |]); (split; [done |]); (split; [| done]); [done |].
  intros v Hin. apply elem_of_app in Hin as [Hin | Hin]; [by eapply Hp |].
  apply list_elem_of_singleton in Hin. by eapply Happ.
Qed.

Lemma amd_add_warning msg calls p :
  amd_progress calls p → amd_progress calls (add_warning msg p.1, p.2).
Proof. by intros (Hs & He & Hp & Hw). Qed.

Lemma amd_manual_level_progress h cardPath calls p :
  amd_progress calls p → amd_progress calls (amd_manual_level h cardPath p).
Proof.
  intros Hp. unfold amd_manual_level. destruct (fileExists h _ _); [| done].
  by apply amd_attempt_soft.
Qed.

Lemma amd_clock_progress h requested file failed applied cardPath calls p :
  (∀ state v, applied state ≠ PowerLimitApplied v) →
  amd_progress calls p →
  amd_progress calls
    (amd_clock h requested file failed applied cardPath p).
Proof.
  intros Happ Hp. unfold amd_clock.
  destruct (negb (requested =? 0)); [| done].
  destruct (fileExists h _ _); [| done].
  destruct (ReadFile h _ _) as [data |]; [| done].
  destruct (negb (String.eqb _ _)); [| done].
  apply amd_attempt_soft; [| done]. intros v. apply Happ.
Qed.

Lemma amd_power_progress s calls p :
  amd_progress calls p → amd_progress calls (amd_power s p).
Proof.
  intros Hp. unfold amd_power. destruct (_ && _); [| done].
  by apply amd_add_warning.
Qed.

Lemma amd_fan_progress h s cardPath calls p :
  amd_progress calls p → amd_progress calls (amd_fan h s cardPath p).
Proof.
  intros Hp. unfold amd_fan.
  destruct (0 <? FanSpeed s); [| done].
  destruct (negb (String.eqb _ _)); [| done].
  destruct (_ && _); [| done].
  unfold invoke.
  destruct Hp as (Hs & He & Hpl & writes & Hc & Hw).
  assert (Hnext : ∀ r, Success r = true → Errors r = [] →
            (∀ v, PowerLimitApplied v ∉ Applied r) →
            amd_progress calls
              (r, p.2 ++ [SysfsWrite (Join h (findAMDHwmonPath h cardPath)
                                        "pwm1_enable") (Text "1")])).
  { intros r ? ? ?. split; [done |]. split; [done |]. split; [done |].
    exists (writes ++ [SysfsWrite (Join h (findAMDHwmonPath h cardPath)
                                    "pwm1_enable") (Text "1")]).
    split; [simpl; by rewrite Hc, app_assoc |].
    apply Forall_app. split; [done |]. apply Forall_singleton.
    by eexists _, _. }
  destruct (call_error h p.2 _) as [err |].
  - by apply (Hnext (add_warning (ManualFanFailed err) p.1)).
  - apply amd_attempt_soft; [done |]. by apply Hnext.
Qed.

Lemma setAMDOverclockSettings_progress h deviceID settings calls :
  findAMDCardPath h deviceID ≠ "" →
  ∃ p, setAMDOverclockSettings h deviceID settings calls
       = (inl (amd_closing p.1), p.2)
       ∧ amd_progress calls p.
Proof.
  intros Hne. unfold setAMDOverclockSettings.
  destruct (String.eqb_spec (findAMDCardPath h deviceID) ""); [done |].
  set (cardPath := findAMDCardPath h deviceID).
  eexists. split; [reflexivity |].
  assert (H0 : amd_progress calls (new_result, calls)).
  { split; [done |]. split; [done |].
    split; [by intros v ?%elem_of_nil |].
    exists []. split; [by rewrite app_nil_r | constructor]. }
  apply (amd_manual_level_progress h cardPath) in H0.
  apply (amd_clock_progress h (CoreClockOffset settings) "pp_dpm_sclk"
           GpuStateFailed GpuStateSet cardPath) in H0; [| done].
  apply (amd_clock_progress h (MemoryClockOffset settings) "pp_dpm_mclk"
           MemoryStateFailed MemoryStateSet cardPath) in H0; [| done].
  apply (amd_power_progress settings) in H0.
  by apply (amd_fan_progress h settings cardPath) in H0.
Qed.

(** X21.  On an AMD card the Linux reader never reports failure: once
    the card is found the result says success and lists no error, even
    when every write is refused, for refusals are warnings only.  All it
    does is write to sysfs, and a power limit is never applied.  When
    the card is not found nothing is done. *)
Theorem amd_path_never_reports_failure :
  ∀ h deviceID settings calls,
    if String.eqb (findAMDCardPath h deviceID) ""
    then setAMDOverclockSettings h deviceID settings calls
         = (inr (ErrCardNotFound deviceID), calls)
    else ∃ r writes,
           setAMDOverclockSettings h deviceID settings calls
           = (inl r, calls ++ writes)
           ∧ Success r = true ∧ Errors r = []
           ∧ (∀ v, PowerLimitApplied v ∉ Applied r)
           ∧ Forall is_sysfs_write writes.
Proof.
  intros h deviceID settings calls.
  destruct (String.eqb_spec (findAMDCardPath h deviceID) "") as [Heq | Hne].
  - unfold setAMDOverclockSettings. by rewrite Heq.
  - destruct (setAMDOverclockSettings_progress h deviceID settings calls Hne)
      as (p & -> & Hs & He & Hp & writes & Hc & Hw).
    exists (amd_closing p.1), writes. rewrite <- Hc.
    split; [done |].
    unfold amd_closing. destruct (_ && _); simpl; done.
Qed.

(** X22.  The bounds of the device ID in the Linux reader: when [GetInfo]
    fails, or the ID is not below the number of devices, the call returns
    the not-found error and runs nothing; a negative ID is not caught and
    panics on the index; a device of any vendor but NVIDIA and AMD is
    turned down with nothing run. *)
Theorem SetOverclockSettings_device_bounds :
  ∀ h deviceID settings calls,
    match GetInfo h with
    | None =>
        SetOverclockSettings h deviceID settings calls
        = (Ret (inr (ErrDeviceNotFound deviceID)), calls)
    | Some gpus =>
        (Z.of_nat (length gpus) ≤ deviceID →
         SetOverclockSettings h deviceID settings calls
         = (Ret (inr (ErrDeviceNotFound deviceID)), calls))
        ∧ (deviceID < 0 →
           SetOverclockSettings h deviceID settings calls = (Panic, calls))
        ∧ (0 ≤ deviceID < Z.of_nat (length gpus) →
           ∃ v r calls',
             gpus !! Z.to_nat deviceID = Some v
             ∧ SetOverclockSettings h deviceID settings calls
               = (Ret r, calls')
             ∧ (v ≠ NVIDIA → v ≠ AMD →
                r = inr (ErrVendorUnsupported v) ∧ calls' = calls))
    end.
Proof.
  intros h deviceID settings calls. unfold SetOverclockSettings.
  destruct (GetInfo h) as [gpus |]; [| done].
  split; [| split].
  - intros Hbig.
    by destruct (Z.leb_spec (Z.of_nat (length gpus)) deviceID); [| lia].
  - intros Hneg.
    destruct (Z.leb_spec (Z.of_nat (length gpus)) deviceID); [lia |].
    by rewrite go_index_negative.
  - intros Hin.
    destruct (Z.leb_spec (Z.of_nat (length gpus)) deviceID); [lia |].
    destruct (lookup_lt_is_Some_2 gpus (Z.to_nat deviceID) ltac:(lia))
      as [v Hv].
    assert (Hidx : go_index gpus deviceID = Ret v)
      by (apply go_index_Ret; split; [lia | done]).
    rewrite Hidx. exists v.
    destruct v.
    + destruct (setNvidiaOverclockSettings h deviceID settings calls)
        as [r calls'].
      by exists r, calls'.
    + destruct (setAMDOverclockSettings h deviceID settings calls)
        as [r calls'].
      by exists r, calls'.
    + by eexists _, _.
    + by eexists _, _.
Qed.

(** X23.  The status the handler [setGPUOverclock] answers with over the
    Linux reader, once the request is parsed: 500 exactly when the reader
    returns an error, 422 exactly when it returns a result that lists an
    error, 200 exactly when it returns a result without errors; so a
    result with warnings only is answered with 200, and for an AMD card
    that was found the answer is always 200. *)
Theorem setGPUOverclock_status_cases :
  ∀ h deviceID settings calls,
    match (SetOverclockSettings h deviceID settings calls).1 with
    | Panic => setGPUOverclock_status h deviceID settings calls = Panic
    | Ret (inr _) => setGPUOverclock_status h deviceID settings calls = Ret 500
    | Ret (inl r) =>
        (Errors r = [] ∧
         setGPUOverclock_status h deviceID settings calls = Ret 200)
        ∨ (Errors r ≠ [] ∧
           setGPUOverclock_status h deviceID settings calls = Ret 422)
    end
    ∧ ∀ gpus, GetInfo h = Some gpus → go_index gpus deviceID = Ret AMD →
        findAMDCardPath h deviceID ≠ "" →
        setGPUOverclock_status h deviceID settings calls = Ret 200.
Proof.
  intros h deviceID settings calls. split.
  - unfold setGPUOverclock_status.
    destruct (SetOverclockSettings h deviceID settings calls)
      as [[[r | err] |] calls'] eqn:Hrun; simpl; [| done | done].
    assert (Hinv : success_iff_no_errors r).
    { revert Hrun. unfold SetOverclockSettings.
      destruct (GetInfo h) as [gpus |]; [| done].
      destruct (_ <=? _); [done |].
      destruct (go_index gpus deviceID) as [[| | |] |]; try done.
      - destruct (setNvidiaOverclockSettings h deviceID settings calls)
          as [r' calls''] eqn:Hn.
        intros [= -> ->]. by eapply setNvidiaOverclockSettings_invariant.
      - destruct (setAMDOverclockSettings h deviceID settings calls)
          as [r' calls''] eqn:Ha.
        intros [= -> ->]. by eapply setAMDOverclockSettings_invariant. }
    unfold success_iff_no_errors in Hinv.
    destruct (Success r).
    + left. split; [| done].
      destruct (Errors r); [done |].
      assert (true = false) by (by apply Hinv). done.
    + right. split; [| done]. by apply Hinv.
  - intros gpus Hinfo Hidx Hcard.
    unfold setGPUOverclock_status, SetOverclockSettings.
    rewrite Hinfo.
    apply go_index_Ret in Hidx as Hidx'. destruct Hidx' as [Hpos Hlook].
    apply lookup_lt_Some in Hlook.
    destruct (Z.leb_spec (Z.of_nat (length gpus)) deviceID); [lia |].
    rewrite Hidx.
    destruct (setAMDOverclockSettings_progress h deviceID settings calls Hcard)
      as (p & -> & Hs & _).
    simpl. unfold amd_closing. destruct (_ && _); simpl; by rewrite Hs.
Qed.

Lemma setGPUOverclock_status_cases_witness :
  setGPUOverclock_status refusing_amd_host 0 (mkOverclockSettings 100 0 120 60)
    []
  = Ret 200.
Proof.
  apply (proj2 (setGPUOverclock_status_cases refusing_amd_host 0
                  (mkOverclockSettings 100 0 120 60) []) [AMD]);
    done.
Defined.

Lemma Windows_nvidia_apply h s m :
  (overclock.setNvidiaSettings h s m).1 = None →
  overclock.CoreClockOffset s = 0 ∧ overclock.MemoryClockOffset s = 0
  ∧ overclock.FanSpeed s ≤ 0.
Proof.
  intros H. apply setNvidiaSettings_result in H as (_ & Hc & _ & Hf).
  apply orb_false_iff in Hc as [Hc Hm].
  apply negb_false_iff, Z.eqb_eq in Hc, Hm. apply Z.ltb_ge in Hf. done.
Qed.

(** X24.  On Windows a card the controller takes for an NVIDIA card gets
    no clock offset and no fan speed: a request with either fails, and
    the result lists the controller's error.  So the reader's warning
    that NVIDIA cards need additional tools is only ever issued when the
    reader's own detection answers "nvidia" for a card the controller
    has configured as an AMD card. *)
Theorem Windows_nvidia_warning_needs_disagreement :
  ∀ h detects deviceID settings m,
    let r := (Windows_SetOverclockSettings h detects deviceID settings m).1 in
    (overclock.detect_vendor h (overclock.log m) deviceID
     = overclock.DetectedNvidia →
     CoreClockOffset settings ≠ 0 ∨ MemoryClockOffset settings ≠ 0
     ∨ 0 < FanSpeed settings →
     Success r = false ∧ Applied r = [] ∧ ∃ err, Errors r = [ControllerError err])
    ∧ (Warnings r ≠ [] →
       overclock.detect_vendor h (overclock.log m) deviceID
       = overclock.DetectedAMD
       ∧ Success r = true).
Proof.
  intros h detects deviceID settings m r. subst r.
  unfold Windows_SetOverclockSettings, overclock.Windows_SetSettings.
  destruct (overclock.Windows.validateSettings _) as [err |].
  { simpl. split; [by eauto | done]. }
  unfold overclock.detectGPUVendor. simpl.
  set (m1 := overclock.record (overclock.SysDetectVendor deviceID) m).
  destruct (overclock.detect_vendor h (overclock.log m) deviceID).
  - pose proof (Windows_nvidia_apply h
                  (to_controller_settings deviceID settings) m1) as Happly.
    destruct (overclock.setNvidiaSettings h _ m1) as [[err |] m2];
      simpl in *.
    { split; [by eauto | done]. }
    destruct (Happly eq_refl) as (Hc & Hm & Hf).
    destruct (overclock.save_current h _ m2) as [[err |] m3]; simpl.
    { split; [by eauto | done]. }
    split; [intros _ [? | [? | ?]]; lia |].
    apply Z.eqb_eq in Hc, Hm. apply Z.ltb_ge in Hf.
    rewrite Hc, Hm, Hf. simpl. by rewrite andb_false_r.
  - split; [done |].
    destruct (overclock.setAMDSettings h _ m1) as [[err |] m2]; [done |].
    by destruct (overclock.save_current h _ m2) as [[err |] m3].
  - split; [done |]. done.
  - split; [done |]. done.
Qed.

End apply_settings_more.

(** ** Device numbering on Linux *)

Section device_numbering.
Import gpu.

Lemma sysfs_gpus_from h (entries : list drm_entry) (gpus : list Vendor) :
  fold_left
    (λ gpus entry,
       if negb (String.prefix "card" (entry_name entry))
          || Contains (entry_name entry) "-"
       then gpus
       else match entry_vendor entry with
            | None => gpus
            | Some vendorData =>
                if negb (String.eqb (TrimSpace h vendorData) "0x1002")
                then gpus
                else gpus ++ [AMD]
            end)
    entries gpus
  = gpus ++ replicate (length (List.filter (is_amd_card h) entries)) AMD.
Proof.
  revert gpus. induction entries as [| entry rest IH]; intros gpus.
  - simpl. by rewrite app_nil_r.
  - simpl. rewrite IH. unfold is_amd_card.
    destruct (String.prefix "card" (entry_name entry)); simpl; [| done].
    destruct (Contains (entry_name entry) "-"); simpl; [done |].
    destruct (entry_vendor entry) as [vendorData |]; [| done].
    destruct (String.eqb (TrimSpace h vendorData) "0x1002"); simpl; [| done].
    by rewrite <- app_assoc.
Qed.

Lemma sysfs_gpus_spec h (entries : list drm_entry) :
  sysfs_gpus h entries
  = replicate (length (List.filter (is_amd_card h) entries)) AMD.
Proof. unfold sysfs_gpus. by rewrite sysfs_gpus_from. Qed.

Lemma card_scan_spec h (entries : list drm_entry) (currentID deviceID : Z) :
  0 ≤ currentID →
  currentID + Z.of_nat (length entries) ≤ GoInt.max_int →
  card_scan h entries currentID deviceID
  = match (if deviceID <? currentID then None
           else List.filter (is_amd_card h) entries
                !! Z.to_nat (deviceID - currentID)) with
    | Some entry => card_path (entry_name entry)
    | None => EmptyString
    end.
Proof.
  revert currentID. induction entries as [| entry rest IH];
    intros currentID Hpos Hlen.
  - simpl. by destruct (deviceID <? currentID).
  - simpl in Hlen. simpl. unfold is_amd_card at 1.
    destruct (String.prefix "card" (entry_name entry)); simpl;
      [| apply IH; lia].
    destruct (Contains (entry_name entry) "-"); simpl; [apply IH; lia |].
    destruct (entry_vendor entry) as [vendorData |]; [| apply IH; lia].
    destruct (String.eqb (TrimSpace h vendorData) "0x1002");
      [| apply IH; lia].
    destruct (Z.eqb_spec currentID deviceID) as [-> | Hne].
    + rewrite Z.ltb_irrefl, Z.sub_diag. done.
    + assert (Hadd : GoInt.add currentID 1 = currentID + 1).
      { unfold GoInt.add. apply wrap_small.
        unfold GoInt.in_range, GoInt.min_int, GoInt.max_int in *. lia. }
      rewrite Hadd, IH by lia.
      destruct (Z.ltb_spec deviceID currentID) as [Hlt | Hge].
      * by destruct (Z.ltb_spec deviceID (currentID + 1)); [| lia].
      * destruct (Z.ltb_spec deviceID (currentID + 1)); [lia |].
        replace (Z.to_nat (deviceID - currentID))
          with (S (Z.to_nat (deviceID - (currentID + 1)))) by lia.
        done.
Qed.

Lemma card_path_nonempty (name : string) : card_path name ≠ "".
Proof. done. Qed.

(** X25.  The Linux reader numbers devices in two ways.  [GetInfo] lists
    the NVIDIA GPUs first and the AMD cards after them, and
    [SetOverclockSettings] takes the device ID as an index into that
    list; but on an AMD device it hands the same ID to
    [findAMDCardPath], which counts AMD cards only, from zero.  So with
    [n] NVIDIA GPUs in front, the device that [GetInfo] lists as the
    AMD card number [deviceID - n] is configured through the sysfs
    directory of AMD card number [deviceID], and when there is no such
    card the call fails with the card-not-found error although the
    device is listed. *)
Theorem amd_device_is_counted_among_amd_cards_only :
  ∀ h d (n : nat) entries deviceID settings calls,
    nvidia_smi_gpus d = Some n → rocm_smi d = None →
    drm d = Some entries →
    Z.of_nat (length entries) ≤ GoInt.max_int →
    let cards := List.filter (is_amd_card h) entries in
    Z.of_nat n ≤ deviceID < Z.of_nat n + Z.of_nat (length cards) →
    GetInfo (discovered_host h d)
    = Some (replicate n NVIDIA ++ replicate (length cards) AMD)
    ∧ go_index (replicate n NVIDIA ++ replicate (length cards) AMD) deviceID
      = Ret AMD
    ∧ match cards !! Z.to_nat deviceID with
      | Some entry =>
          findAMDCardPath (discovered_host h d) deviceID
          = card_path (entry_name entry)
          ∧ SetOverclockSettings (discovered_host h d) deviceID settings
              calls
            = (let '(r, calls') :=
                 setAMDOverclockSettings (discovered_host h d) deviceID
                   settings calls in
               (Ret r, calls'))
      | None =>
          SetOverclockSettings (discovered_host h d) deviceID settings calls
          = (Ret (inr (ErrCardNotFound deviceID)), calls)
      end.
Proof.
  intros h d n entries deviceID settings calls Hn Hrocm Hdrm Hlen cards Hid.
  assert (Hinfo : GetInfo (discovered_host h d)
                  = Some (replicate n NVIDIA ++ replicate (length cards) AMD)).
  { simpl. unfold discovered_gpus, getNvidiaGPUs, getAMDGPUs,
      getAMDGPUsFromSysfs.
    rewrite Hn, Hrocm, Hdrm. simpl. rewrite sysfs_gpus_spec. fold cards.
    rewrite length_replicate.
    destruct (length cards) as [| k] eqn:Hk; [lia |]. simpl.
    destruct (Nat.eqb_spec
                (length (replicate n NVIDIA ++ AMD :: replicate k AMD)) 0)
      as [Hzero | _]; [| done].
    rewrite length_app in Hzero. simpl in Hzero. lia. }
  assert (Hidx : go_index (replicate n NVIDIA ++ replicate (length cards) AMD)
                   deviceID = Ret AMD).
  { apply go_index_Ret. split; [lia |].
    rewrite lookup_app_r by (rewrite length_replicate; lia).
    rewrite length_replicate. apply lookup_replicate. split; [done | lia]. }
  assert (Hpath : findAMDCardPath (discovered_host h d) deviceID
                  = match cards !! Z.to_nat deviceID with
                    | Some entry => card_path (entry_name entry)
                    | None => EmptyString
                    end).
  { simpl. unfold discovered_card_path. rewrite Hdrm.
    rewrite card_scan_spec by lia.
    destruct (Z.ltb_spec deviceID 0); [lia |].
    by rewrite Z.sub_0_r. }
  split; [done |]. split; [done |].
  assert (Hrange : (Z.of_nat
                      (length (replicate n NVIDIA
                               ++ replicate (length cards) AMD))
                    <=? deviceID) = false).
  { apply Z.leb_gt. rewrite length_app, !length_replicate. lia. }
  unfold SetOverclockSettings. rewrite Hinfo, Hrange, Hidx.
  destruct (cards !! Z.to_nat deviceID) as [entry |] eqn:Hcard.
  - split; [done |]. done.
  - unfold setAMDOverclockSettings. by rewrite Hpath.
Qed.

Lemma amd_device_is_counted_among_amd_cards_only_witness :
  GetInfo (discovered_host obliging_host mixed_machine) = Some [NVIDIA; AMD]
  ∧ go_index [NVIDIA; AMD] 1 = Ret AMD
  ∧ SetOverclockSettings (discovered_host obliging_host mixed_machine) 1
      three_field_request []
    = (Ret (inr (ErrCardNotFound 1)), []).
Proof.
  exact (amd_device_is_counted_among_amd_cards_only obliging_host
           mixed_machine 1%nat _ 1 three_field_request []
           eq_refl eq_refl eq_refl ltac:(by vm_compute)
           ltac:(by vm_compute)).
Defined.

End device_numbering.

(** ** Listing the fans *)

Section listing_fans.
Import fan.
Import Monitoring.

Lemma reads_only_ret {A} (a : A) (P : A → Prop) :
  P a → reads_only (ret a) P.
Proof.
  intros Ha c. exists a, c, [].
  split; [done |]. split; [by repeat split |].
  split; [unfold logged; by rewrite app_nil_r |]. split; [constructor | done].
Qed.

Lemma reads_only_bind {A B} (m : M A) (k : A → M B) (P : A → Prop)
    (Q : B → Prop) :
  reads_only m P → (∀ a, P a → reads_only (k a) Q) →
  reads_only (bind m k) Q.
Proof.
  intros Hm Hk c.
  destruct (Hm c) as (a & c1 & evs1 & Hrun1 & Hs1 & Hl1 & Hw1 & Ha).
  destruct (Hk a Ha c1) as (b & c2 & evs2 & Hrun2 & Hs2 & Hl2 & Hw2 & Hb).
  exists b, c2, (evs1 ++ evs2). unfold bind. rewrite Hrun1.
  split; [done |].
  split.
  { destruct Hs1 as (? & ? & ? & ?), Hs2 as (? & ? & ? & ?).
    repeat split; congruence. }
  split; [unfold logged in *; by rewrite Hl2, Hl1, app_assoc |].
  split; [by apply Forall_app | done].
Qed.

Lemma reads_only_weaken {A} (m : M A) (P Q : A → Prop) :
  reads_only m P → (∀ a, P a → Q a) → reads_only m Q.
Proof.
  intros Hm HPQ c. destruct (Hm c) as (a & c' & evs & ? & ? & ? & ? & ?).
  exists a, c', evs. eauto 10.
Qed.

Lemma reads_only_ReadFile pf path :
  reads_only (ioutil_ReadFile pf path) (λ _, True).
Proof.
  intros c. eexists _, _, [EvRead path].
  unfold ioutil_ReadFile, bind, get, emit, ret. simpl.
  split; [done |]. split; [by repeat split |]. split; [done |].
  split; [by repeat constructor | done].
Qed.

Lemma reads_only_lift {A} (a : A) (P : A → Prop) :
  P a → reads_only (lift (Ret a)) P.
Proof. apply reads_only_ret. Qed.

Lemma reads_only_getPWMSpeedPercent pf pwmPath :
  reads_only (getPWMSpeedPercent pf pwmPath) (λ _, True).
Proof.
  unfold getPWMSpeedPercent.
  eapply reads_only_bind; [apply reads_only_ReadFile |].
  intros [data |] _; [| by apply reads_only_ret].
  destruct (Atoi pf (TrimSpace pf data)); by apply reads_only_ret.
Qed.

Lemma reads_only_getFanRPMDirect pf Base Itoa fanPaths fanIndex :
  reads_only (getFanRPMDirect pf Base Itoa fanPaths fanIndex) (λ _, True).
Proof.
  induction fanPaths as [| fanPath rest IH]; [by apply reads_only_ret |].
  simpl. destruct (String.prefix _ _); [| done].
  eapply reads_only_bind; [apply reads_only_ReadFile |].
  intros [data |] _; [| done].
  destruct (Atoi pf (TrimSpace pf data)); [by apply reads_only_ret | done].
Qed.

(** The division of the estimate is guarded: it never panics. *)
Lemma reads_only_estimate (fan : Info) :
  MaxRPM fan = 0 →
  reads_only (estimate fan)
    (λ fan', sound_estimate fan' ∧ Name fan' = Name fan
             ∧ RPM fan' = RPM fan ∧ Speed fan' = Speed fan).
Proof.
  intros Hzero. unfold estimate.
  destruct ((0 <? RPM fan) && (0 <? Speed fan)) eqn:Hguard.
  - apply andb_true_iff in Hguard as [Hrpm Hspeed].
    apply Z.ltb_lt in Hrpm, Hspeed.
    assert (Hdiv : ∃ q, div (GoInt.mul (RPM fan) 100) (Speed fan) = Ret q).
    { unfold div, GoInt.quo.
      destruct (Z.eqb_spec (Speed fan) 0); [lia | eauto]. }
    destruct Hdiv as [q Hq]. rewrite Hq.
    eapply reads_only_bind; [by apply (reads_only_lift q (λ q', q' = q)) |].
    intros ? ->. apply reads_only_ret. simpl.
    split; [right; by repeat split | done].
  - apply reads_only_ret. split; [by left | done].
Qed.

Lemma reads_only_sensors_line pf Fields pwmPaths line fans fanIndex :
  Forall sound_estimate fans → 0 ≤ fanIndex < GoInt.max_int →
  reads_only (sensors_line pf Fields pwmPaths line fans fanIndex)
    (λ st, Forall sound_estimate st.1
           ∧ fanIndex ≤ st.2 ≤ fanIndex + 1).
Proof.
  intros Hfans Hidx. unfold sensors_line.
  destruct (Contains _ "fan" && Contains _ "RPM");
    [| apply reads_only_ret; simpl; split; [done | lia]].
  destruct (Nat.leb_spec 2 (length (Fields (TrimSpace pf line))))
    as [Hlen | _];
    [| apply reads_only_ret; simpl; split; [done | lia]].
  destruct (lookup_lt_is_Some_2 (Fields (TrimSpace pf line)) 1 ltac:(lia))
    as [rpmStr Hrpm].
  destruct (lookup_lt_is_Some_2 (Fields (TrimSpace pf line)) 0 ltac:(lia))
    as [name Hname].
  assert (H1 : go_index (Fields (TrimSpace pf line)) 1 = Ret rpmStr)
    by (by apply go_index_Ret).
  assert (H0 : go_index (Fields (TrimSpace pf line)) 0 = Ret name)
    by (by apply go_index_Ret).
  rewrite H1, H0.
  eapply reads_only_bind;
    [by apply (reads_only_lift rpmStr (λ s, s = rpmStr)) |].
  intros ? ->.
  destruct (Atoi pf rpmStr) as [rpm |];
    [| apply reads_only_ret; simpl; split; [done | lia]].
  eapply reads_only_bind;
    [by apply (reads_only_lift name (λ s, s = name)) |].
  intros ? ->.
  assert (Hadd : GoInt.add fanIndex 1 = fanIndex + 1).
  { unfold GoInt.add. apply wrap_small.
    unfold GoInt.in_range, GoInt.min_int, GoInt.max_int in *. lia. }
  eapply (reads_only_bind _ _ sound_estimate).
  - destruct (Z.ltb_spec fanIndex (Z.of_nat (length pwmPaths))) as [Hlt | _];
      [| apply reads_only_ret; by left].
    destruct (lookup_lt_is_Some_2 pwmPaths (Z.to_nat fanIndex) ltac:(lia))
      as [pwmPath Hpwm].
    assert (Hp : go_index pwmPaths fanIndex = Ret pwmPath)
      by (apply go_index_Ret; split; [lia | done]).
    rewrite Hp.
    eapply reads_only_bind;
      [by apply (reads_only_lift pwmPath (λ s, s = pwmPath)) |].
    intros ? ->.
    eapply reads_only_bind; [apply reads_only_getPWMSpeedPercent |].
    intros speed _.
    eapply reads_only_weaken;
      [apply reads_only_estimate; by destruct (0 <=? speed) |].
    by intros fan' [? _].
  - intros fan Hfan. apply reads_only_ret. simpl.
    split; [apply Forall_app; split; [done | by apply Forall_singleton] |].
    lia.
Qed.

Lemma reads_only_sensors_loop pf Fields pwmPaths lines fans fanIndex :
  Forall sound_estimate fans → 0 ≤ fanIndex →
  fanIndex + Z.of_nat (length lines) ≤ GoInt.max_int →
  reads_only (sensors_loop pf Fields pwmPaths lines fans fanIndex)
    (Forall sound_estimate).
Proof.
  revert fans fanIndex.
  induction lines as [| line rest IH]; intros fans fanIndex Hfans Hpos Hlen.
  - by apply reads_only_ret.
  - simpl in Hlen. simpl.
    eapply reads_only_bind;
      [apply reads_only_sensors_line; [done | lia] |].
    intros [fans' fanIndex'] [Hfans' Hidx']. simpl in *.
    apply IH; [done | lia | lia].
Qed.

Lemma reads_only_pwm_loop pf Base Itoa fanPaths pwmPaths i fans :
  Forall sound_estimate fans →
  reads_only (pwm_loop pf Base Itoa fanPaths pwmPaths i fans)
    (λ fans', Forall sound_estimate fans'
              ∧ length fans' = (length fans + length pwmPaths)%nat).
Proof.
  revert i fans. induction pwmPaths as [| pwmPath rest IH]; intros i fans Hfans.
  - apply reads_only_ret. simpl. split; [done | lia].
  - simpl.
    eapply reads_only_bind; [apply reads_only_getPWMSpeedPercent |].
    intros speed _.
    eapply reads_only_bind; [apply reads_only_getFanRPMDirect |].
    intros rpm _.
    eapply reads_only_bind; [by apply reads_only_estimate |].
    intros fan [Hfan _].
    eapply reads_only_weaken.
    + apply IH. apply Forall_app. split; [done | by apply Forall_singleton].
    + intros fans' [? Hlen]. split; [done |].
      rewrite Hlen, length_app. simpl. lia.
Qed.

(** X26.  [GetFans] never panics and writes nothing, whatever the
    [sensors] command prints and the files hold: the index into the PWM
    paths stays within the slice and the division of the estimate is
    never by zero.  Every fan it reports has either no estimate of the
    maximal RPM, or the quotient of a positive RPM by a positive speed
    percentage; and when [sensors] is not available it reports exactly
    one fan for each PWM path. *)
Theorem GetFans_never_panics :
  ∀ pf Split Fields Base Itoa fanPaths sensors c,
    (∀ output, sensors = Some output →
       Z.of_nat (length (Split output (String (ascii_of_nat 10) EmptyString)))
       ≤ GoInt.max_int) →
    ∃ fans c' evs,
      GetFans pf Split Fields Base Itoa fanPaths sensors c = (Ret fans, c')
      ∧ same_control c c' ∧ logged c c' evs ∧ no_writes evs
      ∧ Forall sound_estimate fans
      ∧ (sensors = None → length fans = length (pwmPaths c)).
Proof.
  intros pf Split Fields Base Itoa fanPaths sensors c Hlines.
  assert (Hread : reads_only
            (bind
               match sensors with
               | Some output =>
                   sensors_loop pf Fields (pwmPaths c)
                     (Split output (String (ascii_of_nat 10) EmptyString))
                     [] 0
               | None => ret []
               end
               (λ fans, if (length fans =? 0)%nat
                        then pwm_loop pf Base Itoa fanPaths (pwmPaths c) 0
                               fans
                        else ret fans))
            (λ fans, Forall sound_estimate fans
                     ∧ (sensors = None
                        → length fans = length (pwmPaths c)))).
  { eapply (reads_only_bind _ _
              (λ fans, Forall sound_estimate fans
                       ∧ (sensors = None → fans = []))).
    - destruct sensors as [output |].
      + eapply reads_only_weaken.
        * apply reads_only_sensors_loop; [constructor | lia |].
          specialize (Hlines output eq_refl). lia.
        * intros fans Hfans. by split.
      + apply reads_only_ret. split; [constructor | done].
    - intros fans [Hfans Hnone].
      destruct (Nat.eqb_spec (length fans) 0) as [Hzero | Hsome].
      + eapply reads_only_weaken; [by apply reads_only_pwm_loop |].
        intros fans' [? Hlen]. split; [done |]. intros _. lia.
      + apply reads_only_ret. split; [done |].
        intros Hs. rewrite (Hnone Hs) in Hsome. done. }
  destruct (Hread c) as (fans & c' & evs & Hrun & Hs & Hl & Hw & Hf & Hlen).
  exists fans, c', evs. split; [| done].
  unfold GetFans. unfold bind at 1. unfold get. exact Hrun.
Qed.

Lemma GetFans_never_panics_witness :
  ∃ fans c' evs,
    GetFans readback_platform (λ s _, [s]) (λ s, [s]) id (λ _, "1") []
      (Some "fan1: 1200 RPM") one_fan
    = (Ret fans, c')
    ∧ same_control one_fan c' ∧ logged one_fan c' evs ∧ no_writes evs
    ∧ Forall sound_estimate fans
    ∧ (Some "fan1: 1200 RPM" = None → length fans = length (pwmPaths one_fan)).
Proof.
  apply (GetFans_never_panics readback_platform (λ s _, [s]) (λ s, [s]) id
           (λ _, "1") [] (Some "fan1: 1200 RPM") one_fan).
  intros output _. by vm_compute.
Defined.

End listing_fans.

(** ** The fans of the Windows controller *)

Section windows_fans.
Import fan.
Import WindowsDiscovery.

Lemma discoverWMIFans_spec query fans :
  ∃ found,
    discoverWMIFans query fans = fans ++ found
    ∧ length found = length (default [] query)
    ∧ Forall (λ f, Speed f = 0) found.
Proof.
  unfold discoverWMIFans. destruct query as [rows |]; simpl.
  2: { exists []. by rewrite app_nil_r. }
  revert fans. induction rows as [| row rest IH]; intros fans; simpl.
  - exists []. by rewrite app_nil_r.
  - destruct (IH (fans ++ [mkWindowsFanInfo
                             (if String.eqb (wmi_Name row) ""
                              then "Fan " +:+ wmi_DeviceID row
                              else wmi_Name row)
                             0 (wmi_VariableSpeed row)]))
      as (found & -> & Hlen & Hall).
    eexists (_ :: found). rewrite <- app_assoc. simpl.
    split; [done |]. split; [by rewrite Hlen |]. by constructor.
Qed.

Lemma probe_fans_spec Itoa probes i fans :
  ∃ found,
    probe_fans Itoa probes i fans = fans ++ found
    ∧ length found = length probes
    ∧ Forall (λ f, Speed f = 0 ∧ Controllable f = false) found.
Proof.
  revert i fans. induction probes as [| probe rest IH]; intros i fans; simpl.
  - exists []. by rewrite app_nil_r.
  - destruct (IH (GoInt.add i 1)
                (fans ++ [mkWindowsFanInfo
                            (if String.eqb (probe_Name probe) ""
                             then "System Fan " +:+ Itoa (GoInt.add i 1)
                                  +:+ " (Probe)"
                             else "Fan for " +:+ probe_Name probe)
                            0 false]))
      as (found & -> & Hlen & Hall).
    eexists (_ :: found). rewrite <- app_assoc. simpl.
    split; [done |]. split; [by rewrite Hlen |]. by constructor.
Qed.

Lemma discoverFans_spec Itoa wmiFans probes :
  ∃ wmi others,
    discoverFans Itoa wmiFans probes = wmi ++ others
    ∧ length wmi = length (default [] wmiFans)
    ∧ Forall (λ f, Speed f = 0) wmi
    ∧ Forall (λ f, Speed f = 0 ∧ Controllable f = false) others
    ∧ (wmi ++ others ≠ []).
Proof.
  unfold discoverFans, discoverTemperatureProbes, addDummyFans.
  destruct (discoverWMIFans_spec wmiFans []) as (wmi & -> & Hlen & Hwmi).
  simpl.
  assert (Hprobes : ∃ found,
            match probes with
            | Some rows => probe_fans Itoa rows 0 wmi
            | None => wmi
            end = wmi ++ found
            ∧ Forall (λ f, Speed f = 0 ∧ Controllable f = false) found).
  { destruct probes as [rows |].
    - destruct (probe_fans_spec Itoa rows 0 wmi) as (found & ? & _ & ?).
      by exists found.
    - exists []. by rewrite app_nil_r. }
  destruct Hprobes as (found & -> & Hfound).
  destruct (Nat.eqb_spec (length (wmi ++ found)) 0) as [Hzero | Hsome].
  - exists wmi, (found ++ [mkWindowsFanInfo "CPU Fan (ID:0)" 0 false;
                           mkWindowsFanInfo "System Fan 1 (ID:1)" 0 false;
                           mkWindowsFanInfo "System Fan 2 (ID:2)" 0 false]).
    split; [by rewrite app_assoc |]. split; [done |]. split; [done |].
    split; [apply Forall_app; split; [done | by repeat constructor] |].
    intros Hnil. apply (f_equal length) in Hnil.
    rewrite !length_app in Hnil. simpl in Hnil. lia.
  - exists wmi, found. repeat split; try done.
    intros Hnil. by rewrite Hnil in Hsome.
Qed.

(** X27.  The Windows controller never has an empty list of fans: when
    neither WMI query finds one it holds the three placeholder fans.
    Every fan is recorded with a speed of 0, which nothing updates, so
    [GetSettings] answers automatic mode with a fixed speed of 0 for every
    fan in range.  Only the fans of the first query can be controllable:
    for a fan taken from a temperature probe and for a placeholder,
    [SetSettings] says that the fan is not controllable. *)
Theorem Windows_discovered_fans :
  ∀ Itoa wmiFans probes,
    let c := newPlatformController Itoa wmiFans probes in
    fans c ≠ []
    ∧ (∀ fanID, 0 ≤ fanID < Z.of_nat (length (fans c)) →
         Windows.GetSettings c fanID = Ret (inl (mkSettings ModeAuto 0 [])))
    ∧ (∀ fanID settings,
         Z.of_nat (length (default [] wmiFans)) ≤ fanID
         < Z.of_nat (length (fans c)) →
         Windows.SetSettings c fanID settings
         = Ret (Some (ErrNotControllable fanID))).
Proof.
  intros Itoa wmiFans probes c. subst c. unfold newPlatformController. simpl.
  destruct (discoverFans_spec Itoa wmiFans probes)
    as (wmi & others & -> & Hlen & Hwmi & Hothers & Hne).
  split; [done |]. split.
  - intros fanID Hid.
    destruct (lookup_lt_is_Some_2 (wmi ++ others) (Z.to_nat fanID)
                ltac:(lia)) as [f Hf].
    assert (Hspeed : Speed f = 0).
    { apply lookup_app_Some in Hf as [Hf | [_ Hf]].
      - by apply (Forall_lookup_1 _ _ _ _ Hwmi Hf).
      - by destruct (Forall_lookup_1 _ _ _ _ Hothers Hf). }
    unfold Windows.GetSettings, Windows.in_range. simpl.
    destruct (Z.ltb_spec fanID 0); [lia |].
    destruct (Z.leb_spec (Z.of_nat (length (wmi ++ others))) fanID); [lia |].
    simpl.
    assert (go_index (wmi ++ others) fanID = Ret f) as ->
      by (apply go_index_Ret; split; [lia | done]).
    simpl. by rewrite Hspeed.
  - intros fanID settings Hid.
    destruct (lookup_lt_is_Some_2 (wmi ++ others) (Z.to_nat fanID)
                ltac:(lia)) as [f Hf].
    assert (Hctl : Controllable f = false).
    { apply lookup_app_Some in Hf as [Hf | [_ Hf]].
      - apply lookup_lt_Some in Hf. lia.
      - by destruct (Forall_lookup_1 _ _ _ _ Hothers Hf). }
    unfold Windows.SetSettings, Windows.in_range. simpl.
    destruct (Z.ltb_spec fanID 0); [lia |].
    destruct (Z.leb_spec (Z.of_nat (length (wmi ++ others))) fanID); [lia |].
    simpl.
    assert (go_index (wmi ++ others) fanID = Ret f) as ->
      by (apply go_index_Ret; split; [lia | done]).
    simpl. by rewrite Hctl.
Qed.

End windows_fans.
